(** * Realtime editor gateway of HedgeDoc: a shallow embedding

    The development follows the TypeScript sources of the realtime module:
    - [YjsAdapter.bindMessageHandlers] (the per-frame dispatcher),
    - [RealtimeEditorGateway] ([handleConnection], [handleDisconnect] and the
      three [@SubscribeMessage] handlers),
    - [NotesService.getNoteByIdOrAlias] and [NotesService.checkNoteIdOrAlias].

    Handlers are written in a small state / trace / rejection monad [Run]:
    the state is the gateway's only mutable field ([noteClientMap]), the trace
    records every call that leaves the gateway (logger, WebSocket, the
    injected services), and a rejection is a thrown error or a rejected
    promise.  One run of a handler is taken as one step: the registry is read
    and written at a single synchronous point of each handler, after its last
    [await]. *)

From Stdlib Require Import NArith Lia Ascii String.
From Stdlib.Strings Require Import Byte.
From stdpp Require Import base gmap strings list.

Open Scope string_scope.

(** ** Values of the program *)

(** A [WebSocket] object.  The sources use it as a map key and compare it by
    reference; a natural number stands for the reference. *)
Abbreviation Client := nat (only parsing).

(** A [Uint8Array]. *)
Abbreviation Uint8Array := (list byte) (only parsing).

(** The fields of the [User] entity the gateway reads. *)
Record User := { userName : string }.

(** The fields of the [Note] entity the gateway and the lookup query read. *)
Module Note.
Record t := { id : string; publicId : string }.
End Note.

(** A row of the alias table: [alias.name], [alias.noteId]. *)
Module Alias.
Record t := { name : string; noteId : string }.
End Alias.

(** The part of [http.IncomingMessage] a connection handler can look at:
    [req.url] (possibly [undefined]) and the request headers. *)
Record IncomingMessage := {
  url : option string;
  headers : list (string * string)
}.

(** Errors thrown by the services, by lib0's decoder and by the registry. *)
Inductive Error :=
| NotInDBError (msg : string)
| ForbiddenIdError (msg : string)
| AlreadyAttachedError
| UnexpectedEndOfArray
| IntegerOutOfRange
| OtherError (msg : string).

(** [String(e)] for an error object: its name, a colon and its message. *)
Definition String_of_error (e : Error) : string :=
  match e with
  | NotInDBError msg => "NotInDBError: " +:+ msg
  | ForbiddenIdError msg => "ForbiddenIdError: " +:+ msg
  | AlreadyAttachedError => "AlreadyAttachedError"
  | UnexpectedEndOfArray => "Error: Unexpected end of array"
  | IntegerOutOfRange => "Error: Integer out of Range"
  | OtherError msg => "Error: " +:+ msg
  end.

(** ** The note-client registry *)

Module NoteClientMap.

(** Modelled from the spec: the class [NoteClientMap] of
    [./note-client-map] is imported by the gateway but is not among the
    sources.  The gateway's field comment calls it the "mapping instance
    keeping track of WebSocket clients and their associated note
    identifier", it is built by [new NoteClientMap()] with no collaborator,
    and the spec describes the registry as "two explicit mappings
    (connection→documentId, documentId→set-of-connections) maintained
    together". *)
Record t := {
  mapClientToNoteId : gmap nat string;
  mapNoteIdToClients : gmap string (gset nat)
}.

(** Modelled from the spec: [new NoteClientMap()], the registry with no
    connection. *)
Definition empty : t :=
  {| mapClientToNoteId := ∅; mapNoteIdToClients := ∅ |}.

(** Modelled from the spec: the document a connection is attached to, or
    [undefined] ([None]) when it is attached to none. *)
Definition getNoteIdByClient (m : t) (client : Client) : option string :=
  mapClientToNoteId m !! client.

(** Modelled from the spec: the "live connection set" of a document. *)
Definition getClientsByNoteId (m : t) (noteId : string) : gset nat :=
  default ∅ (mapNoteIdToClients m !! noteId).

(** Modelled from the spec: "peers(documentId, excluding: connection)",
    which "excludes the originating connection by identity". *)
Definition peers (m : t) (noteId : string) (excluding : Client) : gset nat :=
  getClientsByNoteId m noteId ∖ {[excluding]}.

(** Modelled from the spec: "attach(connection, documentId): fails with
    AlreadyAttachedError if the connection is already mapped to a (possibly
    different) document.  On success, adds the connection to that
    document's live connection set". *)
Definition addClient (m : t) (client : Client) (noteId : string) : Error + t :=
  match mapClientToNoteId m !! client with
  | Some _ => inl AlreadyAttachedError
  | None =>
      inr {| mapClientToNoteId := <[client := noteId]> (mapClientToNoteId m);
             mapNoteIdToClients :=
               <[noteId := {[client]} ∪ getClientsByNoteId m noteId]>
                 (mapNoteIdToClients m) |}
  end.

(** Modelled from the spec: "detach(connection)" "removes the mapping";
    the entry of a document goes with its last connection; a connection
    that "was not attached" leaves the registry as it is.  (The storage
    half of the spec's detach is not part of the class: the gateway marks
    it as still to be done in [handleDisconnect].) *)
Definition removeClient (m : t) (client : Client) : t :=
  match mapClientToNoteId m !! client with
  | None => m
  | Some noteId =>
      let remaining := getClientsByNoteId m noteId ∖ {[client]} in
      {| mapClientToNoteId := delete client (mapClientToNoteId m);
         mapNoteIdToClients :=
           if decide (remaining = ∅)
           then delete noteId (mapNoteIdToClients m)
           else <[noteId := remaining]> (mapNoteIdToClients m) |}
  end.

End NoteClientMap.

(** ** Effects *)

Inductive LogLevel := LogLog | LogError | LogDebug.

(** Every call a handler can make on something outside the gateway: the
    logger, the two methods of a [WebSocket], and the methods of the injected
    services ([UsersService], [NotesService], [PermissionsService]). *)
Inductive Event :=
| EvLog (level : LogLevel) (context : string) (functionContext : option string)
        (message : string)
| EvClose (client : Client)
| EvSend (client : Client) (data : Uint8Array)
| EvGetUserByUsername (username : string)
| EvGetNoteByIdOrAlias (noteIdOrAlias : string)
| EvMayRead (user : User) (note : Note.t)
| EvGetNoteContent (note : Note.t)
| EvUpdateNote (note : Note.t) (noteContent : string).

(** The mutable state of [RealtimeEditorGateway]. *)
Record State := { noteClientMap : NoteClientMap.t }.

(** A settled promise, or the completion of a synchronous call. *)
Inductive Settled (A : Type) :=
| Fulfilled (a : A)
| Rejected (e : Error).
Arguments Fulfilled {A} a.
Arguments Rejected {A} e.

Record Result (A : Type) := {
  outcome : Settled A;
  final : State;
  trace : list Event
}.
Arguments outcome {A} _.
Arguments final {A} _.
Arguments trace {A} _.

Definition Run (A : Type) : Type := State → Result A.

#[export] Instance Run_ret : MRet Run := λ A a st,
  {| outcome := Fulfilled a; final := st; trace := [] |}.

#[export] Instance Run_bind : MBind Run := λ A B f m st,
  let r := m st in
  match outcome r with
  | Fulfilled a =>
      let r' := f a (final r) in
      {| outcome := outcome r'; final := final r';
         trace := trace r ++ trace r' |}
  | Rejected e =>
      {| outcome := Rejected e; final := final r; trace := trace r |}
  end.

(** [throw e]. *)
Definition throw {A} (e : Error) : Run A := λ st,
  {| outcome := Rejected e; final := st; trace := [] |}.

(** One call on the outside world. *)
Definition emit (ev : Event) : Run unit := λ st,
  {| outcome := Fulfilled tt; final := st; trace := [ev] |}.

(** [await p] for an already settled promise, also the completion of a
    synchronous call that may throw. *)
Definition await {A} (p : Settled A) : Run A := λ st,
  {| outcome := p; final := st; trace := [] |}.

(** [try { m } catch (e) { ... }] and [promise.catch(...)]: the body's
    completion becomes a value. *)
Definition attempt {A} (m : Run A) : Run (Settled A) := λ st,
  let r := m st in
  {| outcome := Fulfilled (outcome r); final := final r; trace := trace r |}.

Definition get_noteClientMap : Run NoteClientMap.t := λ st,
  {| outcome := Fulfilled (noteClientMap st); final := st; trace := [] |}.

Definition set_noteClientMap (m : NoteClientMap.t) : Run unit := λ _,
  {| outcome := Fulfilled tt; final := {| noteClientMap := m |}; trace := [] |}.


(** ** The logger and the WebSocket *)

(** [logger.log], [logger.error] and [logger.debug] of a logger whose context
    is [context]; [debug] also takes the name of the calling function. *)
Definition logger_log (context message : string) : Run unit :=
  emit (EvLog LogLog context None message).

Definition logger_error (context message : string) : Run unit :=
  emit (EvLog LogError context None message).

Definition logger_debug (context message functionContext : string) : Run unit :=
  emit (EvLog LogDebug context (Some functionContext) message).

(** [client.close()]. *)
Definition ws_close (client : Client) : Run unit := emit (EvClose client).

(** ** The admission pattern [/^\/realtime\/(.+)$/]

    The fragment of regular expressions the gateway uses: literal characters
    and one capturing group [(.+)], between [^] and [$] (no flag is set, so
    [$] is the end of the input and [.] is any character but a line
    terminator).  [req.url] is a one-byte string, so the line terminators it
    can hold are line feed and carriage return. *)
Inductive RegExpItem :=
| Lit (c : ascii)
| DotPlusGroup.

Definition isLineTerminator (c : ascii) : bool :=
  bool_decide (c = "010"%char) || bool_decide (c = "013"%char).

(** [(.+)] followed by the rest of the pattern [k]: greedy, the longest run of
    characters first, giving characters back until the rest matches.  The
    result is the text of the group and the captures of the rest. *)
Fixpoint dotPlus (k : string → option (list string)) (s : string)
  : option (string * list string) :=
  match s with
  | "" => None
  | String c s' =>
      if isLineTerminator c then None
      else match dotPlus k s' with
           | Some (cap, caps) => Some (String c cap, caps)
           | None => match k s' with
                     | Some caps => Some (String c "", caps)
                     | None => None
                     end
           end
  end.

(** The captures of a match of the items against the whole of [s]. *)
Fixpoint matchItems (p : list RegExpItem) (s : string) : option (list string) :=
  match p with
  | [] => if bool_decide (s = "") then Some [] else None
  | Lit c :: p' =>
      match s with
      | String c' s' => if bool_decide (c = c') then matchItems p' s' else None
      | "" => None
      end
  | DotPlusGroup :: p' =>
      match dotPlus (matchItems p') s with
      | Some (cap, caps) => Some (cap :: caps)
      | None => None
      end
  end.

(** [/^p$/.exec(s)]: [null], or the array of the match and its captures. *)
Definition exec (p : list RegExpItem) (s : string) : option (list string) :=
  match matchItems p s with
  | Some caps => Some (s :: caps)
  | None => None
  end.

Definition realtimePath : list RegExpItem :=
  (Lit <$> list_ascii_of_string "/realtime/") ++ [DotPlusGroup].

(** ** The injected services *)

(** What the gateway is constructed with.  [UsersService] and
    [PermissionsService] are not among the sources and are taken as they are
    called: [getUserByUsername] returns a promise of a [User], [mayRead] a
    boolean.  [NotesService] is modelled below from its source, over the
    configured forbidden ids and the note and alias tables. *)
Record Services := {
  users_getUserByUsername : string → Settled User;
  permissions_mayRead : User → Note.t → bool;
  appConfig_forbiddenNoteIds : list string;
  noteRepository : list Note.t;
  aliasRepository : list Alias.t
}.

Definition userService_getUserByUsername (svc : Services) (username : string)
  : Run User :=
  emit (EvGetUserByUsername username);;
  await (users_getUserByUsername svc username).

Definition permissionsService_mayRead (svc : Services) (user : User)
    (note : Note.t) : Run bool :=
  emit (EvMayRead user note);;
  mret (permissions_mayRead svc user note).

(** *** [NotesService] *)

(** [checkNoteIdOrAlias]. *)
Definition checkNoteIdOrAlias (svc : Services) (noteIdOrAlias : string)
  : Run unit :=
  if bool_decide (noteIdOrAlias ∈ appConfig_forbiddenNoteIds svc) then
    logger_debug "NotesService"
      ("A note with the alias '" +:+ noteIdOrAlias +:+
       "' is forbidden by the administrator.")
      "checkNoteIdOrAlias";;
    throw (ForbiddenIdError
      ("A note with the alias '" +:+ noteIdOrAlias +:+
       "' is forbidden by the administrator."))
  else mret tt.

(** The [WHERE] clause of the query of [getNoteByIdOrAlias]:
    [note.publicId = :noteIdOrAlias OR note.id IN
     (SELECT alias.noteId FROM alias WHERE alias.name = :noteIdOrAlias)]. *)
Definition noteQuery_where (svc : Services) (noteIdOrAlias : string)
    (note : Note.t) : bool :=
  bool_decide (Note.publicId note = noteIdOrAlias)
  || bool_decide (Note.id note ∈
       Alias.noteId <$>
         filter (λ a, Alias.name a = noteIdOrAlias) (aliasRepository svc)).

(** [.getOne()]: the first row of the result, or [undefined]. *)
Definition noteQuery_getOne (svc : Services) (noteIdOrAlias : string)
  : option Note.t :=
  List.find (noteQuery_where svc noteIdOrAlias) (noteRepository svc).

(** [getNoteByIdOrAlias]. *)
Definition getNoteByIdOrAlias (svc : Services) (noteIdOrAlias : string)
  : Run Note.t :=
  emit (EvGetNoteByIdOrAlias noteIdOrAlias);;
  logger_debug "NotesService"
    ("Trying to find note '" +:+ noteIdOrAlias +:+ "'") "getNoteByIdOrAlias";;
  checkNoteIdOrAlias svc noteIdOrAlias;;
  let note := noteQuery_getOne svc noteIdOrAlias in
  match note with
  | None =>
      logger_debug "NotesService"
        ("Could not find note '" +:+ noteIdOrAlias +:+ "'")
        "getNoteByIdOrAlias";;
      throw (NotInDBError
        ("Note with id/alias '" +:+ noteIdOrAlias +:+ "' not found."))
  | Some note =>
      logger_debug "NotesService"
        ("Found note '" +:+ noteIdOrAlias +:+ "'") "getNoteByIdOrAlias";;
      mret note
  end.

(** ** [RealtimeEditorGateway] *)

(** The calls of the gateway on its [noteClientMap] field. *)
Definition noteClientMap_getNoteIdByClient (client : Client)
  : Run (option string) :=
  m ← get_noteClientMap;
  mret (NoteClientMap.getNoteIdByClient m client).

Definition noteClientMap_removeClient (client : Client) : Run unit :=
  m ← get_noteClientMap;
  set_noteClientMap (NoteClientMap.removeClient m client).

Definition noteClientMap_addClient (client : Client) (noteId : string)
  : Run unit :=
  m ← get_noteClientMap;
  match NoteClientMap.addClient m client noteId with
  | inl e => throw e
  | inr m' => set_noteClientMap m'
  end.

Definition gatewayContext : string := "RealtimeEditorGateway".

(** [handleDisconnect]. *)
Definition handleDisconnect (client : Client) : Run unit :=
  noteIdOfClient ← noteClientMap_getNoteIdByClient client;
  match noteIdOfClient with
  | None => mret tt
  | Some noteIdOfClient =>
      logger_log gatewayContext
        ("Client disconnected from note '" +:+ noteIdOfClient +:+ "'");;
      noteClientMap_removeClient client
  end.

(** [handleConnection]. *)
Definition handleConnection (svc : Services) (client : Client)
    (req : IncomingMessage) : Run unit :=
  let url := default "" (url req) in
  let pathMatching := exec realtimePath url in
  let denied : Run unit :=
    logger_log gatewayContext
      ("Realtime connection denied (invalid URL path): " +:+ url);;
    ws_close client in
  match pathMatching with
  | None => denied
  | Some pathMatching =>
      if (length pathMatching <? 2)%nat then denied
      else
        let noteIdFromPath := default "" (pathMatching !! 1) in
        user ← userService_getUserByUsername svc "hardcoded";
        note ← attempt (getNoteByIdOrAlias svc noteIdFromPath);
        match note with
        | Rejected e =>
            ws_close client;;
            logger_error gatewayContext
              ("Encountered an error: " +:+ String_of_error e)
        | Fulfilled note =>
            mayRead ← permissionsService_mayRead svc user note;
            if negb mayRead then
              ws_close client;;
              logger_log gatewayContext
                ("Reading note '" +:+ noteIdFromPath +:+ "' by user '" +:+
                 userName user +:+ "' denied!")
            else
              noteClientMap_addClient client (Note.id note);;
              logger_log gatewayContext
                ("Connection to note '" +:+ Note.id note +:+ "' by user '" +:+
                 userName user +:+ "'")
        end
  end.

(** [handleMessageSync], [handleMessageAwareness], [handleMessageHedgeDoc]:
    each logs and returns [Promise.resolve()]. *)
Definition handleMessageSync (client : Client) (data : Uint8Array) : Run unit :=
  logger_log gatewayContext "Received SYNC message";;
  await (Fulfilled tt).

Definition handleMessageAwareness (client : Client) (data : Uint8Array)
  : Run unit :=
  logger_log gatewayContext "Received AWARENESS message";;
  await (Fulfilled tt).

Definition handleMessageHedgeDoc (client : Client) (data : Uint8Array)
  : Run unit :=
  logger_log gatewayContext "Received HEDGEDOC message";;
  await (Fulfilled tt).

(** ** lib0 decoding

    lib0 is a dependency of the adapter; [createDecoder] and [readVarUint]
    are written after its [decoding] module.  Numbers are taken in [N]: the
    dispatcher compares the number read with 0, 1 and 100 only, which the
    rounding of a number above 2^53 never yields. *)

Module decoding.

(** lib0's [Decoder]: the array and the read position. *)
Record Decoder := { arr : Uint8Array; pos : nat }.

Definition createDecoder (uint8Array : Uint8Array) : Decoder :=
  {| arr := uint8Array; pos := 0 |}.

Definition BITS7 : N := 127.
Definition BIT8 : N := 128.
Definition MAX_SAFE_INTEGER : N := 2 ^ 53 - 1.

(** The loop of [readVarUint] over the bytes from the read position on:
    seven bits a byte, the least significant group first, the eighth bit set
    on every byte but the last. *)
Fixpoint readVarUint_loop (rest : Uint8Array) (pos : nat) (num mult : N)
  : Settled (N * nat) :=
  match rest with
  | [] => Rejected UnexpectedEndOfArray
  | b :: rest' =>
      let r := Byte.to_N b in
      let num := (num + N.land r BITS7 * mult)%N in
      let mult := (mult * 128)%N in
      if (r <? BIT8)%N then Fulfilled (num, S pos)
      else if (MAX_SAFE_INTEGER <? num)%N then Rejected IntegerOutOfRange
      else readVarUint_loop rest' (S pos) num mult
  end.

(** [readVarUint(decoder)]: the number read and the decoder moved past it, or
    the error thrown on a truncated or oversized number. *)
Definition readVarUint (decoder : Decoder) : Settled (N * Decoder) :=
  match readVarUint_loop (drop (pos decoder) (arr decoder)) (pos decoder) 0 1 with
  | Fulfilled (num, pos') => Fulfilled (num, {| arr := arr decoder; pos := pos' |})
  | Rejected e => Rejected e
  end.

End decoding.

(** ** [YjsAdapter] *)

(** The adapter's [MessageHandler]: the subscribed message name and the
    callback, which returns a promise. *)
Record MessageHandler := {
  message : string;
  callback : Uint8Array → Run unit
}.

(** The object literal [messageTypeMap]; a number that is not a key reads as
    [undefined]. *)
Definition messageTypeMap : gmap N string :=
  {[ 0%N := "messageSync"; 1%N := "messageAwareness"; 100%N := "messageHedgeDoc" ]}.

Definition adapterContext : string := "YjsAdapter".

(** [handler.message === messageTypeMap[messageType]], a string against a
    string or [undefined]. *)
Definition handles (messageType : N) (handler : MessageHandler) : bool :=
  bool_decide (Some (message handler) = messageTypeMap !! messageType).

(** [bindMessageHandlers(client, handlers, transform)] installs a listener
    for ['message'] on the client ([transform] is not used); this is one run
    of that listener on the frame [data].  A rejection of the result is an
    exception leaving the listener. *)
Definition bindMessageHandlers (client : Client)
    (handlers : list MessageHandler) (data : Uint8Array) : Run unit :=
  let uint8Data := data in
  let decoder := decoding.createDecoder uint8Data in
  read ← await (decoding.readVarUint decoder);
  let messageType := read.1 in
  let handler := List.find (handles messageType) handlers in
  match handler with
  | None =>
      logger_error adapterContext "Some message handlers were not defined!"
  | Some handler =>
      (* [.catch((error: Error) => { })]: the handler's body is empty *)
      _ ← attempt (callback handler uint8Data);
      mret tt
  end.

(** The handlers the framework collects from the gateway's
    [@SubscribeMessage] methods, bound to the client, in declaration order. *)
Definition gatewayHandlers (client : Client) : list MessageHandler :=
  [ {| message := "messageSync"; callback := handleMessageSync client |};
    {| message := "messageAwareness"; callback := handleMessageAwareness client |};
    {| message := "messageHedgeDoc"; callback := handleMessageHedgeDoc client |} ].

(** ** Vocabulary of the statements *)

(** No character of [s] is a line terminator. *)
Fixpoint noLineTerminator (s : string) : bool :=
  match s with
  | "" => true
  | String c s' => negb (isLineTerminator c) && noLineTerminator s'
  end.

(** [u] is [/realtime/<locator>] for a locator the pattern's [.+] accepts. *)
Definition admissionPath (u locator : string) : Prop :=
  u = "/realtime/" +:+ locator ∧ locator ≠ "" ∧ noLineTerminator locator = true.

(** The request target a handler sees: [req.url ?? '']. *)
Definition requestPath (req : IncomingMessage) : string := default "" (url req).

(** A frame written to some WebSocket. *)
Definition isSend (ev : Event) : bool :=
  match ev with EvSend _ _ => true | _ => false end.

(** A call on the storage side of [NotesService]. *)
Definition isStorage (ev : Event) : bool :=
  match ev with EvGetNoteContent _ | EvUpdateNote _ _ => true | _ => false end.

(** The state in which exactly the given connections are attached, built by
    [addClient] from the empty registry (a refused attach is skipped). *)
Definition attachAll (l : list (nat * string)) : State :=
  {| noteClientMap :=
       foldl (λ m cn, match NoteClientMap.addClient m cn.1 cn.2 with
                      | inr m' => m'
                      | inl _ => m
                      end) NoteClientMap.empty l |}.

(** The head of the trace of every [getNoteByIdOrAlias x]: the call and its
    first debug line. *)
Definition lookupAnnounced (x : string) : list Event :=
  [ EvGetNoteByIdOrAlias x;
    EvLog LogDebug "NotesService" (Some "getNoteByIdOrAlias")
      ("Trying to find note '" +:+ x +:+ "'") ].

Definition forbiddenMessage (x : string) : string :=
  "A note with the alias '" +:+ x +:+ "' is forbidden by the administrator.".

Definition notFoundMessage (x : string) : string :=
  "Note with id/alias '" +:+ x +:+ "' not found.".

(** The runs of [getNoteByIdOrAlias x]: how the promise settles and the trace,
    one constructor for each way through the method. *)
Inductive lookupRun (svc : Services) (x : string)
  : Settled Note.t → list Event → Prop :=
| lookup_forbidden :
    x ∈ appConfig_forbiddenNoteIds svc →
    lookupRun svc x (Rejected (ForbiddenIdError (forbiddenMessage x)))
      (lookupAnnounced x ++
       [EvLog LogDebug "NotesService" (Some "checkNoteIdOrAlias") (forbiddenMessage x)])
| lookup_missing :
    x ∉ appConfig_forbiddenNoteIds svc →
    noteQuery_getOne svc x = None →
    lookupRun svc x (Rejected (NotInDBError (notFoundMessage x)))
      (lookupAnnounced x ++
       [EvLog LogDebug "NotesService" (Some "getNoteByIdOrAlias")
          ("Could not find note '" +:+ x +:+ "'")])
| lookup_found note :
    x ∉ appConfig_forbiddenNoteIds svc →
    noteQuery_getOne svc x = Some note →
    lookupRun svc x (Fulfilled note)
      (lookupAnnounced x ++
       [EvLog LogDebug "NotesService" (Some "getNoteByIdOrAlias")
          ("Found note '" +:+ x +:+ "'")]).

(** The runs of [handleConnection], one constructor for each way through the
    handler, with the state and the trace it leaves. *)
Inductive connectionRun (svc : Services) (client : Client)
    (req : IncomingMessage) (st : State) : Result unit → Prop :=
| run_invalidPath :
    exec realtimePath (requestPath req) = None →
    connectionRun svc client req st
      {| outcome := Fulfilled tt; final := st;
         trace := [ EvLog LogLog gatewayContext None
                      ("Realtime connection denied (invalid URL path): " +:+
                       requestPath req);
                    EvClose client ] |}
| run_noIdentity locator e :
    admissionPath (requestPath req) locator →
    users_getUserByUsername svc "hardcoded" = Rejected e →
    connectionRun svc client req st
      {| outcome := Rejected e; final := st;
         trace := [EvGetUserByUsername "hardcoded"] |}
| run_lookupFailed locator user e t :
    admissionPath (requestPath req) locator →
    users_getUserByUsername svc "hardcoded" = Fulfilled user →
    lookupRun svc locator (Rejected e) t →
    connectionRun svc client req st
      {| outcome := Fulfilled tt; final := st;
         trace := EvGetUserByUsername "hardcoded" :: t ++
                  [ EvClose client;
                    EvLog LogError gatewayContext None
                      ("Encountered an error: " +:+ String_of_error e) ] |}
| run_denied locator user note t :
    admissionPath (requestPath req) locator →
    users_getUserByUsername svc "hardcoded" = Fulfilled user →
    lookupRun svc locator (Fulfilled note) t →
    permissions_mayRead svc user note = false →
    connectionRun svc client req st
      {| outcome := Fulfilled tt; final := st;
         trace := EvGetUserByUsername "hardcoded" :: t ++
                  [ EvMayRead user note;
                    EvClose client;
                    EvLog LogLog gatewayContext None
                      ("Reading note '" +:+ locator +:+ "' by user '" +:+
                       userName user +:+ "' denied!") ] |}
| run_attachRefused locator user note t e :
    admissionPath (requestPath req) locator →
    users_getUserByUsername svc "hardcoded" = Fulfilled user →
    lookupRun svc locator (Fulfilled note) t →
    permissions_mayRead svc user note = true →
    NoteClientMap.addClient (noteClientMap st) client (Note.id note) = inl e →
    connectionRun svc client req st
      {| outcome := Rejected e; final := st;
         trace := EvGetUserByUsername "hardcoded" :: t ++ [EvMayRead user note] |}
| run_attached locator user note t m' :
    admissionPath (requestPath req) locator →
    users_getUserByUsername svc "hardcoded" = Fulfilled user →
    lookupRun svc locator (Fulfilled note) t →
    permissions_mayRead svc user note = true →
    NoteClientMap.addClient (noteClientMap st) client (Note.id note) = inr m' →
    connectionRun svc client req st
      {| outcome := Fulfilled tt; final := {| noteClientMap := m' |};
         trace := EvGetUserByUsername "hardcoded" :: t ++
                  [ EvMayRead user note;
                    EvLog LogLog gatewayContext None
                      ("Connection to note '" +:+ Note.id note +:+
                       "' by user '" +:+ userName user +:+ "'") ] |}.

(** Sample data for the closed instances below: a user service that knows
    every name, a permission check that grants the note [abc] only, one
    forbidden id, two notes and one alias. *)
Definition sampleServices : Services :=
  {| users_getUserByUsername := λ u, Fulfilled {| userName := u |};
     permissions_mayRead := λ _ n, bool_decide (Note.publicId n = "abc");
     appConfig_forbiddenNoteIds := ["forbidden"];
     noteRepository := [ {| Note.id := "id1"; Note.publicId := "abc" |};
                         {| Note.id := "id2"; Note.publicId := "secret" |} ];
     aliasRepository := [ {| Alias.name := "a/b"; Alias.noteId := "id1" |} ] |}.

Definition sampleRequest (path : string) : IncomingMessage :=
  {| url := Some path; headers := [] |}.

(** Two requests for the same path that differ in who sends them. *)
Definition sampleRequestFrom (who path : string) : IncomingMessage :=
  {| url := Some path; headers := [("cookie", "session=" +:+ who)] |}.


(** The connections a trace closes, in order. *)
Definition closedClients (t : list Event) : list nat :=
  omap (λ ev, match ev with EvClose c => Some c | _ => None end) t.

(** One of the three names of [messageTypeMap]. *)
Definition mappedMessage (handler : MessageHandler) : bool :=
  bool_decide (message handler ∈ ["messageSync"; "messageAwareness"; "messageHedgeDoc"]).

(** ** [NotesService], the methods on a loaded note

    The entity classes are not among the sources; an entity is taken with
    the fields the methods below read and write, and the factories
    ([Note.create], [Revision.create], [Alias.create], [HistoryEntry.create])
    and the repositories as parameters.  Within each method every read of a
    repository comes before its writes. *)

Module AliasEntity.
Record t := { id : string; name : string; primary : bool }.
Definition set_primary (a : t) (p : bool) : t :=
  {| id := id a; name := name a; primary := p |}.
End AliasEntity.

(** An [Edit] as [calculateUpdateUser] reads it: [updatedAt.getTime()] and
    [author.user], which may be [null]. *)
Record Edit := { updatedAt : Z; author_user : option User }.

Module Revision.
Record t := {
  content : string;
  patch : string;
  edits : option (list Edit);
  createdAt : Z
}.
End Revision.

(** A tag, a group, and the permission entries of a note. *)
Record Tag := { tagName : string }.
Record Group := { groupName : string }.
Record NoteUserPermission := { permittedUser : User; userCanEdit : bool }.
Record NoteGroupPermission := { permittedGroup : Group; groupCanEdit : bool }.

Record HistoryEntry := { historyUser : User }.

Module NoteEntity.
Record t := {
  row : Note.t;
  aliases : list AliasEntity.t;
  owner : option User;
  revisions : list Revision.t;
  historyEntries : list HistoryEntry;
  userPermissions : list NoteUserPermission;
  groupPermissions : list NoteGroupPermission;
  tags : list Tag;
  title : option string;
  description : option string;
  viewCount : N
}.
Definition set_aliases (n : t) (l : list AliasEntity.t) : t :=
  {| row := row n; aliases := l; owner := owner n; revisions := revisions n;
     historyEntries := historyEntries n; userPermissions := userPermissions n;
     groupPermissions := groupPermissions n; tags := tags n; title := title n;
     description := description n; viewCount := viewCount n |}.
Definition set_owner (n : t) (o : option User) : t :=
  {| row := row n; aliases := aliases n; owner := o; revisions := revisions n;
     historyEntries := historyEntries n; userPermissions := userPermissions n;
     groupPermissions := groupPermissions n; tags := tags n; title := title n;
     description := description n; viewCount := viewCount n |}.
Definition set_revisions (n : t) (l : list Revision.t) : t :=
  {| row := row n; aliases := aliases n; owner := owner n; revisions := l;
     historyEntries := historyEntries n; userPermissions := userPermissions n;
     groupPermissions := groupPermissions n; tags := tags n; title := title n;
     description := description n; viewCount := viewCount n |}.
Definition set_historyEntries (n : t) (l : list HistoryEntry) : t :=
  {| row := row n; aliases := aliases n; owner := owner n;
     revisions := revisions n; historyEntries := l;
     userPermissions := userPermissions n;
     groupPermissions := groupPermissions n; tags := tags n; title := title n;
     description := description n; viewCount := viewCount n |}.
Definition set_userPermissions (n : t) (l : list NoteUserPermission) : t :=
  {| row := row n; aliases := aliases n; owner := owner n;
     revisions := revisions n; historyEntries := historyEntries n;
     userPermissions := l; groupPermissions := groupPermissions n;
     tags := tags n; title := title n; description := description n;
     viewCount := viewCount n |}.
Definition set_groupPermissions (n : t) (l : list NoteGroupPermission) : t :=
  {| row := row n; aliases := aliases n; owner := owner n;
     revisions := revisions n; historyEntries := historyEntries n;
     userPermissions := userPermissions n; groupPermissions := l;
     tags := tags n; title := title n; description := description n;
     viewCount := viewCount n |}.
End NoteEntity.

(** What a method of the service can throw: an error of the first part, an
    [AlreadyInDBError], a [PermissionsUpdateInconsistentError], or the
    [TypeError] of a property read on [undefined]. *)
Inductive Thrown :=
| ThrownError (e : Error)
| AlreadyInDBError (msg : string)
| PermissionsUpdateInconsistentError (msg : string)
| TypeError.

Inductive Completion (A : Type) :=
| Returned (a : A)
| Threw (e : Thrown).
Arguments Returned {A} a.
Arguments Threw {A} e.

(** The factories and the repositories behind the service. *)
Record Persistence := {
  Note_create : NoteEntity.t;
  Revision_create : string → string → Revision.t;
  Alias_create : string → option bool → AliasEntity.t;
  HistoryEntry_create : User → HistoryEntry;
  noteRepository_save : NoteEntity.t → Completion NoteEntity.t;
  aliasRepository_findOneByName : string → option AliasEntity.t;
  aliasRepository_findOneById : string → option AliasEntity.t;
  aliasRepository_save : AliasEntity.t → Completion AliasEntity.t;
  revisionsService_getLatestRevision : string → Completion (option Revision.t);
  revisionsService_getFirstRevision : string → Completion (option Revision.t);
  userRepository_authorsOfNote : string → Completion (list User);
  NoteUserPermission_create : User → bool → NoteUserPermission;
  NoteGroupPermission_create : Group → bool → NoteGroupPermission;
  groupsService_getGroupByName : string → Completion Group
}.

(** The calls a method makes: those of the first part ([Traced], here the
    debug lines and the document lookup) and those on the repositories and on
    [RevisionsService]. *)
Inductive Call :=
| Traced (ev : Event)
| NoteRepositorySave (note : NoteEntity.t)
| AliasRepositoryFindOneByName (name : string)
| AliasRepositoryFindOneById (id : string)
| AliasRepositorySave (alias : AliasEntity.t)
| RevisionsGetLatestRevision (noteId : string)
| RevisionsGetFirstRevision (noteId : string)
| UserRepositoryAuthorsOfNote (noteId : string)
| GroupsGetGroupByName (name : string).

Record Reply (A : Type) := {
  completion : Completion A;
  gateway : State;
  calls : list Call
}.
Arguments completion {A} _.
Arguments gateway {A} _.
Arguments calls {A} _.

Definition Svc (A : Type) : Type := State → Reply A.

#[export] Instance Svc_ret : MRet Svc := λ A a st,
  {| completion := Returned a; gateway := st; calls := [] |}.

#[export] Instance Svc_bind : MBind Svc := λ A B f m st,
  let r := m st in
  match completion r with
  | Returned a =>
      let r' := f a (gateway r) in
      {| completion := completion r'; gateway := gateway r';
         calls := calls r ++ calls r' |}
  | Threw e =>
      {| completion := Threw e; gateway := gateway r; calls := calls r |}
  end.

Definition svc_throw {A} (e : Thrown) : Svc A := λ st,
  {| completion := Threw e; gateway := st; calls := [] |}.

(** One call on a repository, with the completion it gives. *)
Definition svc_call {A} (c : Call) (p : Completion A) : Svc A := λ st,
  {| completion := p; gateway := st; calls := [c] |}.

(** [try { m } catch (e) { ... }]. *)
Definition svc_attempt {A} (m : Svc A) : Svc (Completion A) := λ st,
  let r := m st in
  {| completion := Returned (completion r); gateway := gateway r; calls := calls r |}.

(** A method of the first part called from here. *)
Definition fromRun {A} (m : Run A) : Svc A := λ st,
  let r := m st in
  {| completion := match outcome r with
                   | Fulfilled a => Returned a
                   | Rejected e => Threw (ThrownError e)
                   end;
     gateway := final r;
     calls := Traced <$> trace r |}.

Definition svc_debug (message functionContext : string) : Svc unit :=
  fromRun (logger_debug "NotesService" message functionContext).

Definition save_note (db : Persistence) (note : NoteEntity.t) : Svc NoteEntity.t :=
  svc_call (NoteRepositorySave note) (noteRepository_save db note).

Definition save_alias (db : Persistence) (alias : AliasEntity.t)
  : Svc AliasEntity.t :=
  svc_call (AliasRepositorySave alias) (aliasRepository_save db alias).

(** The string of an optional parameter when it is truthy: given and not
    empty. *)
Definition truthy (s : option string) : option string :=
  match s with
  | Some a => if bool_decide (a = "") then None else Some a
  | None => None
  end.

Definition alreadyExistsMessage (alias : string) : string :=
  "A note with the alias '" +:+ alias +:+ "' already exists.".

(** [createNote]. *)
Definition createNote (svc : Services) (db : Persistence) (noteContent : string)
    (alias : option string) (owner : option User) : Svc NoteEntity.t :=
  let newNote := Note_create db in
  let newNote :=
    NoteEntity.set_revisions newNote [Revision_create db noteContent noteContent] in
  newNote ←
    match truthy alias with
    | Some alias =>
        fromRun (checkNoteIdOrAlias svc alias);;
        mret (NoteEntity.set_aliases newNote [Alias_create db alias (Some true)])
    | None => mret (NoteEntity.set_aliases newNote [])
    end;
  let newNote :=
    match owner with
    | Some owner =>
        NoteEntity.set_owner
          (NoteEntity.set_historyEntries newNote [HistoryEntry_create db owner])
          (Some owner)
    | None => newNote
    end in
  saved ← svc_attempt (save_note db newNote);
  match saved with
  | Returned note => mret note
  | Threw e =>
      match truthy alias with
      | Some alias =>
          svc_debug (alreadyExistsMessage alias) "createNote";;
          svc_throw (AlreadyInDBError (alreadyExistsMessage alias))
      | None => svc_throw e
      end
  end.

(** [getLatestRevision]. *)
Definition getLatestRevision (db : Persistence) (note : NoteEntity.t)
  : Svc (option Revision.t) :=
  svc_call (RevisionsGetLatestRevision (Note.id (NoteEntity.row note)))
           (revisionsService_getLatestRevision db (Note.id (NoteEntity.row note))).

(** [Array.prototype.sort] with a comparison function, as a stable insertion
    sort: [x] goes before [y] when [compareFn x y <= 0]. *)
Fixpoint Array_sort_insert {A} (compareFn : A → A → Z) (x : A) (l : list A)
  : list A :=
  match l with
  | [] => [x]
  | y :: l' =>
      if (compareFn x y <=? 0)%Z then x :: y :: l'
      else y :: Array_sort_insert compareFn x l'
  end.

Definition Array_sort {A} (compareFn : A → A → Z) (l : list A) : list A :=
  foldr (Array_sort_insert compareFn) [] l.

(** [calculateUpdateUser]. *)
Definition calculateUpdateUser (db : Persistence) (note : NoteEntity.t)
  : Svc (option User) :=
  lastRevision ← getLatestRevision db note;
  match lastRevision with
  | Some lastRevision =>
      match Revision.edits lastRevision with
      | Some edits =>
          match Array_sort (λ a b, (updatedAt b - updatedAt a)%Z) edits with
          | first :: _ => mret (author_user first)
          | [] => svc_throw TypeError
          end
      | None => mret (NoteEntity.owner note)
      end
  | None => mret (NoteEntity.owner note)
  end.

Definition alreadyUsedMessage (alias : string) : string :=
  "The alias '" +:+ alias +:+ "' is already used.".

(** [addAlias]. *)
Definition addAlias (svc : Services) (db : Persistence) (note : NoteEntity.t)
    (alias : string) : Svc NoteEntity.t :=
  fromRun (checkNoteIdOrAlias svc alias);;
  foundAlias ← svc_call (AliasRepositoryFindOneByName alias)
                        (Returned (aliasRepository_findOneByName db alias));
  match foundAlias with
  | Some _ =>
      svc_debug (alreadyUsedMessage alias) "addAlias";;
      svc_throw (AlreadyInDBError (alreadyUsedMessage alias))
  | None =>
      let note :=
        NoteEntity.set_aliases note
          (NoteEntity.aliases note ++ [Alias_create db alias None]) in
      save_note db note
  end.

Definition notUsedMessage (alias : string) : string :=
  "The alias '" +:+ alias +:+ "' is not used by this note.".

(** The loop of [makeAliasPrimary]: whether an alias of that name was seen,
    the id of the last primary alias and the id of the last alias of that
    name. *)
Definition makeAliasPrimary_loop (aliases : list AliasEntity.t) (alias : string)
  : bool * string * string :=
  foldl (λ '(newPrimaryFound, oldPrimaryId, newPrimaryId) anAlias,
           let oldPrimaryId :=
             if AliasEntity.primary anAlias then AliasEntity.id anAlias
             else oldPrimaryId in
           if bool_decide (AliasEntity.name anAlias = alias)
           then (true, oldPrimaryId, AliasEntity.id anAlias)
           else (newPrimaryFound, oldPrimaryId, newPrimaryId))
        (false, "", "") aliases.

(** [makeAliasPrimary]; the note it returns is the one
    [getNoteByIdOrAlias] gives for the public id. *)
Definition makeAliasPrimary (svc : Services) (db : Persistence)
    (note : NoteEntity.t) (alias : string) : Svc Note.t :=
  let '(newPrimaryFound, oldPrimaryId, newPrimaryId) :=
    makeAliasPrimary_loop (NoteEntity.aliases note) alias in
  if negb newPrimaryFound then
    svc_debug (notUsedMessage alias) "makeAliasPrimary";;
    svc_throw (ThrownError (NotInDBError (notUsedMessage alias)))
  else
    oldPrimary ← svc_call (AliasRepositoryFindOneById oldPrimaryId)
                          (Returned (aliasRepository_findOneById db oldPrimaryId));
    newPrimary ← svc_call (AliasRepositoryFindOneById newPrimaryId)
                          (Returned (aliasRepository_findOneById db newPrimaryId));
    match oldPrimary, newPrimary with
    | Some oldPrimary, Some newPrimary =>
        let oldPrimary := AliasEntity.set_primary oldPrimary false in
        let newPrimary := AliasEntity.set_primary newPrimary true in
        save_alias db oldPrimary;;
        save_alias db newPrimary;;
        fromRun (getNoteByIdOrAlias svc (Note.publicId (NoteEntity.row note)))
    | _, _ => svc_throw (ThrownError (OtherError "This should not happen!"))
    end.

Definition notRemovableMessage (alias : string) : string :=
  "The alias '" +:+ alias +:+
  "' is not used by this note or is the primary alias, that can't be removed.".

(** The test of the filter of [removeAlias]. *)
Definition keptByRemoveAlias (alias : string) (anAlias : AliasEntity.t) : bool :=
  negb (bool_decide (AliasEntity.name anAlias = alias))
  || (bool_decide (AliasEntity.name anAlias = alias) && AliasEntity.primary anAlias).

(** [removeAlias]. *)
Definition removeAlias (db : Persistence) (note : NoteEntity.t) (alias : string)
  : Svc NoteEntity.t :=
  let filteredAliases :=
    List.filter (keptByRemoveAlias alias) (NoteEntity.aliases note) in
  if (length (NoteEntity.aliases note) =? length filteredAliases)%nat then
    svc_debug (notRemovableMessage alias) "removeAlias";;
    svc_throw (ThrownError (NotInDBError (notRemovableMessage alias)))
  else
    let note := NoteEntity.set_aliases note filteredAliases in
    save_note db note.

(** The reply of [removeAlias] when it removes nothing. *)
Definition removeAlias_refusal (alias : string) (st : State) : Reply NoteEntity.t :=
  {| completion := Threw (ThrownError (NotInDBError (notRemovableMessage alias)));
     gateway := st;
     calls := [ Traced (EvLog LogDebug "NotesService" (Some "removeAlias")
                          (notRemovableMessage alias)) ] |}.

(** [getNoteContent]: the content of the latest revision; a property read
    on [undefined] is a [TypeError]. *)
Definition getNoteContent (db : Persistence) (note : NoteEntity.t) : Svc string :=
  latest ← getLatestRevision db note;
  match latest with
  | Some revision => mret (Revision.content revision)
  | None => svc_throw TypeError
  end.

(** [getFirstRevision]. *)
Definition getFirstRevision (db : Persistence) (note : NoteEntity.t)
  : Svc (option Revision.t) :=
  svc_call (RevisionsGetFirstRevision (Note.id (NoteEntity.row note)))
           (revisionsService_getFirstRevision db (Note.id (NoteEntity.row note))).

(** [getAuthorUsers]: one query on the user repository, for [note.id]. *)
Definition getAuthorUsers (db : Persistence) (note : NoteEntity.t)
  : Svc (list User) :=
  svc_call (UserRepositoryAuthorsOfNote (Note.id (NoteEntity.row note)))
           (userRepository_authorsOfNote db (Note.id (NoteEntity.row note))).

(** [UsersService.toUserDto] and [GroupsService.toGroupDto], which the service
    is given; the DTOs below are parametric in what the two produce. *)
Record Mappers (U G : Type) := {
  usersService_toUserDto : User → U;
  groupsService_toGroupDto : Group → G
}.
Arguments usersService_toUserDto {U G} _ _.
Arguments groupsService_toGroupDto {U G} _ _.

Module NoteUserPermissionEntryDto.
Record t (U : Type) := { user : U; canEdit : bool }.
Arguments user {U} _.
Arguments canEdit {U} _.
End NoteUserPermissionEntryDto.

Module NoteGroupPermissionEntryDto.
Record t (G : Type) := { group : G; canEdit : bool }.
Arguments group {G} _.
Arguments canEdit {G} _.
End NoteGroupPermissionEntryDto.

Module NotePermissionsDto.
Record t (U G : Type) := {
  owner : option U;
  sharedToUsers : list (NoteUserPermissionEntryDto.t U);
  sharedToGroups : list (NoteGroupPermissionEntryDto.t G)
}.
Arguments owner {U G} _.
Arguments sharedToUsers {U G} _.
Arguments sharedToGroups {U G} _.
End NotePermissionsDto.

Module NoteMetadataDto.
Record t (U G : Type) := {
  id : string;
  aliases : list string;
  primaryAlias : option string;
  title : string;
  createTime : Z;
  description : string;
  editedBy : list string;
  permissions : NotePermissionsDto.t U G;
  tags : list string;
  updateTime : Z;
  updateUser : option U;
  viewCount : N
}.
Arguments id {U G} _.
Arguments aliases {U G} _.
Arguments primaryAlias {U G} _.
Arguments title {U G} _.
Arguments createTime {U G} _.
Arguments description {U G} _.
Arguments editedBy {U G} _.
Arguments permissions {U G} _.
Arguments tags {U G} _.
Arguments updateTime {U G} _.
Arguments updateUser {U G} _.
Arguments viewCount {U G} _.
End NoteMetadataDto.

Module NoteDto.
Record t (U G : Type) := {
  content : string;
  metadata : NoteMetadataDto.t U G;
  editedByAtPosition : list string
}.
Arguments content {U G} _.
Arguments metadata {U G} _.
Arguments editedByAtPosition {U G} _.
End NoteDto.

(** [toTagList]. *)
Definition toTagList (note : NoteEntity.t) : list string :=
  tagName <$> NoteEntity.tags note.

(** [toNotePermissionsDto]. *)
Definition toNotePermissionsDto {U G} (to : Mappers U G) (note : NoteEntity.t)
  : NotePermissionsDto.t U G :=
  {| NotePermissionsDto.owner :=
       match NoteEntity.owner note with
       | Some owner => Some (usersService_toUserDto to owner)
       | None => None
       end;
     NotePermissionsDto.sharedToUsers :=
       (λ noteUserPermission,
          {| NoteUserPermissionEntryDto.user :=
               usersService_toUserDto to (permittedUser noteUserPermission);
             NoteUserPermissionEntryDto.canEdit := userCanEdit noteUserPermission |})
       <$> NoteEntity.userPermissions note;
     NotePermissionsDto.sharedToGroups :=
       (λ noteGroupPermission,
          {| NoteGroupPermissionEntryDto.group :=
               groupsService_toGroupDto to (permittedGroup noteGroupPermission);
             NoteGroupPermissionEntryDto.canEdit := groupCanEdit noteGroupPermission |})
       <$> NoteEntity.groupPermissions note |}.

(** [toNoteMetadataDto]: the properties of the object literal are evaluated in
    the order they are written, so the awaits and the property reads that can
    throw come in that order. *)
Definition toNoteMetadataDto {U G} (db : Persistence) (to : Mappers U G)
    (note : NoteEntity.t) : Svc (NoteMetadataDto.t U G) :=
  updateUser ← calculateUpdateUser db note;
  let id := Note.publicId (NoteEntity.row note) in
  let aliases := AliasEntity.name <$> NoteEntity.aliases note in
  primaryAlias ←
    (if negb (length (NoteEntity.aliases note) =? 0)%nat then
       match List.filter AliasEntity.primary (NoteEntity.aliases note) with
       | first :: _ => mret (Some (AliasEntity.name first))
       | [] => svc_throw TypeError
       end
     else mret None);
  let title := default "" (NoteEntity.title note) in
  firstRevision ← getFirstRevision db note;
  createTime ←
    match firstRevision with
    | Some revision => mret (Revision.createdAt revision)
    | None => svc_throw TypeError
    end;
  let description := default "" (NoteEntity.description note) in
  authors ← getAuthorUsers db note;
  let editedBy := userName <$> authors in
  let permissions := toNotePermissionsDto to note in
  let tags := toTagList note in
  latestRevision ← getLatestRevision db note;
  updateTime ←
    match latestRevision with
    | Some revision => mret (Revision.createdAt revision)
    | None => svc_throw TypeError
    end;
  mret {| NoteMetadataDto.id := id;
          NoteMetadataDto.aliases := aliases;
          NoteMetadataDto.primaryAlias := primaryAlias;
          NoteMetadataDto.title := title;
          NoteMetadataDto.createTime := createTime;
          NoteMetadataDto.description := description;
          NoteMetadataDto.editedBy := editedBy;
          NoteMetadataDto.permissions := permissions;
          NoteMetadataDto.tags := tags;
          NoteMetadataDto.updateTime := updateTime;
          NoteMetadataDto.updateUser :=
            match updateUser with
            | Some updateUser => Some (usersService_toUserDto to updateUser)
            | None => None
            end;
          NoteMetadataDto.viewCount := NoteEntity.viewCount note |}.

(** [toNoteDto]. *)
Definition toNoteDto {U G} (db : Persistence) (to : Mappers U G)
    (note : NoteEntity.t) : Svc (NoteDto.t U G) :=
  content ← getNoteContent db note;
  metadata ← toNoteMetadataDto db to note;
  mret {| NoteDto.content := content;
          NoteDto.metadata := metadata;
          NoteDto.editedByAtPosition := [] |}.

(** The mappers of the closed instances: a user and a group go to their
    names. *)
Definition sampleMappers : Mappers string string :=
  {| usersService_toUserDto := userName; groupsService_toGroupDto := groupName |}.

(** [updateNote]: one more revision, the permissions emptied, and the note
    saved. *)
Definition updateNote (db : Persistence) (note : NoteEntity.t)
    (noteContent : string) : Svc NoteEntity.t :=
  let revisions := NoteEntity.revisions note in
  let revisions :=
    (revisions ++ [Revision_create db noteContent noteContent])%list in
  let note := NoteEntity.set_revisions note revisions in
  let note := NoteEntity.set_userPermissions note [] in
  let note := NoteEntity.set_groupPermissions note [] in
  save_note db note.

(** The permissions a client asks for. *)
Module NoteUserPermissionUpdateDto.
Record t := { username : string; canEdit : bool }.
End NoteUserPermissionUpdateDto.

Module NoteGroupPermissionUpdateDto.
Record t := { groupname : string; canEdit : bool }.
End NoteGroupPermissionUpdateDto.

Module NotePermissionsUpdateDto.
Record t := {
  sharedToUsers : list NoteUserPermissionUpdateDto.t;
  sharedToGroups : list NoteGroupPermissionUpdateDto.t
}.
End NotePermissionsUpdateDto.

Definition inconsistentMessage : string :=
  "The PermissionUpdate requested specifies the same user or group multiple times.".

(** The first loop of [updateNotePermissions]: one lookup and one push for
    each requested user, in order; a lookup that rejects ends the method. *)
Fixpoint createUserPermissions (svc : Services) (db : Persistence)
    (sharedToUsers : list NoteUserPermissionUpdateDto.t) (note : NoteEntity.t)
  : Svc NoteEntity.t :=
  match sharedToUsers with
  | [] => mret note
  | newUserPermission :: rest =>
      user ← fromRun (userService_getUserByUsername svc
                        (NoteUserPermissionUpdateDto.username newUserPermission));
      let createdPermission :=
        NoteUserPermission_create db user
          (NoteUserPermissionUpdateDto.canEdit newUserPermission) in
      createUserPermissions svc db rest
        (NoteEntity.set_userPermissions note
           (NoteEntity.userPermissions note ++ [createdPermission])%list)
  end.

(** The second loop, for the groups. *)
Fixpoint createGroupPermissions (db : Persistence)
    (sharedToGroups : list NoteGroupPermissionUpdateDto.t) (note : NoteEntity.t)
  : Svc NoteEntity.t :=
  match sharedToGroups with
  | [] => mret note
  | newGroupPermission :: rest =>
      group ← svc_call
                (GroupsGetGroupByName
                   (NoteGroupPermissionUpdateDto.groupname newGroupPermission))
                (groupsService_getGroupByName db
                   (NoteGroupPermissionUpdateDto.groupname newGroupPermission));
      let createdPermission :=
        NoteGroupPermission_create db group
          (NoteGroupPermissionUpdateDto.canEdit newGroupPermission) in
      createGroupPermissions db rest
        (NoteEntity.set_groupPermissions note
           (NoteEntity.groupPermissions note ++ [createdPermission])%list)
  end.

(** [updateNotePermissions].  [checkArrayForDuplicates] is a utility the
    service imports; it is a parameter here.  The back reference
    [createdPermission.note] has no counterpart, the entities holding no
    note. *)
Definition updateNotePermissions (checkArrayForDuplicates : list string → bool)
    (svc : Services) (db : Persistence) (note : NoteEntity.t)
    (newPermissions : NotePermissionsUpdateDto.t) : Svc NoteEntity.t :=
  let users :=
    NoteUserPermissionUpdateDto.username
      <$> NotePermissionsUpdateDto.sharedToUsers newPermissions in
  let groups :=
    NoteGroupPermissionUpdateDto.groupname
      <$> NotePermissionsUpdateDto.sharedToGroups newPermissions in
  if checkArrayForDuplicates users || checkArrayForDuplicates groups then
    svc_debug inconsistentMessage "updateNotePermissions";;
    svc_throw (PermissionsUpdateInconsistentError inconsistentMessage)
  else
    let note := NoteEntity.set_userPermissions note [] in
    let note := NoteEntity.set_groupPermissions note [] in
    note ← createUserPermissions svc db
              (NotePermissionsUpdateDto.sharedToUsers newPermissions) note;
    note ← createGroupPermissions db
              (NotePermissionsUpdateDto.sharedToGroups newPermissions) note;
    save_note db note.

(** The lookups of the first loop, as calls. *)
Definition userLookups (l : list NoteUserPermissionUpdateDto.t) : list Call :=
  (λ dto, Traced (EvGetUserByUsername (NoteUserPermissionUpdateDto.username dto))) <$> l.

(** The lookups of the second loop, as calls. *)
Definition groupLookups (l : list NoteGroupPermissionUpdateDto.t) : list Call :=
  (λ dto, GroupsGetGroupByName (NoteGroupPermissionUpdateDto.groupname dto)) <$> l.

(** A duplicate check for the closed instances. *)
Definition sampleCheckArrayForDuplicates (l : list string) : bool :=
  negb (bool_decide (NoDup l)).

(** A request that shares a note with one user and one group. *)
Definition samplePermissionsUpdate : NotePermissionsUpdateDto.t :=
  {| NotePermissionsUpdateDto.sharedToUsers :=
       [ {| NoteUserPermissionUpdateDto.username := "hardcoded";
            NoteUserPermissionUpdateDto.canEdit := true |} ];
     NotePermissionsUpdateDto.sharedToGroups :=
       [ {| NoteGroupPermissionUpdateDto.groupname := "everyone";
            NoteGroupPermissionUpdateDto.canEdit := false |} ] |}.

(** The calls of a reply that write to a repository. *)
Definition isWrite (c : Call) : bool :=
  match c with
  | NoteRepositorySave _ | AliasRepositorySave _ => true
  | _ => false
  end.

(** The calls of a reply on a repository or on [RevisionsService]. *)
Definition isRepositoryCall (c : Call) : bool :=
  match c with Traced _ => false | _ => true end.

(** Sample persistence for the closed instances: factories that fill in the
    fields they are given, a repository that holds two alias rows and saves
    whatever it is handed, and no revision. *)
Definition sampleAliasRows : list AliasEntity.t :=
  [ {| AliasEntity.id := "a1"; AliasEntity.name := "first"; AliasEntity.primary := true |};
    {| AliasEntity.id := "a2"; AliasEntity.name := "second"; AliasEntity.primary := false |} ].

Definition samplePersistence : Persistence :=
  {| Note_create :=
       {| NoteEntity.row := {| Note.id := "new-id"; Note.publicId := "new-public-id" |};
          NoteEntity.aliases := []; NoteEntity.owner := None;
          NoteEntity.revisions := []; NoteEntity.historyEntries := [];
          NoteEntity.userPermissions := []; NoteEntity.groupPermissions := [];
          NoteEntity.tags := []; NoteEntity.title := None;
          NoteEntity.description := None; NoteEntity.viewCount := 0 |};
     Revision_create := λ c p,
       {| Revision.content := c; Revision.patch := p; Revision.edits := None;
          Revision.createdAt := 0 |};
     Alias_create := λ n p,
       {| AliasEntity.id := "new-alias"; AliasEntity.name := n;
          AliasEntity.primary := default false p |};
     HistoryEntry_create := λ u, {| historyUser := u |};
     noteRepository_save := Returned;
     aliasRepository_findOneByName := λ n,
       List.find (λ a, bool_decide (AliasEntity.name a = n)) sampleAliasRows;
     aliasRepository_findOneById := λ i,
       List.find (λ a, bool_decide (AliasEntity.id a = i)) sampleAliasRows;
     aliasRepository_save := Returned;
     revisionsService_getLatestRevision := λ _, Returned None;
     revisionsService_getFirstRevision := λ _, Returned None;
     userRepository_authorsOfNote := λ _, Returned [];
     NoteUserPermission_create := λ u e, {| permittedUser := u; userCanEdit := e |};
     NoteGroupPermission_create := λ g e, {| permittedGroup := g; groupCanEdit := e |};
     groupsService_getGroupByName := λ n, Returned {| groupName := n |} |}.

(** The same with a note repository whose [save] fails. *)
Definition sampleFailingSave (e : Thrown) : Persistence :=
  {| Note_create := Note_create samplePersistence;
     Revision_create := Revision_create samplePersistence;
     Alias_create := Alias_create samplePersistence;
     HistoryEntry_create := HistoryEntry_create samplePersistence;
     noteRepository_save := λ _, Threw e;
     aliasRepository_findOneByName := aliasRepository_findOneByName samplePersistence;
     aliasRepository_findOneById := aliasRepository_findOneById samplePersistence;
     aliasRepository_save := aliasRepository_save samplePersistence;
     revisionsService_getLatestRevision :=
       revisionsService_getLatestRevision samplePersistence;
     revisionsService_getFirstRevision :=
       revisionsService_getFirstRevision samplePersistence;
     userRepository_authorsOfNote := userRepository_authorsOfNote samplePersistence;
     NoteUserPermission_create := NoteUserPermission_create samplePersistence;
     NoteGroupPermission_create := NoteGroupPermission_create samplePersistence;
     groupsService_getGroupByName := groupsService_getGroupByName samplePersistence |}.

(** The same with a given latest and first revision and one author. *)
Definition sampleWithRevision (r : option Revision.t) : Persistence :=
  {| Note_create := Note_create samplePersistence;
     Revision_create := Revision_create samplePersistence;
     Alias_create := Alias_create samplePersistence;
     HistoryEntry_create := HistoryEntry_create samplePersistence;
     noteRepository_save := noteRepository_save samplePersistence;
     aliasRepository_findOneByName := aliasRepository_findOneByName samplePersistence;
     aliasRepository_findOneById := aliasRepository_findOneById samplePersistence;
     aliasRepository_save := aliasRepository_save samplePersistence;
     revisionsService_getLatestRevision := λ _, Returned r;
     revisionsService_getFirstRevision := λ _, Returned r;
     userRepository_authorsOfNote := λ _, Returned [{| userName := "ann" |}];
     NoteUserPermission_create := NoteUserPermission_create samplePersistence;
     NoteGroupPermission_create := NoteGroupPermission_create samplePersistence;
     groupsService_getGroupByName := groupsService_getGroupByName samplePersistence |}.

(** A loaded note with the two sample aliases. *)
Definition sampleNote : NoteEntity.t :=
  {| NoteEntity.row := {| Note.id := "id1"; Note.publicId := "abc" |};
     NoteEntity.aliases := sampleAliasRows;
     NoteEntity.owner := Some {| userName := "owner" |};
     NoteEntity.revisions := [];
     NoteEntity.historyEntries := [];
     NoteEntity.userPermissions := [];
     NoteEntity.groupPermissions := [];
     NoteEntity.tags := [{| tagName := "draft" |}];
     NoteEntity.title := None;
     NoteEntity.description := Some "a note";
     NoteEntity.viewCount := 7 |}.

(** * Properties *)

(** ** The admission pattern *)

Lemma dotPlus_end s :
  dotPlus (matchItems []) s =
    if bool_decide (s ≠ "") && noLineTerminator s then Some (s, []) else None.
Proof.
  induction s as [|c s IH]; [reflexivity|].
  cbn [dotPlus noLineTerminator].
  destruct (isLineTerminator c); [reflexivity|].
  rewrite IH. cbn [negb andb bool_decide].
  destruct s as [|c' s']; [reflexivity|].
  rewrite (bool_decide_eq_true_2 (String c' s' ≠ "")) by discriminate.
  rewrite (bool_decide_eq_true_2 (String c (String c' s') ≠ "")) by discriminate.
  cbn [andb].
  destruct (noLineTerminator (String c' s')) eqn:E; [reflexivity|].
  cbn [matchItems]. rewrite bool_decide_eq_false_2 by discriminate. reflexivity.
Qed.

Lemma matchItems_lits pre p s :
  matchItems ((Lit <$> list_ascii_of_string pre) ++ p) (pre +:+ s) = matchItems p s.
Proof.
  induction pre as [|c pre IH]; [reflexivity|].
  change (String c pre +:+ s) with (String c (pre +:+ s)).
  cbn -[bool_decide]. rewrite bool_decide_eq_true_2 by reflexivity. exact IH.
Qed.

Lemma matchItems_lits_inv pre p u caps :
  matchItems ((Lit <$> list_ascii_of_string pre) ++ p) u = Some caps →
  ∃ s, u = pre +:+ s ∧ matchItems p s = Some caps.
Proof.
  revert u. induction pre as [|c pre IH]; intros u H.
  - exists u. split; [reflexivity|exact H].
  - cbn -[bool_decide] in H. destruct u as [|c' u]; [discriminate|].
    case_bool_decide as Hc; [|discriminate]. subst c'.
    destruct (IH _ H) as (s & -> & Hs). exists s. split; [reflexivity|exact Hs].
Qed.

Lemma exec_realtimePath_admission u locator :
  admissionPath u locator → exec realtimePath u = Some [u; locator].
Proof.
  intros (-> & Hne & Hlt). unfold exec, realtimePath.
  rewrite matchItems_lits. cbn [matchItems]. rewrite dotPlus_end.
  rewrite bool_decide_eq_true_2 by exact Hne. rewrite Hlt. reflexivity.
Qed.

Lemma exec_realtimePath_Some u m :
  exec realtimePath u = Some m → ∃ locator, admissionPath u locator ∧ m = [u; locator].
Proof.
  unfold exec, realtimePath. intros H.
  destruct (matchItems _ u) as [caps|] eqn:E; [|discriminate].
  injection H as <-. apply matchItems_lits_inv in E as (s & -> & Hs).
  cbn [matchItems] in Hs. rewrite dotPlus_end in Hs.
  case_bool_decide as Hne; [|discriminate].
  destruct (noLineTerminator s) eqn:Hlt; [|discriminate].
  injection Hs as <-. exists s. repeat split; assumption.
Qed.

Lemma exec_realtimePath_None u :
  (∀ locator, ¬ admissionPath u locator) → exec realtimePath u = None.
Proof.
  intros H. destruct (exec realtimePath u) as [m|] eqn:E; [|reflexivity].
  apply exec_realtimePath_Some in E as (locator & Hl & _).
  destruct (H _ Hl).
Qed.

(** ** The document lookup *)

Lemma getNoteByIdOrAlias_run svc x st :
  final (getNoteByIdOrAlias svc x st) = st ∧
  lookupRun svc x (outcome (getNoteByIdOrAlias svc x st))
                  (trace (getNoteByIdOrAlias svc x st)).
Proof.
  unfold getNoteByIdOrAlias, checkNoteIdOrAlias.
  case_bool_decide as Hf.
  - split; [reflexivity|]. apply (lookup_forbidden _ _ Hf).
  - destruct (noteQuery_getOne svc x) as [note|] eqn:Hq.
    + split; [reflexivity|]. apply (lookup_found _ _ _ Hf Hq).
    + split; [reflexivity|]. apply (lookup_missing _ _ Hf Hq).
Qed.

(** ** The runs of [handleConnection] *)

Ltac run_steps :=
  cbv beta iota zeta delta
      [mbind Run_bind mret Run_ret emit await attempt throw
       logger_log logger_error logger_debug ws_close
       userService_getUserByUsername permissionsService_mayRead
       noteClientMap_getNoteIdByClient noteClientMap_removeClient
       noteClientMap_addClient get_noteClientMap set_noteClientMap];
  cbn [outcome final trace app negb fst snd].

Lemma handleConnection_run svc client req st :
  connectionRun svc client req st (handleConnection svc client req st).
Proof.
  unfold handleConnection. fold (requestPath req).
  destruct (exec realtimePath (requestPath req)) as [m|] eqn:Hexec.
  2:{ apply run_invalidPath. exact Hexec. }
  apply exec_realtimePath_Some in Hexec as (locator & Hpath & ->).
  cbn [length Nat.ltb Nat.leb lookup list_lookup default from_option id].
  destruct (getNoteByIdOrAlias_run svc locator st) as [Hfin Hrun].
  run_steps.
  destruct (users_getUserByUsername svc "hardcoded") as [user|e] eqn:Hu;
    run_steps.
  2:{ eapply run_noIdentity; eassumption. }
  rewrite Hfin.
  destruct (outcome (getNoteByIdOrAlias svc locator st)) as [note|e] eqn:Ho;
    run_steps.
  2:{ eapply run_lookupFailed; eassumption. }
  destruct (permissions_mayRead svc user note) eqn:Hm; run_steps.
  2:{ eapply run_denied; eassumption. }
  destruct (NoteClientMap.addClient (noteClientMap st) client (Note.id note))
    as [e|m'] eqn:Ha; run_steps.
  - eapply run_attachRefused; eassumption.
  - eapply run_attached; eassumption.
Qed.

Lemma admissionPath_unique u l1 l2 :
  admissionPath u l1 → admissionPath u l2 → l1 = l2.
Proof.
  intros H1 H2. apply exec_realtimePath_admission in H1, H2. congruence.
Qed.

Lemma admissionPath_exec u locator :
  admissionPath u locator → exec realtimePath u = None → False.
Proof. intros H%exec_realtimePath_admission. congruence. Qed.

Lemma lookupRun_unique svc x o1 t1 o2 t2 :
  lookupRun svc x o1 t1 → lookupRun svc x o2 t2 → o1 = o2 ∧ t1 = t2.
Proof.
  intros H1 H2. destruct H1; destruct H2; try done; try congruence.
  split; congruence.
Qed.

(** What a lookup leaves in the trace: its own call and debug lines. *)
Lemma lookupRun_events svc x o t ev :
  lookupRun svc x o t → ev ∈ t →
  ev = EvGetNoteByIdOrAlias x ∨ ∃ f m, ev = EvLog LogDebug "NotesService" f m.
Proof.
  intros H Hin. destruct H; unfold lookupAnnounced in Hin; cbn [app] in Hin;
    repeat (apply elem_of_cons in Hin as [->|Hin]; [eauto|]);
    apply elem_of_nil in Hin; destruct Hin.
Qed.

(** What [handleConnection] leaves in the trace: log lines, the close of its
    own client, the lookup of the user [hardcoded], the lookup of the locator
    of the path, and the permission check for that user. *)
Lemma connectionRun_events svc client req st r ev :
  connectionRun svc client req st r → ev ∈ trace r →
  (∃ l c f m, ev = EvLog l c f m) ∨
  ev = EvClose client ∨
  ev = EvGetUserByUsername "hardcoded" ∨
  (∃ locator, admissionPath (requestPath req) locator ∧
              ev = EvGetNoteByIdOrAlias locator) ∨
  (∃ user note, users_getUserByUsername svc "hardcoded" = Fulfilled user ∧
                ev = EvMayRead user note).
Proof.
  intros H Hin.
  assert (Hlook : ∀ locator o t, admissionPath (requestPath req) locator →
            lookupRun svc locator o t → ev ∈ t →
            (∃ l c f m, ev = EvLog l c f m) ∨
            (∃ locator, admissionPath (requestPath req) locator ∧
                        ev = EvGetNoteByIdOrAlias locator)).
  { intros locator o t Hp Hl Ht.
    destruct (lookupRun_events _ _ _ _ _ Hl Ht) as [->|(f & m & ->)]; eauto 8. }
  destruct H; cbn [trace] in Hin;
    repeat first
      [ apply elem_of_cons in Hin as [->|Hin]; [eauto 10|]
      | apply elem_of_app in Hin as [Hin|Hin];
          [edestruct Hlook as [?|?]; eauto 10|]
      | apply elem_of_nil in Hin; destruct Hin ].
Qed.

(** ** Admission *)

(** C5. A connection whose request path is not [/realtime/<locator>] with a
    non-empty locator that the pattern accepts (so, among others, the path
    [/realtime/] and a missing [req.url]) is closed after one log line:
    the handler fulfils, the gateway's state is unchanged, the trace holds
    the log line and the close of that client only, hence no lookup of a
    user and no lookup of a note. *)
Theorem C5_invalid_path_is_closed svc client req st :
  (∀ locator, ¬ admissionPath (requestPath req) locator) →
  let r := handleConnection svc client req st in
  outcome r = Fulfilled tt ∧
  final r = st ∧
  trace r = [ EvLog LogLog gatewayContext None
                ("Realtime connection denied (invalid URL path): " +:+
                 requestPath req);
              EvClose client ] ∧
  (∀ username, EvGetUserByUsername username ∉ trace r) ∧
  (∀ x, EvGetNoteByIdOrAlias x ∉ trace r).
Proof.
  intros Hno r. subst r.
  destruct (handleConnection_run svc client req st) as
    [Hexec|l e Hp|l u e t Hp|l u n t Hp|l u n t e Hp|l u n t m' Hp];
    try (destruct (Hno _ Hp)).
  cbn [outcome final trace]. repeat split; try reflexivity.
  - intros username Hin.
    repeat (apply elem_of_cons in Hin as [?|Hin]; [discriminate|]).
    apply elem_of_nil in Hin. destruct Hin.
  - intros x Hin.
    repeat (apply elem_of_cons in Hin as [?|Hin]; [discriminate|]).
    apply elem_of_nil in Hin. destruct Hin.
Qed.

Lemma exec_None_not_admissionPath u :
  exec realtimePath u = None → ∀ locator, ¬ admissionPath u locator.
Proof. intros H locator Hp. exact (admissionPath_exec _ _ Hp H). Qed.

(** In particular a path that is not [/realtime/] followed by something is
    not accepted. *)
Lemma no_locator_not_admissionPath u :
  (∀ s, s ≠ "" → u ≠ "/realtime/" +:+ s) → ∀ locator, ¬ admissionPath u locator.
Proof. intros H locator (Hu & Hne & _). exact (H locator Hne Hu). Qed.

Lemma C5_invalid_path_witness :
  (∀ locator, ¬ admissionPath (requestPath (sampleRequest "/realtime/")) locator) ∧
  let r := handleConnection sampleServices 7 (sampleRequest "/realtime/")
             (attachAll []) in
  outcome r = Fulfilled tt ∧
  final r = attachAll [] ∧
  trace r = [ EvLog LogLog gatewayContext None
                ("Realtime connection denied (invalid URL path): " +:+
                 requestPath (sampleRequest "/realtime/"));
              EvClose 7 ] ∧
  (∀ username, EvGetUserByUsername username ∉ trace r) ∧
  (∀ x, EvGetNoteByIdOrAlias x ∉ trace r).
Proof.
  split.
  - apply exec_None_not_admissionPath. reflexivity.
  - apply (C5_invalid_path_is_closed sampleServices 7 (sampleRequest "/realtime/")).
    apply exec_None_not_admissionPath. reflexivity.
Defined.

(** The facts a run that got past the path and the identity lookup shares
    with the lookup it made. *)
Ltac same_run Hpath Huser st :=
  repeat match goal with
  | H : admissionPath _ ?l |- _ =>
      lazymatch type of Hpath with
      | admissionPath _ l => fail
      | _ => pose proof (admissionPath_unique _ _ _ H Hpath); subst l; clear H
      end
  | H : users_getUserByUsername _ _ = _ |- _ =>
      lazymatch H with
      | Huser => fail
      | _ => rewrite Huser in H; first [discriminate H | injection H as <-]
      end
  | H : exec realtimePath _ = None |- _ =>
      destruct (admissionPath_exec _ _ Hpath H)
  | H : lookupRun ?svc ?l _ _ |- _ =>
      destruct (lookupRun_unique _ _ _ _ _ _ H
                  (proj2 (getNoteByIdOrAlias_run svc l st))) as [? ?];
      clear H
  end.

Ltac in_trace :=
  repeat first [ apply list_elem_of_here | apply list_elem_of_further ].

Lemma elem_of_trace_cons_app {A} (x y : A) (t l : list A) :
  x ∈ l → x ∈ y :: t ++ l.
Proof. intros H. apply elem_of_cons. right. apply elem_of_app. by right. Qed.

Lemma getNoteByIdOrAlias_no_close svc x st client :
  EvClose client ∉ trace (getNoteByIdOrAlias svc x st).
Proof.
  intros Hin.
  destruct (lookupRun_events _ _ _ _ _ (proj2 (getNoteByIdOrAlias_run svc x st)) Hin)
    as [?|(? & ? & ?)]; discriminate.
Qed.

Lemma addClient_fresh m client noteId :
  NoteClientMap.getNoteIdByClient m client = None →
  ∃ m', NoteClientMap.addClient m client noteId = inr m' ∧
        NoteClientMap.getNoteIdByClient m' client = Some noteId.
Proof.
  unfold NoteClientMap.addClient, NoteClientMap.getNoteIdByClient.
  intros ->. eexists. split; [reflexivity|]. cbn. apply lookup_insert_eq.
Qed.

(** C2. A connection whose path is accepted and whose note lookup succeeds:
    when [mayRead] denies read access the handler closes the connection and
    leaves the gateway's state (the note-client registry, the only state the
    gateway has) as it was; the state changes only when [mayRead] grants
    access, and then a new connection is registered for the note and is not
    closed. *)
Theorem C2_denied_read_is_closed svc client req st locator user note :
  admissionPath (requestPath req) locator →
  users_getUserByUsername svc "hardcoded" = Fulfilled user →
  outcome (getNoteByIdOrAlias svc locator st) = Fulfilled note →
  let r := handleConnection svc client req st in
  (permissions_mayRead svc user note = false →
     outcome r = Fulfilled tt ∧ final r = st ∧ EvClose client ∈ trace r) ∧
  (final r ≠ st → permissions_mayRead svc user note = true) ∧
  (permissions_mayRead svc user note = true →
   NoteClientMap.getNoteIdByClient (noteClientMap st) client = None →
     NoteClientMap.getNoteIdByClient (noteClientMap (final r)) client
       = Some (Note.id note) ∧
     EvClose client ∉ trace r).
Proof.
  intros Hpath Huser Hnote r. subst r.
  destruct (handleConnection_run svc client req st); same_run Hpath Huser st;
    cbn [outcome final trace]; try congruence.
  - (* denied *)
    assert (note0 = note) as -> by congruence.
    split; [|split]; [|congruence..].
    intros _. split; [reflexivity|]. split; [reflexivity|].
    apply elem_of_trace_cons_app. in_trace.
  - (* attach refused: the connection was attached already *)
    assert (note0 = note) as -> by congruence.
    split; [congruence|]. split; [congruence|].
    intros _ Hfresh.
    destruct (addClient_fresh _ _ (Note.id note) Hfresh) as (? & ? & _).
    congruence.
  - (* attached *)
    assert (note0 = note) as -> by congruence.
    split; [congruence|]. split; [congruence|].
    intros _ Hfresh.
    destruct (addClient_fresh _ _ (Note.id note) Hfresh) as (m'' & Ha & Hg).
    assert (m'' = m') as -> by congruence.
    split; [exact Hg|]. subst t.
    intros Hin. apply elem_of_cons in Hin as [?|Hin]; [discriminate|].
    apply elem_of_app in Hin as [Hin|Hin].
    + exact (getNoteByIdOrAlias_no_close _ _ _ _ Hin).
    + repeat (apply elem_of_cons in Hin as [?|Hin]; [discriminate|]).
      by apply elem_of_nil in Hin.
Qed.

Lemma sample_admissionPath locator :
  locator ≠ "" → noLineTerminator locator = true →
  admissionPath (requestPath (sampleRequest ("/realtime/" +:+ locator))) locator.
Proof. intros Hne Hlt. split; [reflexivity|]. split; assumption. Qed.

Lemma C2_denied_read_witness :
  let secret := {| Note.id := "id2"; Note.publicId := "secret" |} in
  let user := {| userName := "hardcoded" |} in
  let req := sampleRequest "/realtime/secret" in
  let st := attachAll [(1, "id1")] in
  admissionPath (requestPath req) "secret" ∧
  users_getUserByUsername sampleServices "hardcoded" = Fulfilled user ∧
  outcome (getNoteByIdOrAlias sampleServices "secret" st) = Fulfilled secret ∧
  let r := handleConnection sampleServices 2 req st in
  (permissions_mayRead sampleServices user secret = false →
     outcome r = Fulfilled tt ∧ final r = st ∧ EvClose 2 ∈ trace r) ∧
  (final r ≠ st → permissions_mayRead sampleServices user secret = true) ∧
  (permissions_mayRead sampleServices user secret = true →
   NoteClientMap.getNoteIdByClient (noteClientMap st) 2 = None →
     NoteClientMap.getNoteIdByClient (noteClientMap (final r)) 2
       = Some (Note.id secret) ∧
     EvClose 2 ∉ trace r).
Proof.
  intros secret user req st.
  assert (Hp : admissionPath (requestPath req) "secret")
    by (apply (sample_admissionPath "secret"); [discriminate|reflexivity]).
  split; [exact Hp|]. split; [reflexivity|]. split; [reflexivity|].
  apply (C2_denied_read_is_closed sampleServices 2 req st "secret" user secret);
    [exact Hp|reflexivity|reflexivity].
Defined.

(** C6. A connection whose path is accepted and whose document lookup fails,
    because the locator is a forbidden id ([ForbiddenIdError]) or because no
    note has it as id or alias ([NotInDBError]): the lookup rejects with that
    error, the handler logs it, closes the connection and fulfils; no frame
    is sent to any connection and the gateway's state, hence the registry,
    is as it was. *)
Theorem C6_failed_lookup_is_closed svc client req st locator user :
  admissionPath (requestPath req) locator →
  users_getUserByUsername svc "hardcoded" = Fulfilled user →
  locator ∈ appConfig_forbiddenNoteIds svc ∨ noteQuery_getOne svc locator = None →
  let r := handleConnection svc client req st in
  (∃ e, outcome (getNoteByIdOrAlias svc locator st) = Rejected e ∧
        (locator ∈ appConfig_forbiddenNoteIds svc →
           e = ForbiddenIdError (forbiddenMessage locator)) ∧
        (locator ∉ appConfig_forbiddenNoteIds svc →
           e = NotInDBError (notFoundMessage locator)) ∧
        EvLog LogError gatewayContext None
          ("Encountered an error: " +:+ String_of_error e) ∈ trace r) ∧
  outcome r = Fulfilled tt ∧
  final r = st ∧
  EvClose client ∈ trace r ∧
  (∀ c data, EvSend c data ∉ trace r).
Proof.
  intros Hpath Huser Hfail r. subst r.
  pose proof (handleConnection_run svc client req st) as Hrun.
  assert (Hrej : ∃ e, outcome (getNoteByIdOrAlias svc locator st) = Rejected e ∧
            (locator ∈ appConfig_forbiddenNoteIds svc →
               e = ForbiddenIdError (forbiddenMessage locator)) ∧
            (locator ∉ appConfig_forbiddenNoteIds svc →
               e = NotInDBError (notFoundMessage locator))).
  { destruct (proj2 (getNoteByIdOrAlias_run svc locator st)) as [Hf|Hf Hq|n Hf Hq].
    - eexists. split; [reflexivity|]. split; [reflexivity|]. intros Hn. destruct (Hn Hf).
    - eexists. split; [reflexivity|]. split; [|reflexivity]. intros Hn. destruct (Hf Hn).
    - destruct Hfail as [Hn|Hn]; [destruct (Hf Hn)|congruence]. }
  destruct Hrej as (e & He & Hforb & Hmiss).
  assert (Hsend : ∀ c data, EvSend c data ∉ trace (handleConnection svc client req st)).
  { intros c data Hin.
    destruct (connectionRun_events _ _ _ _ _ _ Hrun Hin)
      as [(?&?&?&?&?)|[?|[?|[(?&?&?)|(?&?&?&?)]]]]; discriminate. }
  revert Hsend. destruct Hrun; same_run Hpath Huser st;
    cbn [outcome final trace]; try congruence.
  intros Hsend. assert (e0 = e) as -> by congruence.
  split; [|split; [reflexivity|split; [reflexivity|split; [|exact Hsend]]]].
  - exists e. split; [exact He|]. split; [exact Hforb|]. split; [exact Hmiss|].
    apply elem_of_trace_cons_app. in_trace.
  - apply elem_of_trace_cons_app. in_trace.
Qed.

Lemma C6_failed_lookup_witness :
  let user := {| userName := "hardcoded" |} in
  let req := sampleRequest "/realtime/forbidden" in
  let st := attachAll [(1, "id1")] in
  admissionPath (requestPath req) "forbidden" ∧
  users_getUserByUsername sampleServices "hardcoded" = Fulfilled user ∧
  ("forbidden" ∈ appConfig_forbiddenNoteIds sampleServices ∨
   noteQuery_getOne sampleServices "forbidden" = None) ∧
  let r := handleConnection sampleServices 2 req st in
  (∃ e, outcome (getNoteByIdOrAlias sampleServices "forbidden" st) = Rejected e ∧
        ("forbidden" ∈ appConfig_forbiddenNoteIds sampleServices →
           e = ForbiddenIdError (forbiddenMessage "forbidden")) ∧
        ("forbidden" ∉ appConfig_forbiddenNoteIds sampleServices →
           e = NotInDBError (notFoundMessage "forbidden")) ∧
        EvLog LogError gatewayContext None
          ("Encountered an error: " +:+ String_of_error e) ∈ trace r) ∧
  outcome r = Fulfilled tt ∧
  final r = st ∧
  EvClose 2 ∈ trace r ∧
  (∀ c data, EvSend c data ∉ trace r).
Proof.
  intros user req st.
  assert (Hp : admissionPath (requestPath req) "forbidden")
    by (apply (sample_admissionPath "forbidden"); [discriminate|reflexivity]).
  assert (Hf : "forbidden" ∈ appConfig_forbiddenNoteIds sampleServices)
    by (apply list_elem_of_singleton; reflexivity).
  split; [exact Hp|]. split; [reflexivity|]. split; [left; exact Hf|].
  apply (C6_failed_lookup_is_closed sampleServices 2 req st "forbidden" user);
    [exact Hp|reflexivity|left; exact Hf].
Defined.




(** C9. The user whose rights decide an admission is the one
    [getUserByUsername('hardcoded')] returns: no other name is ever looked
    up, and [mayRead] is asked about that user only.  A run depends on the
    request through its path alone, and two connections whose requests have
    the same path, whatever their clients and headers, are closed or not
    closed alike; when neither is attached yet, the two runs complete alike
    and attach their clients to the same note or to none. *)
Theorem C9_admission_ignores_the_client svc c1 c2 req1 req2 st :
  url req1 = url req2 →
  let r1 := handleConnection svc c1 req1 st in
  let r2 := handleConnection svc c2 req2 st in
  handleConnection svc c1 req2 st = r1 ∧
  (∀ username, EvGetUserByUsername username ∈ trace r1 → username = "hardcoded") ∧
  (∀ user note, EvMayRead user note ∈ trace r1 →
     users_getUserByUsername svc "hardcoded" = Fulfilled user) ∧
  (EvClose c1 ∈ trace r1 ↔ EvClose c2 ∈ trace r2) ∧
  (NoteClientMap.getNoteIdByClient (noteClientMap st) c1 = None →
   NoteClientMap.getNoteIdByClient (noteClientMap st) c2 = None →
     outcome r1 = outcome r2 ∧
     ∀ noteId,
       NoteClientMap.getNoteIdByClient (noteClientMap (final r1)) c1 = Some noteId ↔
       NoteClientMap.getNoteIdByClient (noteClientMap (final r2)) c2 = Some noteId).
Proof.
  intros Hurl r1 r2. subst r1 r2.
  pose proof (handleConnection_run svc c1 req1 st) as Hrun1.
  split; [unfold handleConnection; rewrite Hurl; reflexivity|].
  split; [|split].
  - intros username Hin.
    destruct (connectionRun_events _ _ _ _ _ _ Hrun1 Hin)
      as [(?&?&?&?&?)|[?|[?|[(?&?&?)|(?&?&?&?)]]]]; congruence.
  - intros user note Hin.
    destruct (connectionRun_events _ _ _ _ _ _ Hrun1 Hin)
      as [(?&?&?&?&?)|[?|[?|[(?&?&?)|(?&?&?&?)]]]]; congruence.
  - clear Hrun1. unfold handleConnection. rewrite <- Hurl.
    destruct (exec realtimePath (default "" (url req1))) as [m|] eqn:Hexec.
    2:{ run_steps. split.
        - split; intros _; in_trace.
        - intros F1 F2. split; [reflexivity|]. intros noteId.
          cbn [noteClientMap]. rewrite F1, F2. reflexivity. }
    apply exec_realtimePath_Some in Hexec as (locator & Hpath & ->).
    cbn [length Nat.ltb Nat.leb lookup list_lookup default from_option id].
    destruct (getNoteByIdOrAlias_run svc locator st) as [Hfin _].
    pose proof (getNoteByIdOrAlias_no_close svc locator st) as Hnc.
    run_steps.
    destruct (users_getUserByUsername svc "hardcoded") as [user|e]; run_steps.
    2:{ split.
        - split; intros Hin; apply list_elem_of_singleton in Hin; discriminate.
        - intros F1 F2. split; [reflexivity|]. intros noteId.
          rewrite F1, F2. reflexivity. }
    rewrite Hfin.
    destruct (outcome (getNoteByIdOrAlias svc locator st)) as [note|e]; run_steps.
    2:{ split.
        - split; intros _; apply list_elem_of_further, elem_of_app; right; in_trace.
        - intros F1 F2. split; [reflexivity|]. intros noteId.
          rewrite F1, F2. reflexivity. }
    destruct (permissions_mayRead svc user note); run_steps.
    2:{ split.
        - split; intros _; apply list_elem_of_further, elem_of_app; right; in_trace.
        - intros F1 F2. split; [reflexivity|]. intros noteId.
          rewrite F1, F2. reflexivity. }
    assert (Hopen : ∀ c l, (∀ ev, ev ∈ l → ∀ c', ev ≠ EvClose c') →
              EvClose c ∈ EvGetUserByUsername "hardcoded" ::
                          trace (getNoteByIdOrAlias svc locator st) ++ l →
              False).
    { intros c l Hl Hin.
      apply elem_of_cons in Hin as [?|Hin]; [discriminate|].
      apply elem_of_app in Hin as [Hin|Hin]; [exact (Hnc _ Hin)|].
      exact (Hl _ Hin c eq_refl). }
    destruct (NoteClientMap.addClient (noteClientMap st) c1 (Note.id note))
      as [e1|m1] eqn:A1;
    destruct (NoteClientMap.addClient (noteClientMap st) c2 (Note.id note))
      as [e2|m2] eqn:A2; run_steps.
    all: split.
    all: try (split; intros Hin; exfalso; (eapply Hopen; [|exact Hin]);
              intros ev Hev c';
              repeat (apply elem_of_cons in Hev as [->|Hev]; [intros [=]|]);
              apply elem_of_nil in Hev; destruct Hev).
    all: intros F1 F2;
      destruct (addClient_fresh _ _ (Note.id note) F1) as (m1' & A1' & G1);
      destruct (addClient_fresh _ _ (Note.id note) F2) as (m2' & A2' & G2);
      rewrite A1' in A1; rewrite A2' in A2; try discriminate.
    injection A1 as <-. injection A2 as <-.
    split; [reflexivity|]. intros noteId.
    cbn [noteClientMap]. rewrite G1, G2. reflexivity.
Qed.

Lemma C9_admission_witness :
  let req1 := sampleRequestFrom "alice" "/realtime/secret" in
  let req2 := sampleRequestFrom "bob" "/realtime/secret" in
  let st := attachAll [] in
  url req1 = url req2 ∧
  let r1 := handleConnection sampleServices 1 req1 st in
  let r2 := handleConnection sampleServices 2 req2 st in
  handleConnection sampleServices 1 req2 st = r1 ∧
  (∀ username, EvGetUserByUsername username ∈ trace r1 → username = "hardcoded") ∧
  (∀ user note, EvMayRead user note ∈ trace r1 →
     users_getUserByUsername sampleServices "hardcoded" = Fulfilled user) ∧
  (EvClose 1 ∈ trace r1 ↔ EvClose 2 ∈ trace r2) ∧
  (NoteClientMap.getNoteIdByClient (noteClientMap st) 1 = None →
   NoteClientMap.getNoteIdByClient (noteClientMap st) 2 = None →
     outcome r1 = outcome r2 ∧
     ∀ noteId,
       NoteClientMap.getNoteIdByClient (noteClientMap (final r1)) 1 = Some noteId ↔
       NoteClientMap.getNoteIdByClient (noteClientMap (final r2)) 2 = Some noteId).
Proof.
  intros req1 req2 st. split; [reflexivity|].
  apply (C9_admission_ignores_the_client sampleServices 1 2 req1 req2 st).
  reflexivity.
Defined.

(** ** Disconnection *)

Lemma handleDisconnect_unattached client st :
  NoteClientMap.getNoteIdByClient (noteClientMap st) client = None →
  handleDisconnect client st = {| outcome := Fulfilled tt; final := st; trace := [] |}.
Proof. intros H. unfold handleDisconnect. run_steps. rewrite H. reflexivity. Qed.

Lemma handleDisconnect_attached client st noteId :
  NoteClientMap.getNoteIdByClient (noteClientMap st) client = Some noteId →
  handleDisconnect client st =
    {| outcome := Fulfilled tt;
       final := {| noteClientMap := NoteClientMap.removeClient (noteClientMap st) client |};
       trace := [ EvLog LogLog gatewayContext None
                    ("Client disconnected from note '" +:+ noteId +:+ "'") ] |}.
Proof. intros H. unfold handleDisconnect. run_steps. rewrite H. reflexivity. Qed.

Lemma removeClient_detaches m client :
  NoteClientMap.getNoteIdByClient (NoteClientMap.removeClient m client) client = None.
Proof.
  unfold NoteClientMap.removeClient, NoteClientMap.getNoteIdByClient.
  destruct (NoteClientMap.mapClientToNoteId m !! client) eqn:E; [|exact E].
  cbn. apply lookup_delete_eq.
Qed.

(** C7. For a connection that is not in the note-client registry
    [handleDisconnect] returns at once: it fulfils, writes nothing to the
    trace (no log line, no call at all) and leaves the gateway's state as it
    was; whatever the state, a second disconnect of the same connection
    changes nothing more. *)
Theorem C7_disconnect_of_unattached_is_noop client st :
  NoteClientMap.getNoteIdByClient (noteClientMap st) client = None →
  handleDisconnect client st =
    {| outcome := Fulfilled tt; final := st; trace := [] |} ∧
  ∀ st', handleDisconnect client (final (handleDisconnect client st')) =
           {| outcome := Fulfilled tt; final := final (handleDisconnect client st');
              trace := [] |}.
Proof.
  intros H. split; [exact (handleDisconnect_unattached _ _ H)|].
  intros st'. apply handleDisconnect_unattached.
  destruct (NoteClientMap.getNoteIdByClient (noteClientMap st') client) as [noteId|] eqn:E.
  - rewrite (handleDisconnect_attached _ _ _ E). cbn [final noteClientMap].
    apply removeClient_detaches.
  - rewrite (handleDisconnect_unattached _ _ E). exact E.
Qed.

Lemma C7_disconnect_witness :
  let st := attachAll [(1, "D")] in
  NoteClientMap.getNoteIdByClient (noteClientMap st) 2 = None ∧
  handleDisconnect 2 st =
    {| outcome := Fulfilled tt; final := st; trace := [] |} ∧
  ∀ st', handleDisconnect 2 (final (handleDisconnect 2 st')) =
           {| outcome := Fulfilled tt; final := final (handleDisconnect 2 st');
              trace := [] |}.
Proof.
  intros st. split; [reflexivity|].
  apply (C7_disconnect_of_unattached_is_noop 2 st). reflexivity.
Defined.

Lemma handleConnection_no_storage_no_send svc client req st ev :
  ev ∈ trace (handleConnection svc client req st) →
  isStorage ev = false ∧ isSend ev = false.
Proof.
  intros Hin.
  destruct (connectionRun_events _ _ _ _ _ _ (handleConnection_run svc client req st) Hin)
    as [(?&?&?&?&->)|[->|[->|[(?&?&->)|(?&?&?&->)]]]]; split; reflexivity.
Qed.

(** C3, as stated, fails where one connection is attached to a note and
    disconnects: the handler logs the disconnect and empties the registry,
    and its trace holds that log line only, so nothing is written to
    storage. *)
Lemma C3_no_flush_counterexample :
  let st := attachAll [(1, "D")] in
  NoteClientMap.getClientsByNoteId (noteClientMap st) "D" = {[1]} ∧
  handleDisconnect 1 st =
    {| outcome := Fulfilled tt; final := attachAll [];
       trace := [ EvLog LogLog gatewayContext None
                    "Client disconnected from note 'D'" ] |} ∧
  ∀ note content, EvUpdateNote note content ∉ trace (handleDisconnect 1 st).
Proof.
  intros st. split; [reflexivity|].
  assert (H : handleDisconnect 1 st =
    {| outcome := Fulfilled tt; final := attachAll [];
       trace := [ EvLog LogLog gatewayContext None
                    "Client disconnected from note 'D'" ] |})
    by (vm_compute; reflexivity).
  split; [exact H|]. intros note content Hin. rewrite H in Hin.
  apply list_elem_of_singleton in Hin. discriminate.
Qed.

(** C3, amended. When the only connection attached to a note disconnects,
    the handler logs the disconnect and removes the connection from the
    registry, after which the note has no connection and no entry there.
    Its trace holds the log line only: nothing is written to or read from
    storage, and a later [handleConnection] in the state it leaves makes no
    storage call either (the gateway keeps no document content). *)
Theorem C3_last_disconnect_only_unregisters client st noteId :
  NoteClientMap.getNoteIdByClient (noteClientMap st) client = Some noteId →
  NoteClientMap.getClientsByNoteId (noteClientMap st) noteId = {[client]} →
  let r := handleDisconnect client st in
  outcome r = Fulfilled tt ∧
  trace r = [ EvLog LogLog gatewayContext None
                ("Client disconnected from note '" +:+ noteId +:+ "'") ] ∧
  (∀ ev, ev ∈ trace r → isStorage ev = false) ∧
  NoteClientMap.getNoteIdByClient (noteClientMap (final r)) client = None ∧
  NoteClientMap.getClientsByNoteId (noteClientMap (final r)) noteId = ∅ ∧
  NoteClientMap.mapNoteIdToClients (noteClientMap (final r)) !! noteId = None ∧
  (∀ svc client' req ev,
     ev ∈ trace (handleConnection svc client' req (final r)) → isStorage ev = false).
Proof.
  intros Hatt Hsole r. subst r. rewrite (handleDisconnect_attached _ _ _ Hatt).
  cbn [outcome final trace noteClientMap].
  assert (Hgone : NoteClientMap.mapNoteIdToClients
                    (NoteClientMap.removeClient (noteClientMap st) client) !! noteId = None).
  { unfold NoteClientMap.removeClient.
    unfold NoteClientMap.getNoteIdByClient in Hatt. rewrite Hatt, Hsole.
    cbn [NoteClientMap.mapNoteIdToClients].
    destruct (decide ({[client]} ∖ {[client]} = (∅ : gset nat))) as [_|Hn].
    - apply lookup_delete_eq.
    - destruct Hn. apply difference_diag_L. }
  split; [reflexivity|]. split; [reflexivity|]. split.
  { intros ev Hin. apply list_elem_of_singleton in Hin as ->. reflexivity. }
  split; [apply removeClient_detaches|]. split.
  { unfold NoteClientMap.getClientsByNoteId. rewrite Hgone. reflexivity. }
  split; [exact Hgone|].
  intros svc client' req ev Hin.
  exact (proj1 (handleConnection_no_storage_no_send _ _ _ _ _ Hin)).
Qed.

Lemma C3_last_disconnect_witness :
  let st := attachAll [(1, "D"); (2, "E")] in
  NoteClientMap.getNoteIdByClient (noteClientMap st) 1 = Some "D" ∧
  NoteClientMap.getClientsByNoteId (noteClientMap st) "D" = {[1]} ∧
  let r := handleDisconnect 1 st in
  outcome r = Fulfilled tt ∧
  trace r = [ EvLog LogLog gatewayContext None
                ("Client disconnected from note '" +:+ "D" +:+ "'") ] ∧
  (∀ ev, ev ∈ trace r → isStorage ev = false) ∧
  NoteClientMap.getNoteIdByClient (noteClientMap (final r)) 1 = None ∧
  NoteClientMap.getClientsByNoteId (noteClientMap (final r)) "D" = ∅ ∧
  NoteClientMap.mapNoteIdToClients (noteClientMap (final r)) !! "D" = None ∧
  (∀ svc client' req ev,
     ev ∈ trace (handleConnection svc client' req (final r)) → isStorage ev = false).
Proof.
  intros st. split; [reflexivity|]. split; [reflexivity|].
  apply (C3_last_disconnect_only_unregisters 1 st "D"); reflexivity.
Defined.

(** ** Frames *)

(** C1, as stated, fails where two connections are attached to the same
    note and one of them sends a SYNC frame that carries an update: the
    handler, called directly or through the dispatcher, logs the frame and
    fulfils; its trace holds no frame sent to the other connection. *)
Lemma C1_no_broadcast_counterexample :
  let st := attachAll [(1, "D"); (2, "D")] in
  let frame := [x00; x02; x03; x01; x02; x03] in
  NoteClientMap.getNoteIdByClient (noteClientMap st) 1 = Some "D" ∧
  2 ∈ NoteClientMap.peers (noteClientMap st) "D" 1 ∧
  bindMessageHandlers 1 (gatewayHandlers 1) frame st = handleMessageSync 1 frame st ∧
  handleMessageSync 1 frame st =
    {| outcome := Fulfilled tt; final := st;
       trace := [EvLog LogLog gatewayContext None "Received SYNC message"] |} ∧
  EvSend 2 frame ∉ trace (handleMessageSync 1 frame st).
Proof.
  intros st frame. split; [reflexivity|]. split.
  { apply (bool_decide_unpack _). vm_compute. exact I. }
  split; [reflexivity|]. split; [reflexivity|].
  intros Hin. apply list_elem_of_singleton in Hin. discriminate.
Qed.

(** C1, amended. For every SYNC frame received from a connection the
    handler logs [Received SYNC message] and fulfils: the gateway's state is
    unchanged (the update is merged into nothing) and the trace holds the
    log line only, so the update is sent to no connection, of the same note
    or of another. *)
Theorem C1_sync_frame_is_only_logged client data st :
  let r := handleMessageSync client data st in
  r = {| outcome := Fulfilled tt; final := st;
         trace := [EvLog LogLog gatewayContext None "Received SYNC message"] |} ∧
  (∀ c payload, EvSend c payload ∉ trace r) ∧
  (∀ ev, ev ∈ trace r → isSend ev = false ∧ isStorage ev = false).
Proof.
  intros r. subst r. split; [reflexivity|]. split.
  - intros c payload Hin. apply list_elem_of_singleton in Hin. discriminate.
  - intros ev Hin. apply list_elem_of_singleton in Hin as ->. split; reflexivity.
Qed.

Lemma messageTypeMap_other (messageType : N) :
  messageType ≠ 0%N → messageType ≠ 1%N → messageType ≠ 100%N →
  messageTypeMap !! messageType = None.
Proof. intros H0 H1 H100. unfold messageTypeMap. by simplify_map_eq. Qed.

Lemma bindMessageHandlers_read client handlers data st messageType decoder :
  decoding.readVarUint (decoding.createDecoder data) = Fulfilled (messageType, decoder) →
  bindMessageHandlers client handlers data st =
    match List.find (handles messageType) handlers with
    | None =>
        {| outcome := Fulfilled tt; final := st;
           trace := [ EvLog LogError adapterContext None
                        "Some message handlers were not defined!" ] |}
    | Some handler =>
        {| outcome := Fulfilled tt;
           final := final (callback handler data st);
           trace := trace (callback handler data st) |}
    end.
Proof.
  intros Hread. unfold bindMessageHandlers. run_steps. rewrite Hread. cbn [fst].
  destruct (List.find (handles messageType) handlers) as [handler|]; [|reflexivity].
  cbn [outcome final trace]. rewrite app_nil_r. reflexivity.
Qed.






(** ** The leading number of a frame *)

(** A first byte below 128 is the whole number. *)
Lemma readVarUint_single_byte (b : byte) (rest : Uint8Array) :
  (Byte.to_N b < 128)%N →
  decoding.readVarUint (decoding.createDecoder (b :: rest)) =
    Fulfilled (Byte.to_N b, {| decoding.arr := b :: rest; decoding.pos := 1 |}).
Proof.
  intros Hb. unfold decoding.readVarUint, decoding.createDecoder.
  cbn [decoding.arr decoding.pos drop decoding.readVarUint_loop].
  unfold decoding.BIT8, decoding.BITS7.
  destruct (N.ltb_spec (Byte.to_N b) 128) as [_|Hge]; [|lia].
  change 127%N with (N.ones 7). rewrite N.land_ones.
  rewrite N.mod_small by exact Hb.
  rewrite N.mul_1_r, N.add_0_l. reflexivity.
Qed.

(** A truncated number (every byte has its eighth bit set) and an empty frame
    make [readVarUint] throw, and the exception leaves the listener. *)
Example empty_frame_throws :
  bindMessageHandlers 1 (gatewayHandlers 1) [] (attachAll []) =
    {| outcome := Rejected UnexpectedEndOfArray; final := attachAll []; trace := [] |}.
Proof. reflexivity. Qed.

Example frame_tagged_sync rest st :
  bindMessageHandlers 1 (gatewayHandlers 1) (x00 :: rest) st =
    handleMessageSync 1 (x00 :: rest) st.
Proof.
  rewrite (bindMessageHandlers_read _ _ _ _ _ _ (readVarUint_single_byte x00 rest eq_refl)).
  reflexivity.
Qed.

Example frame_tagged_awareness rest st :
  bindMessageHandlers 1 (gatewayHandlers 1) (x01 :: rest) st =
    handleMessageAwareness 1 (x01 :: rest) st.
Proof.
  rewrite (bindMessageHandlers_read _ _ _ _ _ _ (readVarUint_single_byte x01 rest eq_refl)).
  reflexivity.
Qed.

Example frame_tagged_hedgedoc rest st :
  bindMessageHandlers 1 (gatewayHandlers 1) (x64 :: rest) st =
    handleMessageHedgeDoc 1 (x64 :: rest) st.
Proof.
  rewrite (bindMessageHandlers_read _ _ _ _ _ _ (readVarUint_single_byte x64 rest eq_refl)).
  reflexivity.
Qed.

(** Two bytes: [0xe4 0x00] is 100 again, [0x80 0x01] is 128. *)
Example two_byte_numbers :
  decoding.readVarUint (decoding.createDecoder [xe4; x00]) =
    Fulfilled (100%N, {| decoding.arr := [xe4; x00]; decoding.pos := 2 |}) ∧
  decoding.readVarUint (decoding.createDecoder [x80; x01]) =
    Fulfilled (128%N, {| decoding.arr := [x80; x01]; decoding.pos := 2 |}).
Proof. split; reflexivity. Qed.

(** * Further properties of the gateway and the adapter *)

(** X1. The pattern [/^\/realtime\/(.+)$/] matches exactly the paths
    [/realtime/<locator>] whose locator is not empty and holds no line
    terminator, and captures the locator whole; a match always has two
    entries, so the test [pathMatching.length < 2] of [handleConnection]
    never decides anything. *)
Theorem admission_pattern_matches_exactly (u : string) :
  (∀ m, exec realtimePath u = Some m ↔
        ∃ locator, admissionPath u locator ∧ m = [u; locator]) ∧
  (∀ m, exec realtimePath u = Some m → (length m <? 2)%nat = false).
Proof.
  split.
  - intros m. split.
    + apply exec_realtimePath_Some.
    + intros (locator & Hp & ->). exact (exec_realtimePath_admission _ _ Hp).
  - intros m (locator & _ & ->)%exec_realtimePath_Some. reflexivity.
Qed.

Lemma closedClients_app t1 t2 :
  closedClients (t1 ++ t2) = (closedClients t1 ++ closedClients t2)%list.
Proof. unfold closedClients. apply omap_app. Qed.

Lemma lookupRun_found svc x note t :
  lookupRun svc x (Fulfilled note) t →
  (x ∉ appConfig_forbiddenNoteIds svc) ∧ noteQuery_getOne svc x = Some note.
Proof. intros H. inversion H; subst. split; assumption. Qed.

Lemma lookupRun_closes_nothing svc x o t :
  lookupRun svc x o t → closedClients t = [].
Proof. intros H. destruct H; reflexivity. Qed.

(** X2. A run of [handleConnection] closes either nothing or its own client,
    once; it never closes another connection.  When it closes the client the
    registry is left as it was, and a run that fulfils without closing has
    passed the client and the id of the note that [mayRead] granted to
    [addClient]. *)
Theorem handleConnection_closes_own_client_or_attaches svc client req st :
  let r := handleConnection svc client req st in
  (closedClients (trace r) = [client] ∧ outcome r = Fulfilled tt ∧ final r = st) ∨
  (closedClients (trace r) = [] ∧
   ((∃ e, outcome r = Rejected e ∧ final r = st) ∨
    (outcome r = Fulfilled tt ∧
     ∃ locator user note,
       admissionPath (requestPath req) locator ∧
       users_getUserByUsername svc "hardcoded" = Fulfilled user ∧
       noteQuery_getOne svc locator = Some note ∧
       permissions_mayRead svc user note = true ∧
       NoteClientMap.addClient (noteClientMap st) client (Note.id note)
         = inr (noteClientMap (final r))))).
Proof.
  intros r. subst r.
  destruct (handleConnection_run svc client req st)
    as [Hexec|l e Hp Hu|l u e t Hp Hu Hl|l u n t Hp Hu Hl Hm
        |l u n t e Hp Hu Hl Hm Ha|l u n t m' Hp Hu Hl Hm Ha];
    cbn [outcome final trace].
  - left. repeat split.
  - right. split; [reflexivity|]. left. eauto.
  - left. change (closedClients (EvGetUserByUsername "hardcoded" :: ?t))
      with (closedClients t).
    rewrite closedClients_app, (lookupRun_closes_nothing _ _ _ _ Hl). repeat split.
  - left. change (closedClients (EvGetUserByUsername "hardcoded" :: ?t))
      with (closedClients t).
    rewrite closedClients_app, (lookupRun_closes_nothing _ _ _ _ Hl). repeat split.
  - right. change (closedClients (EvGetUserByUsername "hardcoded" :: ?t))
      with (closedClients t).
    rewrite closedClients_app, (lookupRun_closes_nothing _ _ _ _ Hl).
    split; [reflexivity|]. left. eauto.
  - right. change (closedClients (EvGetUserByUsername "hardcoded" :: ?t))
      with (closedClients t).
    rewrite closedClients_app, (lookupRun_closes_nothing _ _ _ _ Hl).
    split; [reflexivity|]. right. split; [reflexivity|].
    exists l, u, n. destruct (lookupRun_found _ _ _ _ Hl) as [_ Hq].
    split; [exact Hp|]. split; [exact Hu|]. split; [exact Hq|].
    split; [exact Hm|exact Ha].
Qed.

(** X3. [handleConnection] rejects in two cases only: the lookup of the user
    [hardcoded] rejects, or [mayRead] granted the note and [addClient]
    refused the client.  In both the error is passed on as it is, no
    connection is closed and the registry is left as it was. *)
Theorem handleConnection_rejects_without_closing svc client req st e :
  outcome (handleConnection svc client req st) = Rejected e →
  closedClients (trace (handleConnection svc client req st)) = [] ∧
  final (handleConnection svc client req st) = st ∧
  ∃ locator, admissionPath (requestPath req) locator ∧
    (users_getUserByUsername svc "hardcoded" = Rejected e ∨
     ∃ user note,
       users_getUserByUsername svc "hardcoded" = Fulfilled user ∧
       noteQuery_getOne svc locator = Some note ∧
       permissions_mayRead svc user note = true ∧
       NoteClientMap.addClient (noteClientMap st) client (Note.id note) = inl e).
Proof.
  destruct (handleConnection_run svc client req st)
    as [Hexec|l e' Hp Hu|l u e' t Hp Hu Hl|l u n t Hp Hu Hl Hm
        |l u n t e' Hp Hu Hl Hm Ha|l u n t m' Hp Hu Hl Hm Ha];
    cbn [outcome final trace]; intros [=]; subst.
  - split; [reflexivity|]. split; [reflexivity|]. exists l. split; [exact Hp|]. by left.
  - change (closedClients (EvGetUserByUsername "hardcoded" :: ?t))
      with (closedClients t).
    rewrite closedClients_app, (lookupRun_closes_nothing _ _ _ _ Hl).
    split; [reflexivity|]. split; [reflexivity|]. exists l. split; [exact Hp|].
    right. exists u, n. destruct (lookupRun_found _ _ _ _ Hl) as [_ Hq].
    split; [exact Hu|]. split; [exact Hq|]. split; [exact Hm|exact Ha].
Qed.

Lemma handleConnection_rejects_witness :
  let svc :=
    {| users_getUserByUsername := λ _, Rejected (NotInDBError "no such user");
       permissions_mayRead := λ _ _, true;
       appConfig_forbiddenNoteIds := [];
       noteRepository := [];
       aliasRepository := [] |} in
  let req := sampleRequest "/realtime/abc" in
  let st := attachAll [] in
  let e := NotInDBError "no such user" in
  outcome (handleConnection svc 1 req st) = Rejected e ∧
  closedClients (trace (handleConnection svc 1 req st)) = [] ∧
  final (handleConnection svc 1 req st) = st ∧
  ∃ locator, admissionPath (requestPath req) locator ∧
    (users_getUserByUsername svc "hardcoded" = Rejected e ∨
     ∃ user note,
       users_getUserByUsername svc "hardcoded" = Fulfilled user ∧
       noteQuery_getOne svc locator = Some note ∧
       permissions_mayRead svc user note = true ∧
       NoteClientMap.addClient (noteClientMap st) 1 (Note.id note) = inl e).
Proof.
  intros svc req st e. split; [reflexivity|].
  apply (handleConnection_rejects_without_closing svc 1 req st e). reflexivity.
Defined.

(** X4. [mayRead] is only ever asked about the user that the lookup of
    [hardcoded] returned and about the first note of the repository that
    the query selects for the locator of the path; a path whose locator is a
    forbidden id never reaches the permission check. *)
Theorem mayRead_is_asked_about_the_looked_up_note svc client req st user note :
  EvMayRead user note ∈ trace (handleConnection svc client req st) →
  users_getUserByUsername svc "hardcoded" = Fulfilled user ∧
  ∃ locator,
    admissionPath (requestPath req) locator ∧
    (locator ∉ appConfig_forbiddenNoteIds svc) ∧
    noteQuery_getOne svc locator = Some note.
Proof.
  intros Hin.
  assert (Hnot : ∀ locator o t, lookupRun svc locator o t → EvMayRead user note ∉ t).
  { intros locator o t Hl Ht.
    destruct (lookupRun_events _ _ _ _ _ Hl Ht) as [?|(?&?&?)]; discriminate. }
  destruct (handleConnection_run svc client req st)
    as [Hexec|l e Hp Hu|l u e t Hp Hu Hl|l u n t Hp Hu Hl Hm
        |l u n t e Hp Hu Hl Hm Ha|l u n t m' Hp Hu Hl Hm Ha];
    cbn [trace] in Hin.
  - repeat (apply elem_of_cons in Hin as [?|Hin]; [discriminate|]).
    by apply elem_of_nil in Hin.
  - apply list_elem_of_singleton in Hin. discriminate.
  - apply elem_of_cons in Hin as [?|Hin]; [discriminate|].
    apply elem_of_app in Hin as [Hin|Hin]; [destruct (Hnot _ _ _ Hl Hin)|].
    repeat (apply elem_of_cons in Hin as [?|Hin]; [discriminate|]).
    by apply elem_of_nil in Hin.
  - apply elem_of_cons in Hin as [?|Hin]; [discriminate|].
    apply elem_of_app in Hin as [Hin|Hin]; [destruct (Hnot _ _ _ Hl Hin)|].
    apply elem_of_cons in Hin as [Heq|Hin].
    + injection Heq as -> ->. split; [exact Hu|]. exists l. destruct (lookupRun_found _ _ _ _ Hl). eauto.
    + repeat (apply elem_of_cons in Hin as [?|Hin]; [discriminate|]).
      by apply elem_of_nil in Hin.
  - apply elem_of_cons in Hin as [?|Hin]; [discriminate|].
    apply elem_of_app in Hin as [Hin|Hin]; [destruct (Hnot _ _ _ Hl Hin)|].
    apply list_elem_of_singleton in Hin. injection Hin as -> ->.
    split; [exact Hu|]. exists l. destruct (lookupRun_found _ _ _ _ Hl). eauto.
  - apply elem_of_cons in Hin as [?|Hin]; [discriminate|].
    apply elem_of_app in Hin as [Hin|Hin]; [destruct (Hnot _ _ _ Hl Hin)|].
    apply elem_of_cons in Hin as [Heq|Hin].
    + injection Heq as -> ->. split; [exact Hu|]. exists l. destruct (lookupRun_found _ _ _ _ Hl). eauto.
    + apply list_elem_of_singleton in Hin. discriminate.
Qed.

Lemma mayRead_is_asked_witness :
  let user := {| userName := "hardcoded" |} in
  let note := {| Note.id := "id1"; Note.publicId := "abc" |} in
  let req := sampleRequest "/realtime/a/b" in
  EvMayRead user note ∈ trace (handleConnection sampleServices 1 req (attachAll [])) ∧
  users_getUserByUsername sampleServices "hardcoded" = Fulfilled user ∧
  ∃ locator,
    admissionPath (requestPath req) locator ∧
    (locator ∉ appConfig_forbiddenNoteIds sampleServices) ∧
    noteQuery_getOne sampleServices locator = Some note.
Proof.
  intros user note req.
  assert (Hin : EvMayRead user note ∈
                trace (handleConnection sampleServices 1 req (attachAll [])))
    by (vm_compute; in_trace).
  split; [exact Hin|].
  exact (mayRead_is_asked_about_the_looked_up_note sampleServices 1 req (attachAll [])
           user note Hin).
Defined.

Lemma messageTypeMap_cases (messageType : N) :
  (messageType = 0%N ∧ messageTypeMap !! messageType = Some "messageSync") ∨
  (messageType = 1%N ∧ messageTypeMap !! messageType = Some "messageAwareness") ∨
  (messageType = 100%N ∧ messageTypeMap !! messageType = Some "messageHedgeDoc") ∨
  (messageTypeMap !! messageType = None).
Proof.
  destruct (decide (messageType = 0%N)) as [->|H0]; [by left|].
  destruct (decide (messageType = 1%N)) as [->|H1]; [by right; left|].
  destruct (decide (messageType = 100%N)) as [->|H100]; [by right; right; left|].
  right. right. right. exact (messageTypeMap_other _ H0 H1 H100).
Qed.

Lemma bindMessageHandlers_unread client handlers data st e :
  decoding.readVarUint (decoding.createDecoder data) = Rejected e →
  bindMessageHandlers client handlers data st =
    {| outcome := Rejected e; final := st; trace := [] |}.
Proof. intros H. unfold bindMessageHandlers. run_steps. rewrite H. reflexivity. Qed.

(** X5. Whatever the frame, the listener bound to the gateway's three
    handlers leaves the registry as it was, closes no connection and makes no
    send or storage call.  It writes exactly one log line and returns when a
    leading number could be read (a handler's line or the missing-handler
    error), and throws the decoder's error, without any log line, when none
    could. *)
Theorem frames_leave_the_gateway_untouched client data st :
  let r := bindMessageHandlers client (gatewayHandlers client) data st in
  final r = st ∧
  closedClients (trace r) = [] ∧
  (∀ ev, ev ∈ trace r → isSend ev = false ∧ isStorage ev = false) ∧
  match decoding.readVarUint (decoding.createDecoder data) with
  | Fulfilled _ =>
      outcome r = Fulfilled tt ∧ ∃ level context message,
        trace r = [EvLog level context None message]
  | Rejected e => outcome r = Rejected e ∧ trace r = []
  end.
Proof.
  intros r. subst r.
  destruct (decoding.readVarUint (decoding.createDecoder data))
    as [[messageType decoder]|e] eqn:Hread.
  - rewrite (bindMessageHandlers_read _ _ _ _ _ _ Hread).
    assert (Hone : ∀ (t : list Event) level context message,
              t = [EvLog level context None message] →
              closedClients t = [] ∧
              (∀ ev, ev ∈ t → isSend ev = false ∧ isStorage ev = false) ∧
              ∃ level context message, t = [EvLog level context None message]).
    { intros t level context message ->. split; [reflexivity|]. split; [|eauto].
      intros ev ->%list_elem_of_singleton. split; reflexivity. }
    unfold gatewayHandlers, handles. cbn [List.find message].
    destruct (messageTypeMap_cases messageType)
      as [[-> ->]|[[-> ->]|[[-> ->]| ->]]];
      rewrite ?bool_decide_eq_true_2 by reflexivity;
      rewrite ?bool_decide_eq_false_2 by discriminate;
      cbn [callback outcome final trace];
      (split; [reflexivity|]);
      edestruct Hone as (Hc & Hs & Hl); try reflexivity;
      (split; [exact Hc|]); (split; [exact Hs|]); (split; [reflexivity|exact Hl]).
  - rewrite (bindMessageHandlers_unread _ _ _ _ _ Hread). cbn [outcome final trace].
    split; [reflexivity|]. split; [reflexivity|]. split; [|split; reflexivity].
    intros ev Hin. by apply elem_of_nil in Hin.
Qed.

Lemma readVarUint_loop_unterminated rest pos num mult :
  Forall (λ b, (128 ≤ Byte.to_N b)%N) rest →
  decoding.readVarUint_loop rest pos num mult = Rejected UnexpectedEndOfArray ∨
  decoding.readVarUint_loop rest pos num mult = Rejected IntegerOutOfRange.
Proof.
  intros Hall. revert pos num mult.
  induction Hall as [|b rest Hb _ IH]; intros pos num mult; [by left|].
  cbn [decoding.readVarUint_loop]. unfold decoding.BIT8.
  destruct (N.ltb_spec (Byte.to_N b) 128) as [Hlt|_]; [lia|].
  destruct (_ <? _)%N; [by right|apply IH].
Qed.

(** X6. A frame none of whose bytes ends the leading number (every byte has
    its eighth bit set; the empty frame is one) makes the listener throw the
    decoder's error, whatever handlers are bound: no handler runs, nothing is
    logged and the registry is left as it was. *)
Theorem unterminated_number_leaves_the_listener client handlers data st :
  Forall (λ b, (128 ≤ Byte.to_N b)%N) data →
  ∃ e, (e = UnexpectedEndOfArray ∨ e = IntegerOutOfRange) ∧
       bindMessageHandlers client handlers data st =
         {| outcome := Rejected e; final := st; trace := [] |}.
Proof.
  intros Hall.
  assert (Hread : ∃ e, (e = UnexpectedEndOfArray ∨ e = IntegerOutOfRange) ∧
            decoding.readVarUint (decoding.createDecoder data) = Rejected e).
  { unfold decoding.readVarUint, decoding.createDecoder.
    cbn [decoding.arr decoding.pos]. rewrite drop_0.
    destruct (readVarUint_loop_unterminated data 0 0 1 Hall) as [->| ->]; eauto. }
  destruct Hread as (e & He & Hread). exists e. split; [exact He|].
  exact (bindMessageHandlers_unread _ _ _ _ _ Hread).
Qed.

Lemma unterminated_number_witness :
  let data := [x80; xff; x81] in
  Forall (λ b, (128 ≤ Byte.to_N b)%N) data ∧
  ∃ e, (e = UnexpectedEndOfArray ∨ e = IntegerOutOfRange) ∧
       bindMessageHandlers 1 (gatewayHandlers 1) data (attachAll [(1, "D")]) =
         {| outcome := Rejected e; final := attachAll [(1, "D")]; trace := [] |}.
Proof.
  intros data.
  assert (Hall : Forall (λ b, (128 ≤ Byte.to_N b)%N) data)
    by (repeat constructor; vm_compute; discriminate).
  split; [exact Hall|].
  exact (unterminated_number_leaves_the_listener 1 (gatewayHandlers 1) data
           (attachAll [(1, "D")]) Hall).
Defined.

Lemma find_handles_mapped messageType handlers :
  List.find (handles messageType) (List.filter mappedMessage handlers) =
  List.find (handles messageType) handlers.
Proof.
  induction handlers as [|h handlers IH]; [reflexivity|].
  cbn [List.filter List.find].
  destruct (handles messageType h) eqn:Hh.
  - assert (Hm : mappedMessage h = true).
    { unfold handles in Hh. apply bool_decide_eq_true_1 in Hh.
      unfold mappedMessage. apply bool_decide_eq_true_2.
      destruct (messageTypeMap_cases messageType)
        as [[_ Hn]|[[_ Hn]|[[_ Hn]|Hn]]]; rewrite Hn in Hh;
        [injection Hh as ->..|discriminate]; in_trace. }
    rewrite Hm. cbn [List.find]. rewrite Hh. reflexivity.
  - destruct (mappedMessage h); [cbn [List.find]; rewrite Hh|]; exact IH.
Qed.

(** X7. Only handlers subscribed to [messageSync], [messageAwareness] or
    [messageHedgeDoc] can ever run: dropping every handler with another
    message name from the list changes nothing in what the listener does
    with any frame. *)
Theorem only_mapped_handlers_are_reachable client handlers data st :
  bindMessageHandlers client (List.filter mappedMessage handlers) data st =
  bindMessageHandlers client handlers data st.
Proof.
  destruct (decoding.readVarUint (decoding.createDecoder data))
    as [[messageType decoder]|e] eqn:Hread.
  - rewrite !(bindMessageHandlers_read _ _ _ _ _ _ Hread), find_handles_mapped.
    reflexivity.
  - rewrite !(bindMessageHandlers_unread _ _ _ _ _ Hread). reflexivity.
Qed.

(** * Further properties of [NotesService] *)

Ltac svc_steps :=
  cbv beta iota zeta delta
      [mbind Svc_bind mret Svc_ret svc_throw svc_call svc_attempt svc_debug
       save_note save_alias getLatestRevision fromRun
       Run_bind Run_ret emit await attempt throw logger_debug];
  cbn [completion gateway calls outcome final trace app fmap list_fmap].

Lemma checkNoteIdOrAlias_forbidden svc alias st :
  alias ∈ appConfig_forbiddenNoteIds svc →
  fromRun (checkNoteIdOrAlias svc alias) st =
    {| completion := Threw (ThrownError (ForbiddenIdError (forbiddenMessage alias)));
       gateway := st;
       calls := [ Traced (EvLog LogDebug "NotesService" (Some "checkNoteIdOrAlias")
                            (forbiddenMessage alias)) ] |}.
Proof.
  intros H. unfold checkNoteIdOrAlias. rewrite bool_decide_eq_true_2 by exact H.
  reflexivity.
Qed.

Lemma checkNoteIdOrAlias_allowed svc alias st :
  alias ∉ appConfig_forbiddenNoteIds svc →
  fromRun (checkNoteIdOrAlias svc alias) st =
    {| completion := Returned tt; gateway := st; calls := [] |}.
Proof.
  intros H. unfold checkNoteIdOrAlias. rewrite bool_decide_eq_false_2 by exact H.
  reflexivity.
Qed.

(** The runs of [createNote] that get as far as [noteRepository.save]. *)
Lemma createNote_saving svc db noteContent alias owner st :
  (∀ a, truthy alias = Some a → a ∉ appConfig_forbiddenNoteIds svc) →
  ∃ newNote,
    NoteEntity.revisions newNote = [Revision_create db noteContent noteContent] ∧
    NoteEntity.aliases newNote =
      match truthy alias with
      | Some a => [Alias_create db a (Some true)]
      | None => []
      end ∧
    NoteEntity.owner newNote =
      match owner with
      | Some o => Some o
      | None => NoteEntity.owner (Note_create db)
      end ∧
    NoteEntity.historyEntries newNote =
      match owner with
      | Some o => [HistoryEntry_create db o]
      | None => NoteEntity.historyEntries (Note_create db)
      end ∧
    NoteEntity.row newNote = NoteEntity.row (Note_create db) ∧
    createNote svc db noteContent alias owner st =
      match noteRepository_save db newNote with
      | Returned note =>
          {| completion := Returned note; gateway := st;
             calls := [NoteRepositorySave newNote] |}
      | Threw e =>
          match truthy alias with
          | Some a =>
              {| completion := Threw (AlreadyInDBError (alreadyExistsMessage a));
                 gateway := st;
                 calls := [ NoteRepositorySave newNote;
                            Traced (EvLog LogDebug "NotesService" (Some "createNote")
                                      (alreadyExistsMessage a)) ] |}
          | None =>
              {| completion := Threw e; gateway := st;
                 calls := [NoteRepositorySave newNote] |}
          end
      end.
Proof.
  intros Hallowed. unfold createNote.
  destruct (truthy alias) as [a|] eqn:Ha.
  - pose proof (checkNoteIdOrAlias_allowed svc a st (Hallowed a eq_refl)) as Hc.
    eexists. repeat (split; [shelve|]).
    cbv beta iota zeta delta [mbind Svc_bind]. rewrite Hc. svc_steps.
    destruct (noteRepository_save db _) as [note|e] eqn:Hs; svc_steps;
      rewrite Hs; reflexivity.
    Unshelve. all: destruct owner; reflexivity.
  - eexists. repeat (split; [shelve|]).
    svc_steps.
    destruct (noteRepository_save db _) as [note|e] eqn:Hs; svc_steps;
      rewrite Hs; reflexivity.
    Unshelve. all: destruct owner; reflexivity.
Qed.

Lemma createNote_forbidden svc db noteContent alias owner st a :
  truthy alias = Some a →
  a ∈ appConfig_forbiddenNoteIds svc →
  createNote svc db noteContent alias owner st =
    {| completion := Threw (ThrownError (ForbiddenIdError (forbiddenMessage a)));
       gateway := st;
       calls := [ Traced (EvLog LogDebug "NotesService" (Some "checkNoteIdOrAlias")
                            (forbiddenMessage a)) ] |}.
Proof.
  intros Ha Hf. unfold createNote. rewrite Ha.
  cbv beta iota zeta delta [mbind Svc_bind].
  rewrite (checkNoteIdOrAlias_forbidden _ _ _ Hf). reflexivity.
Qed.

(** X8. [createNote] with a forbidden alias throws [ForbiddenIdError] after
    the debug line of the check: nothing is saved and the repository is not
    called at all. *)
Theorem createNote_forbidden_alias_saves_nothing svc db noteContent alias owner st a :
  truthy alias = Some a →
  a ∈ appConfig_forbiddenNoteIds svc →
  createNote svc db noteContent alias owner st =
    {| completion := Threw (ThrownError (ForbiddenIdError (forbiddenMessage a)));
       gateway := st;
       calls := [ Traced (EvLog LogDebug "NotesService" (Some "checkNoteIdOrAlias")
                            (forbiddenMessage a)) ] |}.
Proof. apply createNote_forbidden. Qed.

Lemma createNote_forbidden_alias_witness :
  truthy (Some "forbidden") = Some "forbidden" ∧
  "forbidden" ∈ appConfig_forbiddenNoteIds sampleServices ∧
  createNote sampleServices samplePersistence "text" (Some "forbidden") None (attachAll []) =
    {| completion := Threw (ThrownError (ForbiddenIdError (forbiddenMessage "forbidden")));
       gateway := attachAll [];
       calls := [ Traced (EvLog LogDebug "NotesService" (Some "checkNoteIdOrAlias")
                            (forbiddenMessage "forbidden")) ] |}.
Proof.
  assert (Hf : "forbidden" ∈ appConfig_forbiddenNoteIds sampleServices)
    by (apply list_elem_of_singleton; reflexivity).
  split; [reflexivity|]. split; [exact Hf|].
  exact (createNote_forbidden_alias_saves_nothing sampleServices samplePersistence
           "text" (Some "forbidden") None (attachAll []) "forbidden" eq_refl Hf).
Defined.

(** X9. When [noteRepository.save] fails in [createNote], the error that
    reaches the caller depends on the alias alone: with an alias (given, not
    empty) it is [AlreadyInDBError] whatever made the save fail, without one
    it is the error of the save itself. *)
Theorem createNote_failed_save svc db noteContent alias owner st e :
  (∀ note, noteRepository_save db note = Threw e) →
  (∀ a, truthy alias = Some a → a ∉ appConfig_forbiddenNoteIds svc) →
  completion (createNote svc db noteContent alias owner st) =
    match truthy alias with
    | Some a => Threw (AlreadyInDBError (alreadyExistsMessage a))
    | None => Threw e
    end.
Proof.
  intros Hfail Hallowed.
  destruct (createNote_saving svc db noteContent alias owner st Hallowed)
    as (newNote & _ & _ & _ & _ & _ & ->).
  rewrite Hfail. destruct (truthy alias); reflexivity.
Qed.

Lemma createNote_failed_save_witness :
  let e := ThrownError (OtherError "connection lost") in
  let db := sampleFailingSave e in
  (∀ note, noteRepository_save db note = Threw e) ∧
  (∀ a, truthy (Some "fresh") = Some a → a ∉ appConfig_forbiddenNoteIds sampleServices) ∧
  completion (createNote sampleServices db "text" (Some "fresh") None (attachAll [])) =
    match truthy (Some "fresh") with
    | Some a => Threw (AlreadyInDBError (alreadyExistsMessage a))
    | None => Threw e
    end.
Proof.
  intros e db.
  assert (Hfail : ∀ note, noteRepository_save db note = Threw e) by reflexivity.
  assert (Hallowed : ∀ a, truthy (Some "fresh") = Some a →
                          a ∉ appConfig_forbiddenNoteIds sampleServices).
  { intros a [= <-] Hin. apply list_elem_of_singleton in Hin. discriminate. }
  split; [exact Hfail|]. split; [exact Hallowed|].
  exact (createNote_failed_save sampleServices db "text" (Some "fresh") None
           (attachAll []) e Hfail Hallowed).
Defined.

(** X10. An empty alias is no alias: [createNote] with [''] does what it does
    with none.  Whatever the arguments, the repository is asked to save at
    most once, and the note it is handed has one revision, with the content
    as content and as patch, the alias as its only alias when one is given
    (made with [primary = true]), and the owner when one is given. *)
Theorem createNote_builds_one_revision_one_alias svc db noteContent alias owner st :
  createNote svc db noteContent (Some "") owner st =
    createNote svc db noteContent None owner st ∧
  (length (List.filter isRepositoryCall
             (calls (createNote svc db noteContent alias owner st))) ≤ 1)%nat ∧
  ∀ note, NoteRepositorySave note ∈ calls (createNote svc db noteContent alias owner st) →
    NoteEntity.revisions note = [Revision_create db noteContent noteContent] ∧
    NoteEntity.aliases note =
      match truthy alias with
      | Some a => [Alias_create db a (Some true)]
      | None => []
      end ∧
    (∀ o, owner = Some o →
          NoteEntity.owner note = Some o ∧
          NoteEntity.historyEntries note = [HistoryEntry_create db o]).
Proof.
  split; [reflexivity|].
  assert (Hcases : (∀ a, truthy alias = Some a → a ∉ appConfig_forbiddenNoteIds svc) ∨
                   ∃ a, truthy alias = Some a ∧ a ∈ appConfig_forbiddenNoteIds svc).
  { destruct (truthy alias) as [a|]; [|left; intros a [=]].
    destruct (decide (a ∈ appConfig_forbiddenNoteIds svc)) as [Hf|Hn];
      [right; eauto|left; intros a' [= <-]; exact Hn]. }
  destruct Hcases as [Hallowed|(a & Halias & Hf)].
  - destruct (createNote_saving svc db noteContent alias owner st Hallowed)
      as (newNote & Hr & Hal & Ho & Hh & _ & ->).
    assert (Hsaved : ∀ note (l : list Call),
              NoteRepositorySave note ∈ NoteRepositorySave newNote :: l →
              (∀ c, c ∈ l → isRepositoryCall c = false) → note = newNote).
    { intros note l Hin Hl. apply elem_of_cons in Hin as [[= ->]|Hin]; [reflexivity|].
      specialize (Hl _ Hin). discriminate. }
    assert (Hgoal : ∀ note, note = newNote →
              NoteEntity.revisions note = [Revision_create db noteContent noteContent] ∧
              NoteEntity.aliases note =
                match truthy alias with
                | Some a => [Alias_create db a (Some true)]
                | None => []
                end ∧
              (∀ o, owner = Some o →
                    NoteEntity.owner note = Some o ∧
                    NoteEntity.historyEntries note = [HistoryEntry_create db o])).
    { intros note ->. split; [exact Hr|]. split; [exact Hal|].
      intros o ->. split; assumption. }
    destruct (noteRepository_save db newNote); [|destruct (truthy alias)];
      cbn [calls List.filter isRepositoryCall length];
      (split; [lia|]); intros note Hin; apply Hgoal;
      (eapply Hsaved; [exact Hin|]); intros c Hc;
      repeat (apply elem_of_cons in Hc as [->|Hc]; [reflexivity|]);
      by apply elem_of_nil in Hc.
  - rewrite (createNote_forbidden svc db noteContent alias owner st a Halias Hf).
    cbn [calls List.filter isRepositoryCall length]. split; [lia|].
    intros note Hin. apply list_elem_of_singleton in Hin. discriminate.
Qed.

(** ** [removeAlias] and [addAlias] *)

Lemma filter_length_all {A} (p : A → bool) (l : list A) :
  (length (List.filter p l) ≤ length l)%nat ∧
  (length (List.filter p l) = length l ↔ ∀ x, x ∈ l → p x = true).
Proof.
  induction l as [|x l [IHle IHeq]]; cbn [List.filter length].
  - split; [lia|]. split; [|reflexivity]. intros _ x Hx. by apply elem_of_nil in Hx.
  - destruct (p x) eqn:Hp; cbn [length].
    + split; [lia|]. split.
      * intros Hlen y Hy. apply elem_of_cons in Hy as [->|Hy]; [exact Hp|].
        apply IHeq; [lia|exact Hy].
      * intros Hall. f_equal. apply IHeq. intros y Hy. apply Hall.
        apply elem_of_cons. by right.
    + split; [lia|]. split; [lia|].
      intros Hall. specialize (Hall x (list_elem_of_here _ _)). congruence.
Qed.

Lemma keptByRemoveAlias_spec alias a :
  keptByRemoveAlias alias a = true ↔
  (AliasEntity.name a = alias → AliasEntity.primary a = true).
Proof.
  unfold keptByRemoveAlias. case_bool_decide as Hn; cbn [negb orb andb].
  - split; [intros H _; exact H|intros H; exact (H Hn)].
  - split; [intros _ Heq; destruct (Hn Heq)|reflexivity].
Qed.

Lemma removeAlias_cases db note alias st :
  let filtered := List.filter (keptByRemoveAlias alias) (NoteEntity.aliases note) in
  ((∀ a, a ∈ NoteEntity.aliases note → keptByRemoveAlias alias a = true) ∧
   removeAlias db note alias st = removeAlias_refusal alias st) ∨
  ((∃ a, a ∈ NoteEntity.aliases note ∧ keptByRemoveAlias alias a = false) ∧
   removeAlias db note alias st =
     {| completion := noteRepository_save db (NoteEntity.set_aliases note filtered);
        gateway := st;
        calls := [NoteRepositorySave (NoteEntity.set_aliases note filtered)] |}).
Proof.
  intros filtered. subst filtered. unfold removeAlias.
  destruct (filter_length_all (keptByRemoveAlias alias) (NoteEntity.aliases note))
    as [Hle Heq].
  destruct (Nat.eqb_spec (length (NoteEntity.aliases note))
              (length (List.filter (keptByRemoveAlias alias) (NoteEntity.aliases note))))
    as [Hlen|Hlen].
  - left. split; [apply Heq; lia|reflexivity].
  - right. split; [|reflexivity].
    destruct (List.existsb (λ a, negb (keptByRemoveAlias alias a)) (NoteEntity.aliases note))
      eqn:Hex.
    + apply List.existsb_exists in Hex as (a & Hin & Ha).
      exists a. split; [apply list_elem_of_In; exact Hin|].
      destruct (keptByRemoveAlias alias a); [discriminate|reflexivity].
    + destruct Hlen. symmetry. apply Heq. intros x Hx.
      destruct (keptByRemoveAlias alias x) eqn:Hk; [reflexivity|].
      assert (List.existsb (λ a, negb (keptByRemoveAlias alias a))
                (NoteEntity.aliases note) = true); [|congruence].
      apply List.existsb_exists. exists x. split; [by apply list_elem_of_In|].
      rewrite Hk. reflexivity.
Qed.

Lemma removeAlias_refuses db note alias st :
  (∀ a, a ∈ NoteEntity.aliases note →
        AliasEntity.name a = alias → AliasEntity.primary a = true) →
  removeAlias db note alias st = removeAlias_refusal alias st.
Proof.
  intros Hall.
  destruct (removeAlias_cases db note alias st) as [[_ ->]|[(a & Hin & Ha) _]];
    [reflexivity|].
  pose proof (proj2 (keptByRemoveAlias_spec _ _) (Hall a Hin)). congruence.
Qed.

(** X11. [removeAlias] throws [NotInDBError], after its debug line and
    without calling the repository, exactly when the note has no alias of
    that name that is not primary: the name is unknown to the note, or it
    is borne by primary aliases only. *)
Theorem removeAlias_throws_iff_nothing_removable db note alias st :
  (∀ a, a ∈ NoteEntity.aliases note →
        AliasEntity.name a = alias → AliasEntity.primary a = true) ↔
  removeAlias db note alias st = removeAlias_refusal alias st.
Proof.
  destruct (removeAlias_cases db note alias st) as [[Hall ->]|[(a & Hin & Ha) ->]].
  - split; [reflexivity|]. intros _ a Hin. apply keptByRemoveAlias_spec, Hall, Hin.
  - split.
    + intros Hall. pose proof (proj2 (keptByRemoveAlias_spec _ _) (Hall a Hin)).
      congruence.
    + intros H. apply (f_equal calls) in H. discriminate.
Qed.

Lemma filter_sublist {A} (p : A → bool) (l : list A) : List.filter p l `sublist_of` l.
Proof.
  induction l as [|x l IH]; cbn [List.filter]; [constructor|].
  destruct (p x); [by apply sublist_skip|by apply sublist_cons].
Qed.

(** X12. When the note has an alias of that name that is not primary,
    [removeAlias] saves the note once, changed in its aliases only: the
    aliases handed to [save] are those of the note, in their order, without
    the ones of that name that are not primary, so every primary alias and
    every alias of another name stays; what [save] returns is returned. *)
Theorem removeAlias_removes_only_that_alias db note alias st a :
  a ∈ NoteEntity.aliases note →
  AliasEntity.name a = alias →
  AliasEntity.primary a = false →
  ∃ saved,
    removeAlias db note alias st =
      {| completion := noteRepository_save db saved; gateway := st;
         calls := [NoteRepositorySave saved] |} ∧
    NoteEntity.row saved = NoteEntity.row note ∧
    NoteEntity.owner saved = NoteEntity.owner note ∧
    NoteEntity.revisions saved = NoteEntity.revisions note ∧
    NoteEntity.historyEntries saved = NoteEntity.historyEntries note ∧
    NoteEntity.aliases saved `sublist_of` NoteEntity.aliases note ∧
    (length (NoteEntity.aliases saved) < length (NoteEntity.aliases note))%nat ∧
    ∀ x, x ∈ NoteEntity.aliases saved ↔
         x ∈ NoteEntity.aliases note ∧
         (AliasEntity.name x = alias → AliasEntity.primary x = true).
Proof.
  intros Hin Hname Hprim.
  destruct (removeAlias_cases db note alias st) as [[Hall _]|[(b & Hb & Hk) ->]].
  { pose proof (proj1 (keptByRemoveAlias_spec _ _) (Hall a Hin) Hname). congruence. }
  eexists. split; [reflexivity|]. cbn [NoteEntity.set_aliases NoteEntity.row
    NoteEntity.owner NoteEntity.revisions NoteEntity.historyEntries NoteEntity.aliases].
  repeat (split; [reflexivity|]). split; [apply filter_sublist|]. split.
  - destruct (filter_length_all (keptByRemoveAlias alias) (NoteEntity.aliases note))
      as [Hle Heq].
    destruct (decide (length (List.filter (keptByRemoveAlias alias)
                                (NoteEntity.aliases note))
                      = length (NoteEntity.aliases note))) as [Hlen|Hlen]; [|lia].
    rewrite (proj1 Heq Hlen b Hb) in Hk. discriminate.
  - intros x. rewrite list_elem_of_In, List.filter_In, <- list_elem_of_In,
      keptByRemoveAlias_spec. reflexivity.
Qed.

Lemma removeAlias_removes_witness :
  let a := {| AliasEntity.id := "a2"; AliasEntity.name := "second";
              AliasEntity.primary := false |} in
  a ∈ NoteEntity.aliases sampleNote ∧
  AliasEntity.name a = "second" ∧
  AliasEntity.primary a = false ∧
  ∃ saved,
    removeAlias samplePersistence sampleNote "second" (attachAll []) =
      {| completion := noteRepository_save samplePersistence saved;
         gateway := attachAll [];
         calls := [NoteRepositorySave saved] |} ∧
    NoteEntity.row saved = NoteEntity.row sampleNote ∧
    NoteEntity.owner saved = NoteEntity.owner sampleNote ∧
    NoteEntity.revisions saved = NoteEntity.revisions sampleNote ∧
    NoteEntity.historyEntries saved = NoteEntity.historyEntries sampleNote ∧
    NoteEntity.aliases saved `sublist_of` NoteEntity.aliases sampleNote ∧
    (length (NoteEntity.aliases saved) < length (NoteEntity.aliases sampleNote))%nat ∧
    ∀ x, x ∈ NoteEntity.aliases saved ↔
         x ∈ NoteEntity.aliases sampleNote ∧
         (AliasEntity.name x = "second" → AliasEntity.primary x = true).
Proof.
  intros a.
  assert (Hin : a ∈ NoteEntity.aliases sampleNote) by in_trace.
  split; [exact Hin|]. split; [reflexivity|]. split; [reflexivity|].
  exact (removeAlias_removes_only_that_alias samplePersistence sampleNote "second"
           (attachAll []) a Hin eq_refl eq_refl).
Defined.

Lemma filter_idempotent {A} (p : A → bool) (l : list A) :
  List.filter p (List.filter p l) = List.filter p l.
Proof.
  induction l as [|x l IH]; [reflexivity|]. cbn [List.filter].
  destruct (p x) eqn:Hp; [cbn [List.filter]; rewrite Hp, IH|]; done.
Qed.

(** X13. Removing the same alias from the note that [removeAlias] handed to
    [save] removes nothing more: the second call throws [NotInDBError]
    without calling the repository. *)
Theorem removeAlias_again_throws db note alias st saved st' :
  NoteRepositorySave saved ∈ calls (removeAlias db note alias st) →
  removeAlias db saved alias st' = removeAlias_refusal alias st'.
Proof.
  intros Hin.
  destruct (removeAlias_cases db note alias st) as [[_ H]|[_ H]]; rewrite H in Hin;
    apply list_elem_of_singleton in Hin; [discriminate|]. injection Hin as ->.
  apply removeAlias_refuses.
  cbn [NoteEntity.set_aliases NoteEntity.aliases]. intros a Ha.
  apply keptByRemoveAlias_spec.
  apply list_elem_of_In, List.filter_In in Ha as [_ Hk]. exact Hk.
Qed.

Lemma removeAlias_again_witness :
  let saved := NoteEntity.set_aliases sampleNote
                 [ {| AliasEntity.id := "a1"; AliasEntity.name := "first";
                      AliasEntity.primary := true |} ] in
  NoteRepositorySave saved ∈
    calls (removeAlias samplePersistence sampleNote "second" (attachAll [])) ∧
  removeAlias samplePersistence saved "second" (attachAll [(1, "D")]) =
    removeAlias_refusal "second" (attachAll [(1, "D")]).
Proof.
  intros saved.
  assert (Hin : NoteRepositorySave saved ∈
                calls (removeAlias samplePersistence sampleNote "second" (attachAll [])))
    by (vm_compute; in_trace).
  split; [exact Hin|].
  exact (removeAlias_again_throws samplePersistence sampleNote "second" (attachAll [])
           saved (attachAll [(1, "D")]) Hin).
Defined.

Lemma addAlias_cases svc db note alias st :
  (alias ∈ appConfig_forbiddenNoteIds svc ∧
   addAlias svc db note alias st =
     {| completion := Threw (ThrownError (ForbiddenIdError (forbiddenMessage alias)));
        gateway := st;
        calls := [ Traced (EvLog LogDebug "NotesService" (Some "checkNoteIdOrAlias")
                             (forbiddenMessage alias)) ] |}) ∨
  ((alias ∉ appConfig_forbiddenNoteIds svc) ∧
   is_Some (aliasRepository_findOneByName db alias) ∧
   addAlias svc db note alias st =
     {| completion := Threw (AlreadyInDBError (alreadyUsedMessage alias));
        gateway := st;
        calls := [ AliasRepositoryFindOneByName alias;
                   Traced (EvLog LogDebug "NotesService" (Some "addAlias")
                             (alreadyUsedMessage alias)) ] |}) ∨
  ((alias ∉ appConfig_forbiddenNoteIds svc) ∧
   aliasRepository_findOneByName db alias = None ∧
   let saved := NoteEntity.set_aliases note
                  (NoteEntity.aliases note ++ [Alias_create db alias None])%list in
   addAlias svc db note alias st =
     {| completion := noteRepository_save db saved; gateway := st;
        calls := [AliasRepositoryFindOneByName alias; NoteRepositorySave saved] |}).
Proof.
  unfold addAlias. cbv beta iota zeta delta [mbind Svc_bind].
  destruct (decide (alias ∈ appConfig_forbiddenNoteIds svc)) as [Hf|Hn].
  - left. split; [exact Hf|]. rewrite (checkNoteIdOrAlias_forbidden _ _ _ Hf). reflexivity.
  - right. rewrite (checkNoteIdOrAlias_allowed _ _ _ Hn). svc_steps.
    destruct (aliasRepository_findOneByName db alias) as [found|] eqn:Hfound; svc_steps.
    + left. split; [exact Hn|]. split; [by eexists|reflexivity].
    + right. split; [exact Hn|]. split; [reflexivity|].
      destruct (noteRepository_save db _); reflexivity.
Qed.

(** X14. [addAlias] hands a note to [save] only for an alias that is not
    forbidden and that [aliasRepository.findOne] did not find; the note it
    hands over is the given one with the new alias, made by [Alias.create]
    without a primary flag, after all the earlier ones, and what [save]
    returns is returned. *)
Theorem addAlias_saves_only_new_allowed_alias svc db note alias st saved :
  NoteRepositorySave saved ∈ calls (addAlias svc db note alias st) →
  (alias ∉ appConfig_forbiddenNoteIds svc) ∧
  aliasRepository_findOneByName db alias = None ∧
  NoteEntity.aliases saved = (NoteEntity.aliases note ++ [Alias_create db alias None])%list ∧
  NoteEntity.row saved = NoteEntity.row note ∧
  completion (addAlias svc db note alias st) = noteRepository_save db saved ∧
  calls (addAlias svc db note alias st) =
    [AliasRepositoryFindOneByName alias; NoteRepositorySave saved].
Proof.
  intros Hin.
  destruct (addAlias_cases svc db note alias st)
    as [[_ H]|[(_ & _ & H)|(Hn & Hnone & H)]]; rewrite H in Hin |- *;
    cbn [calls completion] in Hin |- *.
  - apply list_elem_of_singleton in Hin. discriminate.
  - repeat (apply elem_of_cons in Hin as [?|Hin]; [discriminate|]).
    by apply elem_of_nil in Hin.
  - apply elem_of_cons in Hin as [?|Hin]; [discriminate|].
    apply list_elem_of_singleton in Hin. injection Hin as ->.
    repeat split; assumption.
Qed.

Lemma addAlias_saves_witness :
  let saved := NoteEntity.set_aliases sampleNote
                 (NoteEntity.aliases sampleNote ++ [Alias_create samplePersistence "third" None])%list in
  NoteRepositorySave saved ∈
    calls (addAlias sampleServices samplePersistence sampleNote "third" (attachAll [])) ∧
  ("third" ∉ appConfig_forbiddenNoteIds sampleServices) ∧
  aliasRepository_findOneByName samplePersistence "third" = None ∧
  NoteEntity.aliases saved =
    (NoteEntity.aliases sampleNote ++ [Alias_create samplePersistence "third" None])%list ∧
  NoteEntity.row saved = NoteEntity.row sampleNote ∧
  completion (addAlias sampleServices samplePersistence sampleNote "third" (attachAll []))
    = noteRepository_save samplePersistence saved ∧
  calls (addAlias sampleServices samplePersistence sampleNote "third" (attachAll [])) =
    [AliasRepositoryFindOneByName "third"; NoteRepositorySave saved].
Proof.
  intros saved.
  assert (Hin : NoteRepositorySave saved ∈
                calls (addAlias sampleServices samplePersistence sampleNote "third"
                         (attachAll [])))
    by (vm_compute; in_trace).
  split; [exact Hin|].
  exact (addAlias_saves_only_new_allowed_alias sampleServices samplePersistence
           sampleNote "third" (attachAll []) saved Hin).
Defined.

(** X15. [addAlias] refuses a forbidden alias with [ForbiddenIdError] before
    it looks at the repository, and an alias that [aliasRepository.findOne]
    finds with [AlreadyInDBError]; when both hold the first wins.  In either
    case nothing is written. *)
Theorem addAlias_refuses_forbidden_or_used svc db note alias st :
  alias ∈ appConfig_forbiddenNoteIds svc ∨
  is_Some (aliasRepository_findOneByName db alias) →
  ∃ e, completion (addAlias svc db note alias st) = Threw e ∧
       (alias ∈ appConfig_forbiddenNoteIds svc →
          e = ThrownError (ForbiddenIdError (forbiddenMessage alias)) ∧
          ∀ c, c ∈ calls (addAlias svc db note alias st) → isRepositoryCall c = false) ∧
       (alias ∉ appConfig_forbiddenNoteIds svc →
          e = AlreadyInDBError (alreadyUsedMessage alias)) ∧
       (∀ c, c ∈ calls (addAlias svc db note alias st) → isWrite c = false).
Proof.
  intros Hcause.
  destruct (addAlias_cases svc db note alias st)
    as [[Hf H]|[(Hn & Hsome & H)|(Hn & Hnone & H)]]; rewrite H; cbn [completion calls].
  - eexists. split; [reflexivity|]. split; [|split].
    + intros _. split; [reflexivity|].
      intros c ->%list_elem_of_singleton. reflexivity.
    + intros Hn. destruct (Hn Hf).
    + intros c ->%list_elem_of_singleton. reflexivity.
  - eexists. split; [reflexivity|]. split; [|split].
    + intros Hf. destruct (Hn Hf).
    + reflexivity.
    + intros c Hc. repeat (apply elem_of_cons in Hc as [->|Hc]; [reflexivity|]).
      by apply elem_of_nil in Hc.
  - destruct Hcause as [Hf|Hsome]; [destruct (Hn Hf)|].
    rewrite Hnone in Hsome. destruct Hsome as [? [=]].
Qed.

Lemma addAlias_refuses_witness :
  ("forbidden" ∈ appConfig_forbiddenNoteIds sampleServices ∨
   is_Some (aliasRepository_findOneByName samplePersistence "forbidden")) ∧
  ∃ e, completion (addAlias sampleServices samplePersistence sampleNote "forbidden"
                     (attachAll [])) = Threw e ∧
       ("forbidden" ∈ appConfig_forbiddenNoteIds sampleServices →
          e = ThrownError (ForbiddenIdError (forbiddenMessage "forbidden")) ∧
          ∀ c, c ∈ calls (addAlias sampleServices samplePersistence sampleNote
                            "forbidden" (attachAll [])) → isRepositoryCall c = false) ∧
       ("forbidden" ∉ appConfig_forbiddenNoteIds sampleServices →
          e = AlreadyInDBError (alreadyUsedMessage "forbidden")) ∧
       (∀ c, c ∈ calls (addAlias sampleServices samplePersistence sampleNote
                          "forbidden" (attachAll [])) → isWrite c = false).
Proof.
  assert (Hf : "forbidden" ∈ appConfig_forbiddenNoteIds sampleServices)
    by (apply list_elem_of_singleton; reflexivity).
  split; [left; exact Hf|].
  exact (addAlias_refuses_forbidden_or_used sampleServices samplePersistence sampleNote
           "forbidden" (attachAll []) (or_introl Hf)).
Defined.

(** X16. [removeAlias] undoes [addAlias]: when [Alias.create] makes an alias
    of the given name that is not primary and the note had no alias of that
    name but primary ones, removing the alias from the note that [addAlias]
    handed to [save] hands the original note to [save]. *)
Theorem removeAlias_undoes_addAlias svc db note alias st st' saved :
  AliasEntity.name (Alias_create db alias None) = alias →
  AliasEntity.primary (Alias_create db alias None) = false →
  (∀ a, a ∈ NoteEntity.aliases note →
        AliasEntity.name a = alias → AliasEntity.primary a = true) →
  NoteRepositorySave saved ∈ calls (addAlias svc db note alias st) →
  removeAlias db saved alias st' =
    {| completion := noteRepository_save db note; gateway := st';
       calls := [NoteRepositorySave note] |}.
Proof.
  intros Hname Hprim Hall Hin.
  destruct (addAlias_cases svc db note alias st)
    as [[_ H]|[(_ & _ & H)|(_ & _ & H)]]; rewrite H in Hin; cbn [calls] in Hin.
  { apply list_elem_of_singleton in Hin. discriminate. }
  { repeat (apply elem_of_cons in Hin as [?|Hin]; [discriminate|]).
    by apply elem_of_nil in Hin. }
  apply elem_of_cons in Hin as [?|Hin]; [discriminate|].
  apply list_elem_of_singleton in Hin. injection Hin as ->.
  destruct (removeAlias_cases db
              (NoteEntity.set_aliases note
                 (NoteEntity.aliases note ++ [Alias_create db alias None])%list) alias st')
    as [[Hkept _]|[_ ->]].
  - assert (Hnew : Alias_create db alias None ∈
                   NoteEntity.aliases
                     (NoteEntity.set_aliases note
                        (NoteEntity.aliases note ++ [Alias_create db alias None])%list)).
    { cbn [NoteEntity.set_aliases NoteEntity.aliases].
      apply elem_of_app. right. apply list_elem_of_here. }
    pose proof (proj1 (keptByRemoveAlias_spec _ _) (Hkept _ Hnew) Hname). congruence.
  - cbn [NoteEntity.set_aliases NoteEntity.aliases NoteEntity.row NoteEntity.owner
         NoteEntity.revisions NoteEntity.historyEntries].
    rewrite List.filter_app. cbn [List.filter].
    assert (Hnew : keptByRemoveAlias alias (Alias_create db alias None) = false).
    { destruct (keptByRemoveAlias alias (Alias_create db alias None)) eqn:Hk;
        [|reflexivity].
      pose proof (proj1 (keptByRemoveAlias_spec _ _) Hk Hname). congruence. }
    rewrite Hnew, app_nil_r.
    assert (Hsame : List.filter (keptByRemoveAlias alias) (NoteEntity.aliases note)
                    = NoteEntity.aliases note).
    { apply List.forallb_filter_id, List.forallb_forall. intros a Ha.
      apply keptByRemoveAlias_spec, Hall. by apply list_elem_of_In. }
    rewrite Hsame. destruct note. reflexivity.
Qed.

Lemma removeAlias_undoes_addAlias_witness :
  let saved := NoteEntity.set_aliases sampleNote
                 (NoteEntity.aliases sampleNote ++ [Alias_create samplePersistence "third" None])%list in
  AliasEntity.name (Alias_create samplePersistence "third" None) = "third" ∧
  AliasEntity.primary (Alias_create samplePersistence "third" None) = false ∧
  (∀ a, a ∈ NoteEntity.aliases sampleNote →
        AliasEntity.name a = "third" → AliasEntity.primary a = true) ∧
  NoteRepositorySave saved ∈
    calls (addAlias sampleServices samplePersistence sampleNote "third" (attachAll [])) ∧
  removeAlias samplePersistence saved "third" (attachAll []) =
    {| completion := noteRepository_save samplePersistence sampleNote;
       gateway := attachAll [];
       calls := [NoteRepositorySave sampleNote] |}.
Proof.
  intros saved.
  assert (Hall : ∀ a, a ∈ NoteEntity.aliases sampleNote →
                      AliasEntity.name a = "third" → AliasEntity.primary a = true).
  { intros a Ha. repeat (apply elem_of_cons in Ha as [->|Ha]; [intros [=]|]).
    by apply elem_of_nil in Ha. }
  assert (Hin : NoteRepositorySave saved ∈
                calls (addAlias sampleServices samplePersistence sampleNote "third"
                         (attachAll [])))
    by (vm_compute; in_trace).
  split; [reflexivity|]. split; [reflexivity|]. split; [exact Hall|].
  split; [exact Hin|].
  exact (removeAlias_undoes_addAlias sampleServices samplePersistence sampleNote "third"
           (attachAll []) (attachAll []) saved eq_refl eq_refl Hall Hin).
Defined.

(** ** [makeAliasPrimary] *)

Lemma makeAliasPrimary_loop_snoc l a alias :
  makeAliasPrimary_loop (l ++ [a]) alias =
    let '(newPrimaryFound, oldPrimaryId, newPrimaryId) := makeAliasPrimary_loop l alias in
    let oldPrimaryId :=
      if AliasEntity.primary a then AliasEntity.id a else oldPrimaryId in
    if bool_decide (AliasEntity.name a = alias)
    then (true, oldPrimaryId, AliasEntity.id a)
    else (newPrimaryFound, oldPrimaryId, newPrimaryId).
Proof.
  unfold makeAliasPrimary_loop. rewrite foldl_app. cbn [foldl].
  destruct (foldl _ _ l) as [[newPrimaryFound oldPrimaryId] newPrimaryId].
  reflexivity.
Qed.

(** What the loop leaves: whether some alias has the name, the id of the
    last primary alias and the id of the last alias of that name (the empty
    string where there is none). *)
Lemma makeAliasPrimary_loop_spec l alias :
  makeAliasPrimary_loop l alias =
    ( List.existsb (λ a, bool_decide (AliasEntity.name a = alias)) l,
      default "" (last (AliasEntity.id <$> List.filter AliasEntity.primary l)),
      default "" (last (AliasEntity.id <$>
                          List.filter (λ a, bool_decide (AliasEntity.name a = alias)) l)) ).
Proof.
  induction l as [|a l IH] using rev_ind; [reflexivity|].
  rewrite makeAliasPrimary_loop_snoc, IH.
  rewrite List.existsb_app, !List.filter_app, !fmap_app. cbn [List.existsb List.filter].
  destruct (AliasEntity.primary a), (bool_decide (AliasEntity.name a = alias));
    cbn [fmap list_fmap]; rewrite ?app_nil_r, ?last_snoc, ?orb_true_r, ?orb_false_r;
    reflexivity.
Qed.

Lemma existsb_named l alias :
  List.existsb (λ a, bool_decide (AliasEntity.name a = alias)) l = true ↔
  ∃ a, a ∈ l ∧ AliasEntity.name a = alias.
Proof.
  rewrite List.existsb_exists. split; intros (a & Hin & Ha); exists a.
  - split; [by apply list_elem_of_In|by apply bool_decide_eq_true_1 in Ha].
  - split; [by apply list_elem_of_In|by apply bool_decide_eq_true_2].
Qed.

Lemma filter_none {A} (p : A → bool) (l : list A) :
  (∀ x, x ∈ l → p x = false) → List.filter p l = [].
Proof.
  induction l as [|x l IH]; intros H; [reflexivity|]. cbn [List.filter].
  rewrite (H x (list_elem_of_here _ _)). apply IH.
  intros y Hy. apply H. by apply list_elem_of_further.
Qed.

(** X17. [makeAliasPrimary] for a name that no alias of the note bears throws
    [NotInDBError] after its debug line: the alias repository is neither
    read nor written, and the note is not looked up again. *)
Theorem makeAliasPrimary_unknown_alias svc db note alias st :
  (∀ a, a ∈ NoteEntity.aliases note → AliasEntity.name a ≠ alias) →
  makeAliasPrimary svc db note alias st =
    {| completion := Threw (ThrownError (NotInDBError (notUsedMessage alias)));
       gateway := st;
       calls := [ Traced (EvLog LogDebug "NotesService" (Some "makeAliasPrimary")
                            (notUsedMessage alias)) ] |}.
Proof.
  intros Hnone. unfold makeAliasPrimary. rewrite makeAliasPrimary_loop_spec.
  destruct (List.existsb _ (NoteEntity.aliases note)) eqn:Hex; [|reflexivity].
  apply existsb_named in Hex as (a & Hin & Ha). destruct (Hnone a Hin Ha).
Qed.

Lemma makeAliasPrimary_unknown_alias_witness :
  (∀ a, a ∈ NoteEntity.aliases sampleNote → AliasEntity.name a ≠ "third") ∧
  makeAliasPrimary sampleServices samplePersistence sampleNote "third" (attachAll []) =
    {| completion := Threw (ThrownError (NotInDBError (notUsedMessage "third")));
       gateway := attachAll [];
       calls := [ Traced (EvLog LogDebug "NotesService" (Some "makeAliasPrimary")
                            (notUsedMessage "third")) ] |}.
Proof.
  assert (Hnone : ∀ a, a ∈ NoteEntity.aliases sampleNote → AliasEntity.name a ≠ "third").
  { intros a Ha. repeat (apply elem_of_cons in Ha as [->|Ha]; [intros [=]|]).
    by apply elem_of_nil in Ha. }
  split; [exact Hnone|].
  exact (makeAliasPrimary_unknown_alias sampleServices samplePersistence sampleNote
           "third" (attachAll []) Hnone).
Defined.

(** X18. For a name that an alias of the note bears, [makeAliasPrimary] reads
    two rows by id, that of the last primary alias of the note (the empty id
    when the note has no primary alias) and that of the last alias of that
    name; when either row is missing it throws [Error('This should not
    happen!')] after the two reads and writes nothing. *)
Theorem makeAliasPrimary_missing_row svc db note alias st a :
  a ∈ NoteEntity.aliases note →
  AliasEntity.name a = alias →
  let oldPrimaryId :=
    default "" (last (AliasEntity.id <$>
                        List.filter AliasEntity.primary (NoteEntity.aliases note))) in
  let newPrimaryId :=
    default "" (last (AliasEntity.id <$>
                        List.filter (λ a, bool_decide (AliasEntity.name a = alias))
                          (NoteEntity.aliases note))) in
  aliasRepository_findOneById db oldPrimaryId = None ∨
  aliasRepository_findOneById db newPrimaryId = None →
  ((∀ b, b ∈ NoteEntity.aliases note → AliasEntity.primary b = false) →
     oldPrimaryId = "") ∧
  makeAliasPrimary svc db note alias st =
    {| completion := Threw (ThrownError (OtherError "This should not happen!"));
       gateway := st;
       calls := [ AliasRepositoryFindOneById oldPrimaryId;
                  AliasRepositoryFindOneById newPrimaryId ] |}.
Proof.
  intros Hin Hname oldPrimaryId newPrimaryId Hmissing. split.
  - intros Hnoprimary. subst oldPrimaryId.
    rewrite (filter_none _ _ Hnoprimary). reflexivity.
  - unfold makeAliasPrimary. rewrite makeAliasPrimary_loop_spec.
    rewrite (proj2 (existsb_named _ _) (ex_intro _ a (conj Hin Hname))).
    fold oldPrimaryId newPrimaryId. svc_steps.
    destruct Hmissing as [-> | ->];
      [|destruct (aliasRepository_findOneById db oldPrimaryId)]; reflexivity.
Qed.

Lemma makeAliasPrimary_missing_row_witness :
  let note :=
    NoteEntity.set_aliases sampleNote
      [ {| AliasEntity.id := "a2"; AliasEntity.name := "second";
           AliasEntity.primary := false |} ] in
  let a := {| AliasEntity.id := "a2"; AliasEntity.name := "second";
              AliasEntity.primary := false |} in
  a ∈ NoteEntity.aliases note ∧
  AliasEntity.name a = "second" ∧
  let oldPrimaryId :=
    default "" (last (AliasEntity.id <$>
                        List.filter AliasEntity.primary (NoteEntity.aliases note))) in
  let newPrimaryId :=
    default "" (last (AliasEntity.id <$>
                        List.filter (λ a, bool_decide (AliasEntity.name a = "second"))
                          (NoteEntity.aliases note))) in
  (aliasRepository_findOneById samplePersistence oldPrimaryId = None ∨
   aliasRepository_findOneById samplePersistence newPrimaryId = None) ∧
  ((∀ b, b ∈ NoteEntity.aliases note → AliasEntity.primary b = false) →
     oldPrimaryId = "") ∧
  makeAliasPrimary sampleServices samplePersistence note "second" (attachAll []) =
    {| completion := Threw (ThrownError (OtherError "This should not happen!"));
       gateway := attachAll [];
       calls := [ AliasRepositoryFindOneById oldPrimaryId;
                  AliasRepositoryFindOneById newPrimaryId ] |}.
Proof.
  intros note a.
  assert (Hin : a ∈ NoteEntity.aliases note) by in_trace.
  split; [exact Hin|]. split; [reflexivity|].
  intros oldPrimaryId newPrimaryId.
  assert (Hmissing : aliasRepository_findOneById samplePersistence oldPrimaryId = None ∨
                     aliasRepository_findOneById samplePersistence newPrimaryId = None)
    by (left; reflexivity).
  split; [exact Hmissing|].
  exact (makeAliasPrimary_missing_row sampleServices samplePersistence note "second"
           (attachAll []) a Hin eq_refl Hmissing).
Defined.

Lemma filter_traced (t : list Event) :
  List.filter isRepositoryCall (Traced <$> t) = [].
Proof. induction t as [|ev t IH]; [reflexivity|exact IH]. Qed.

(** X19. When both rows are found and both saves succeed, [makeAliasPrimary]
    writes twice, in this order: the row of the old primary alias with
    [primary = false], then the row of the alias of the given name with
    [primary = true] (so a name that already is the primary one is written
    last as primary); then it looks the note up again by its public id and
    completes as that lookup does. *)
Theorem makeAliasPrimary_writes_old_then_new svc db note alias st a
    oldPrimary newPrimary savedOld savedNew :
  a ∈ NoteEntity.aliases note →
  AliasEntity.name a = alias →
  let oldPrimaryId :=
    default "" (last (AliasEntity.id <$>
                        List.filter AliasEntity.primary (NoteEntity.aliases note))) in
  let newPrimaryId :=
    default "" (last (AliasEntity.id <$>
                        List.filter (λ a, bool_decide (AliasEntity.name a = alias))
                          (NoteEntity.aliases note))) in
  aliasRepository_findOneById db oldPrimaryId = Some oldPrimary →
  aliasRepository_findOneById db newPrimaryId = Some newPrimary →
  aliasRepository_save db (AliasEntity.set_primary oldPrimary false) = Returned savedOld →
  aliasRepository_save db (AliasEntity.set_primary newPrimary true) = Returned savedNew →
  let r := makeAliasPrimary svc db note alias st in
  let lookup := getNoteByIdOrAlias svc (Note.publicId (NoteEntity.row note)) st in
  List.filter isRepositoryCall (calls r) =
    [ AliasRepositoryFindOneById oldPrimaryId;
      AliasRepositoryFindOneById newPrimaryId;
      AliasRepositorySave (AliasEntity.set_primary oldPrimary false);
      AliasRepositorySave (AliasEntity.set_primary newPrimary true) ] ∧
  calls r =
    ([ AliasRepositoryFindOneById oldPrimaryId;
       AliasRepositoryFindOneById newPrimaryId;
       AliasRepositorySave (AliasEntity.set_primary oldPrimary false);
       AliasRepositorySave (AliasEntity.set_primary newPrimary true) ]
     ++ (Traced <$> trace lookup))%list ∧
  completion r =
    match outcome lookup with
    | Fulfilled found => Returned found
    | Rejected e => Threw (ThrownError e)
    end.
Proof.
  intros Hin Hname oldPrimaryId newPrimaryId Hold Hnew HsaveOld HsaveNew r lookup.
  subst r lookup. unfold makeAliasPrimary. rewrite makeAliasPrimary_loop_spec.
  rewrite (proj2 (existsb_named _ _) (ex_intro _ a (conj Hin Hname))).
  cbn [negb]. fold oldPrimaryId newPrimaryId. svc_steps. rewrite Hold, Hnew. svc_steps.
  rewrite HsaveOld. svc_steps. rewrite HsaveNew. svc_steps.
  split; [|split; reflexivity].
  cbn [List.filter isRepositoryCall]. do 4 f_equal. apply filter_traced.
Qed.

Lemma makeAliasPrimary_writes_witness :
  let a := {| AliasEntity.id := "a2"; AliasEntity.name := "second";
              AliasEntity.primary := false |} in
  let oldPrimary := {| AliasEntity.id := "a1"; AliasEntity.name := "first";
                       AliasEntity.primary := true |} in
  a ∈ NoteEntity.aliases sampleNote ∧
  AliasEntity.name a = "second" ∧
  let oldPrimaryId :=
    default "" (last (AliasEntity.id <$>
                        List.filter AliasEntity.primary (NoteEntity.aliases sampleNote))) in
  let newPrimaryId :=
    default "" (last (AliasEntity.id <$>
                        List.filter (λ a, bool_decide (AliasEntity.name a = "second"))
                          (NoteEntity.aliases sampleNote))) in
  aliasRepository_findOneById samplePersistence oldPrimaryId = Some oldPrimary ∧
  aliasRepository_findOneById samplePersistence newPrimaryId = Some a ∧
  aliasRepository_save samplePersistence (AliasEntity.set_primary oldPrimary false)
    = Returned (AliasEntity.set_primary oldPrimary false) ∧
  aliasRepository_save samplePersistence (AliasEntity.set_primary a true)
    = Returned (AliasEntity.set_primary a true) ∧
  let r := makeAliasPrimary sampleServices samplePersistence sampleNote "second"
             (attachAll []) in
  let lookup := getNoteByIdOrAlias sampleServices
                  (Note.publicId (NoteEntity.row sampleNote)) (attachAll []) in
  List.filter isRepositoryCall (calls r) =
    [ AliasRepositoryFindOneById oldPrimaryId;
      AliasRepositoryFindOneById newPrimaryId;
      AliasRepositorySave (AliasEntity.set_primary oldPrimary false);
      AliasRepositorySave (AliasEntity.set_primary a true) ] ∧
  calls r =
    ([ AliasRepositoryFindOneById oldPrimaryId;
       AliasRepositoryFindOneById newPrimaryId;
       AliasRepositorySave (AliasEntity.set_primary oldPrimary false);
       AliasRepositorySave (AliasEntity.set_primary a true) ]
     ++ (Traced <$> trace lookup))%list ∧
  completion r =
    match outcome lookup with
    | Fulfilled found => Returned found
    | Rejected e => Threw (ThrownError e)
    end.
Proof.
  intros a oldPrimary.
  assert (Hin : a ∈ NoteEntity.aliases sampleNote) by in_trace.
  split; [exact Hin|]. split; [reflexivity|].
  intros oldPrimaryId newPrimaryId.
  split; [reflexivity|]. split; [reflexivity|].
  split; [reflexivity|]. split; [reflexivity|].
  exact (makeAliasPrimary_writes_old_then_new sampleServices samplePersistence
           sampleNote "second" (attachAll []) a oldPrimary a
           (AliasEntity.set_primary oldPrimary false) (AliasEntity.set_primary a true)
           Hin eq_refl eq_refl eq_refl eq_refl eq_refl).
Defined.

(** ** [calculateUpdateUser] *)

Lemma calculateUpdateUser_read db note st lastRevision :
  revisionsService_getLatestRevision db (Note.id (NoteEntity.row note))
    = Returned lastRevision →
  calculateUpdateUser db note st =
    {| completion :=
         match lastRevision with
         | Some lastRevision =>
             match Revision.edits lastRevision with
             | Some edits =>
                 match Array_sort (λ a b, (updatedAt b - updatedAt a)%Z) edits with
                 | first :: _ => Returned (author_user first)
                 | [] => Threw TypeError
                 end
             | None => Returned (NoteEntity.owner note)
             end
         | None => Returned (NoteEntity.owner note)
         end;
       gateway := st;
       calls := [RevisionsGetLatestRevision (Note.id (NoteEntity.row note))] |}.
Proof.
  intros Hrev. unfold calculateUpdateUser. svc_steps. rewrite Hrev. svc_steps.
  destruct lastRevision as [lastRevision|]; [|reflexivity].
  destruct (Revision.edits lastRevision) as [edits|]; [|reflexivity].
  destruct (Array_sort _ edits); reflexivity.
Qed.

(** X20. [calculateUpdateUser] answers with the owner of the note only when
    there is no latest revision or the revision has no list of edits; a
    revision whose list of edits is empty makes it throw a [TypeError]
    (the first element of the sorted empty list is [undefined]). *)
Theorem calculateUpdateUser_owner_or_TypeError db note st lastRevision :
  revisionsService_getLatestRevision db (Note.id (NoteEntity.row note))
    = Returned lastRevision →
  (lastRevision = None ∨ (∃ r, lastRevision = Some r ∧ Revision.edits r = None) →
     completion (calculateUpdateUser db note st) = Returned (NoteEntity.owner note)) ∧
  (∀ r, lastRevision = Some r → Revision.edits r = Some [] →
     completion (calculateUpdateUser db note st) = Threw TypeError) ∧
  calls (calculateUpdateUser db note st) =
    [RevisionsGetLatestRevision (Note.id (NoteEntity.row note))].
Proof.
  intros Hrev. rewrite (calculateUpdateUser_read _ _ _ _ Hrev).
  cbn [completion calls]. split; [|split; [|reflexivity]].
  - intros [-> | (r & -> & ->)]; reflexivity.
  - intros r -> ->. reflexivity.
Qed.

Lemma calculateUpdateUser_owner_or_TypeError_witness :
  let r := {| Revision.content := "text"; Revision.patch := "text";
              Revision.edits := Some []; Revision.createdAt := 5 |} in
  let db := sampleWithRevision (Some r) in
  revisionsService_getLatestRevision db (Note.id (NoteEntity.row sampleNote))
    = Returned (Some r) ∧
  (Some r = None ∨ (∃ r', Some r = Some r' ∧ Revision.edits r' = None) →
     completion (calculateUpdateUser db sampleNote (attachAll []))
       = Returned (NoteEntity.owner sampleNote)) ∧
  (∀ r', Some r = Some r' → Revision.edits r' = Some [] →
     completion (calculateUpdateUser db sampleNote (attachAll [])) = Threw TypeError) ∧
  calls (calculateUpdateUser db sampleNote (attachAll [])) =
    [RevisionsGetLatestRevision (Note.id (NoteEntity.row sampleNote))].
Proof.
  intros r db. split; [reflexivity|].
  exact (calculateUpdateUser_owner_or_TypeError db sampleNote (attachAll []) (Some r)
           eq_refl).
Defined.

(** The sorted list starts with the first of the latest edits. *)
Lemma Array_sort_latest_first (edits : list Edit) :
  edits ≠ [] →
  ∃ before latest after rest,
    edits = (before ++ latest :: after)%list ∧
    (∀ e, e ∈ before → (updatedAt e < updatedAt latest)%Z) ∧
    (∀ e, e ∈ after → (updatedAt e ≤ updatedAt latest)%Z) ∧
    Array_sort (λ a b, (updatedAt b - updatedAt a)%Z) edits = latest :: rest.
Proof.
  induction edits as [|x edits IH]; [done|]. intros _.
  destruct edits as [|y edits].
  - exists [], x, [], []. split; [reflexivity|].
    split; [intros e He; by apply elem_of_nil in He|].
    split; [intros e He; by apply elem_of_nil in He|reflexivity].
  - destruct IH as (before & latest & after & rest & Hedits & Hbefore & Hafter & Hsort);
      [discriminate|].
    unfold Array_sort in *. cbn [foldr] in *. rewrite Hsort.
    cbn [Array_sort_insert].
    destruct (Z.leb_spec (updatedAt latest - updatedAt x) 0) as [Hle|Hgt].
    + exists [], x, (y :: edits), (latest :: rest). split; [reflexivity|].
      split; [intros e He; by apply elem_of_nil in He|]. split; [|reflexivity].
      intros e He. rewrite Hedits in He.
      apply elem_of_app in He as [He|He]; [specialize (Hbefore e He); lia|].
      apply elem_of_cons in He as [->|He]; [lia|]. specialize (Hafter e He). lia.
    + eexists (x :: before), latest, after, _.
      split; [rewrite Hedits; reflexivity|]. split; [|split; [exact Hafter|reflexivity]].
      intros e He. apply elem_of_cons in He as [->|He]; [lia|exact (Hbefore e He)].
Qed.

(** X21. When the latest revision has edits, [calculateUpdateUser] returns
    the user of the author of the most recently updated edit, the first in
    the list among edits updated at the same time; it returns that user
    even when it is [null], and not the owner of the note. *)
Theorem calculateUpdateUser_latest_edit db note st lastRevision edits :
  revisionsService_getLatestRevision db (Note.id (NoteEntity.row note))
    = Returned (Some lastRevision) →
  Revision.edits lastRevision = Some edits →
  edits ≠ [] →
  ∃ before latest after,
    edits = (before ++ latest :: after)%list ∧
    (∀ e, e ∈ before → (updatedAt e < updatedAt latest)%Z) ∧
    (∀ e, e ∈ after → (updatedAt e ≤ updatedAt latest)%Z) ∧
    completion (calculateUpdateUser db note st) = Returned (author_user latest).
Proof.
  intros Hrev Hedits Hne. rewrite (calculateUpdateUser_read _ _ _ _ Hrev).
  cbn [completion]. rewrite Hedits.
  destruct (Array_sort_latest_first edits Hne)
    as (before & latest & after & rest & H1 & H2 & H3 & ->).
  exists before, latest, after. repeat split; assumption.
Qed.

Lemma calculateUpdateUser_latest_edit_witness :
  let edits := [ {| updatedAt := 10; author_user := Some {| userName := "ann" |} |};
                 {| updatedAt := 30; author_user := None |};
                 {| updatedAt := 30; author_user := Some {| userName := "bob" |} |} ] in
  let r := {| Revision.content := "text"; Revision.patch := "text";
              Revision.edits := Some edits; Revision.createdAt := 5 |} in
  let db := sampleWithRevision (Some r) in
  revisionsService_getLatestRevision db (Note.id (NoteEntity.row sampleNote))
    = Returned (Some r) ∧
  Revision.edits r = Some edits ∧
  edits ≠ [] ∧
  ∃ before latest after,
    edits = (before ++ latest :: after)%list ∧
    (∀ e, e ∈ before → (updatedAt e < updatedAt latest)%Z) ∧
    (∀ e, e ∈ after → (updatedAt e ≤ updatedAt latest)%Z) ∧
    completion (calculateUpdateUser db sampleNote (attachAll []))
      = Returned (author_user latest).
Proof.
  intros edits r db.
  assert (Hne : edits ≠ []) by discriminate.
  split; [reflexivity|]. split; [reflexivity|]. split; [exact Hne|].
  exact (calculateUpdateUser_latest_edit db sampleNote (attachAll []) r edits
           eq_refl eq_refl Hne).
Defined.

(** ** [getNoteByIdOrAlias] *)

Lemma noteQuery_where_spec svc x note :
  noteQuery_where svc x note = true ↔
  Note.publicId note = x ∨
  ∃ a, a ∈ aliasRepository svc ∧ Alias.name a = x ∧ Alias.noteId a = Note.id note.
Proof.
  unfold noteQuery_where. rewrite orb_true_iff, !bool_decide_eq_true.
  rewrite list_elem_of_fmap. split; (intros [H|H]; [by left|right]).
  - destruct H as (a & Hid & Ha). apply list_elem_of_filter in Ha as [Hname Hin].
    exists a. repeat split; [exact Hin|exact Hname|by symmetry].
  - destruct H as (a & Hin & Hname & Hid). exists a. split; [by symmetry|].
    apply list_elem_of_filter. split; assumption.
Qed.

Lemma find_first {A} (p : A → bool) (l : list A) :
  match List.find p l with
  | Some x => ∃ before after, l = (before ++ x :: after)%list ∧ p x = true ∧
                              ∀ y, y ∈ before → p y = false
  | None => ∀ y, y ∈ l → p y = false
  end.
Proof.
  induction l as [|z l IH]; cbn [List.find].
  - intros y Hy. by apply elem_of_nil in Hy.
  - destruct (p z) eqn:Hz.
    + exists [], l. split; [reflexivity|]. split; [exact Hz|].
      intros y Hy. by apply elem_of_nil in Hy.
    + destruct (List.find p l) as [x|].
      * destruct IH as (before & after & -> & Hx & Hbefore).
        exists (z :: before), after. split; [reflexivity|]. split; [exact Hx|].
        intros y Hy. apply elem_of_cons in Hy as [->|Hy]; [exact Hz|exact (Hbefore y Hy)].
      * intros y Hy. apply elem_of_cons in Hy as [->|Hy]; [exact Hz|exact (IH y Hy)].
Qed.

(** X22. [getNoteByIdOrAlias] never touches the registry.  When it fulfils,
    the id is not forbidden and the note is the first row of the note
    repository whose public id is the given string or whose id is the note
    id of an alias of that name.  It rejects with [ForbiddenIdError] exactly
    for a forbidden id, whether or not a note bears it, and with
    [NotInDBError] exactly for an id that is not forbidden and that no row
    matches. *)
Theorem getNoteByIdOrAlias_returns_first_match svc x st :
  let matches (note : Note.t) :=
    Note.publicId note = x ∨
    ∃ a, a ∈ aliasRepository svc ∧ Alias.name a = x ∧ Alias.noteId a = Note.id note in
  final (getNoteByIdOrAlias svc x st) = st ∧
  match outcome (getNoteByIdOrAlias svc x st) with
  | Fulfilled note =>
      (x ∉ appConfig_forbiddenNoteIds svc) ∧
      ∃ before after,
        noteRepository svc = (before ++ note :: after)%list ∧
        matches note ∧
        ∀ n, n ∈ before → ¬ matches n
  | Rejected e =>
      (x ∈ appConfig_forbiddenNoteIds svc ∧
       e = ForbiddenIdError (forbiddenMessage x)) ∨
      ((x ∉ appConfig_forbiddenNoteIds svc) ∧
       e = NotInDBError (notFoundMessage x) ∧
       ∀ n, n ∈ noteRepository svc → ¬ matches n)
  end.
Proof.
  intros matches.
  destruct (getNoteByIdOrAlias_run svc x st) as [Hfinal Hrun].
  split; [exact Hfinal|].
  pose proof (find_first (noteQuery_where svc x) (noteRepository svc)) as Hfind.
  fold (noteQuery_getOne svc x) in Hfind.
  assert (Hno : ∀ n, noteQuery_where svc x n = false → ¬ matches n).
  { intros n Hn Hm. apply noteQuery_where_spec in Hm. congruence. }
  destruct Hrun as [Hf|Hn Hq|note Hn Hq]; rewrite ?Hq in Hfind.
  - by left.
  - right. split; [exact Hn|]. split; [reflexivity|].
    intros n Hin. exact (Hno n (Hfind n Hin)).
  - split; [exact Hn|].
    destruct Hfind as (before & after & Hrepo & Hm & Hbefore).
    exists before, after. split; [exact Hrepo|].
    split; [by apply noteQuery_where_spec|].
    intros n Hin. exact (Hno n (Hbefore n Hin)).
Qed.

(** ** [toNoteMetadataDto] and [toNoteDto] *)

(** [calculateUpdateUser] makes one call, for the latest revision, and leaves
    the gateway alone, whatever it completes with. *)
Lemma calculateUpdateUser_shape db note st :
  calculateUpdateUser db note st =
    {| completion := completion (calculateUpdateUser db note st);
       gateway := st;
       calls := [RevisionsGetLatestRevision (Note.id (NoteEntity.row note))] |}.
Proof.
  unfold calculateUpdateUser. svc_steps.
  destruct (revisionsService_getLatestRevision db _) as [[lastRevision|]|e];
    svc_steps; try reflexivity.
  destruct (Revision.edits lastRevision) as [edits|]; [|reflexivity].
  destruct (Array_sort _ edits); reflexivity.
Qed.

(** The steps of [toNoteMetadataDto] after [calculateUpdateUser] returned. *)
Lemma toNoteMetadataDto_steps {U G} db (to : Mappers U G) note st u :
  completion (calculateUpdateUser db note st) = Returned u →
  let id := Note.id (NoteEntity.row note) in
  toNoteMetadataDto db to note st =
    match NoteEntity.aliases note,
          List.filter AliasEntity.primary (NoteEntity.aliases note) with
    | _ :: _, [] =>
        {| completion := Threw TypeError; gateway := st;
           calls := [RevisionsGetLatestRevision id] |}
    | _, primaries =>
        match revisionsService_getFirstRevision db id with
        | Threw e =>
            {| completion := Threw e; gateway := st;
               calls := [RevisionsGetLatestRevision id; RevisionsGetFirstRevision id] |}
        | Returned None =>
            {| completion := Threw TypeError; gateway := st;
               calls := [RevisionsGetLatestRevision id; RevisionsGetFirstRevision id] |}
        | Returned (Some firstRevision) =>
            match userRepository_authorsOfNote db id with
            | Threw e =>
                {| completion := Threw e; gateway := st;
                   calls := [RevisionsGetLatestRevision id; RevisionsGetFirstRevision id;
                             UserRepositoryAuthorsOfNote id] |}
            | Returned authors =>
                {| completion :=
                     match revisionsService_getLatestRevision db id with
                     | Threw e => Threw e
                     | Returned None => Threw TypeError
                     | Returned (Some latestRevision) =>
                         Returned
                           {| NoteMetadataDto.id := Note.publicId (NoteEntity.row note);
                              NoteMetadataDto.aliases :=
                                AliasEntity.name <$> NoteEntity.aliases note;
                              NoteMetadataDto.primaryAlias :=
                                AliasEntity.name <$> head primaries;
                              NoteMetadataDto.title := default "" (NoteEntity.title note);
                              NoteMetadataDto.createTime := Revision.createdAt firstRevision;
                              NoteMetadataDto.description :=
                                default "" (NoteEntity.description note);
                              NoteMetadataDto.editedBy := userName <$> authors;
                              NoteMetadataDto.permissions := toNotePermissionsDto to note;
                              NoteMetadataDto.tags := toTagList note;
                              NoteMetadataDto.updateTime := Revision.createdAt latestRevision;
                              NoteMetadataDto.updateUser := usersService_toUserDto to <$> u;
                              NoteMetadataDto.viewCount := NoteEntity.viewCount note |}
                     end;
                   gateway := st;
                   calls := [RevisionsGetLatestRevision id; RevisionsGetFirstRevision id;
                             UserRepositoryAuthorsOfNote id; RevisionsGetLatestRevision id] |}
            end
        end
    end.
Proof.
  intros Hu id. unfold toNoteMetadataDto.
  cbv beta iota zeta delta [mbind Svc_bind].
  rewrite (calculateUpdateUser_shape db note st), Hu. cbn [completion gateway calls].
  subst id. unfold getFirstRevision, getAuthorUsers.
  destruct (NoteEntity.aliases note) as [|a l] eqn:Hal.
  - cbn [length Nat.eqb negb List.filter head fmap option_fmap option_map].
    svc_steps.
    destruct (revisionsService_getFirstRevision db _) as [[firstRevision|]|e];
      svc_steps; try reflexivity.
    destruct (userRepository_authorsOfNote db _) as [authors|e];
      svc_steps; try reflexivity.
    destruct (revisionsService_getLatestRevision db _) as [[latestRevision|]|e];
      svc_steps; reflexivity.
  - cbn [length Nat.eqb negb].
    destruct (List.filter AliasEntity.primary (a :: l)) as [|first rest].
    + reflexivity.
    + svc_steps.
      destruct (revisionsService_getFirstRevision db _) as [[firstRevision|]|e];
        svc_steps; try reflexivity.
      destruct (userRepository_authorsOfNote db _) as [authors|e];
        svc_steps; try reflexivity.
      destruct (revisionsService_getLatestRevision db _) as [[latestRevision|]|e];
        svc_steps; reflexivity.
Qed.

(** When [calculateUpdateUser] throws, so does [toNoteMetadataDto], at once. *)
Lemma toNoteMetadataDto_threw_early {U G} db (to : Mappers U G) note st e :
  completion (calculateUpdateUser db note st) = Threw e →
  toNoteMetadataDto db to note st =
    {| completion := Threw e; gateway := st;
       calls := [RevisionsGetLatestRevision (Note.id (NoteEntity.row note))] |}.
Proof.
  intros He. unfold toNoteMetadataDto.
  cbv beta iota zeta delta [mbind Svc_bind].
  rewrite (calculateUpdateUser_shape db note st), He. reflexivity.
Qed.

(** X23. A note that has aliases none of which is primary has no metadata:
    once [calculateUpdateUser] has returned, [toNoteMetadataDto] throws a
    [TypeError] on reading the name of the first primary alias, before it
    asks for the first revision or the authors; the one call made is the one
    of [calculateUpdateUser]. *)
Theorem toNoteMetadataDto_aliases_without_primary {U G} db (to : Mappers U G)
    note st u :
  completion (calculateUpdateUser db note st) = Returned u →
  NoteEntity.aliases note ≠ [] →
  (∀ a, a ∈ NoteEntity.aliases note → AliasEntity.primary a = false) →
  toNoteMetadataDto db to note st =
    {| completion := Threw TypeError; gateway := st;
       calls := [RevisionsGetLatestRevision (Note.id (NoteEntity.row note))] |}.
Proof.
  intros Hu Hne Hall. rewrite (toNoteMetadataDto_steps db to note st u Hu).
  rewrite (filter_none _ _ Hall).
  destruct (NoteEntity.aliases note); [done|reflexivity].
Qed.

Lemma toNoteMetadataDto_aliases_without_primary_witness :
  let note := NoteEntity.set_aliases sampleNote
                [ {| AliasEntity.id := "a2"; AliasEntity.name := "second";
                     AliasEntity.primary := false |} ] in
  let r := {| Revision.content := "text"; Revision.patch := "text";
              Revision.edits := None; Revision.createdAt := 5 |} in
  toNoteMetadataDto (sampleWithRevision (Some r)) sampleMappers note (attachAll []) =
    {| completion := Threw TypeError; gateway := attachAll [];
       calls := [RevisionsGetLatestRevision (Note.id (NoteEntity.row note))] |}.
Proof.
  intros note r.
  apply (toNoteMetadataDto_aliases_without_primary (sampleWithRevision (Some r))
           sampleMappers note (attachAll []) (NoteEntity.owner note)).
  - reflexivity.
  - discriminate.
  - intros a Ha. apply list_elem_of_singleton in Ha. rewrite Ha. reflexivity.
Defined.

(** X24. When [toNoteMetadataDto] returns, it has asked, in this order and for
    the id of the note, for the latest revision, the first revision, the
    authors and the latest revision again, and nothing else; the gateway is
    as before; the creation and update times are those of the first and of
    the latest revision, [editedBy] the names of the authors; and
    [primaryAlias] is the name of the first primary alias of the note, which
    is [null] exactly when the note has no alias at all. *)
Theorem toNoteMetadataDto_returned {U G} db (to : Mappers U G) note st dto :
  completion (toNoteMetadataDto db to note st) = Returned dto →
  let id := Note.id (NoteEntity.row note) in
  gateway (toNoteMetadataDto db to note st) = st ∧
  calls (toNoteMetadataDto db to note st) =
    [RevisionsGetLatestRevision id; RevisionsGetFirstRevision id;
     UserRepositoryAuthorsOfNote id; RevisionsGetLatestRevision id] ∧
  (∃ firstRevision latestRevision authors,
     revisionsService_getFirstRevision db id = Returned (Some firstRevision) ∧
     revisionsService_getLatestRevision db id = Returned (Some latestRevision) ∧
     userRepository_authorsOfNote db id = Returned authors ∧
     NoteMetadataDto.createTime dto = Revision.createdAt firstRevision ∧
     NoteMetadataDto.updateTime dto = Revision.createdAt latestRevision ∧
     NoteMetadataDto.editedBy dto = userName <$> authors) ∧
  NoteMetadataDto.aliases dto = AliasEntity.name <$> NoteEntity.aliases note ∧
  NoteMetadataDto.primaryAlias dto =
    AliasEntity.name <$> head (List.filter AliasEntity.primary (NoteEntity.aliases note)) ∧
  (NoteMetadataDto.primaryAlias dto = None ↔ NoteEntity.aliases note = []).
Proof.
  intros Hret id.
  destruct (completion (calculateUpdateUser db note st)) as [u|e] eqn:Hu.
  2: { rewrite (toNoteMetadataDto_threw_early db to note st e Hu) in Hret.
       discriminate. }
  rewrite (toNoteMetadataDto_steps db to note st u Hu) in Hret |- *.
  cbv zeta in Hret |- *. fold id in Hret |- *.
  assert (Hcases :
    (NoteEntity.aliases note = []) ∨
    (∃ first rest, List.filter AliasEntity.primary (NoteEntity.aliases note) = first :: rest
                   ∧ NoteEntity.aliases note ≠ [])).
  { destruct (NoteEntity.aliases note) as [|a l] eqn:Hal; [by left|].
    destruct (List.filter AliasEntity.primary (a :: l)) as [|first rest] eqn:Hf.
    - discriminate.
    - right. by exists first, rest. }
  assert (Hsame :
    match NoteEntity.aliases note,
          List.filter AliasEntity.primary (NoteEntity.aliases note) return Prop with
    | _ :: _, [] => False
    | _, _ => True
    end).
  { destruct Hcases as [->|(first & rest & -> & _)]; [exact I|].
    by destruct (NoteEntity.aliases note). }
  destruct (revisionsService_getFirstRevision db id) as [[firstRevision|]|e] eqn:Hfirst.
  2,3: by destruct (NoteEntity.aliases note) as [|? ?],
            (List.filter AliasEntity.primary _) as [|? ?].
  destruct (userRepository_authorsOfNote db id) as [authors|e] eqn:Hauthors.
  2: by destruct (NoteEntity.aliases note) as [|? ?],
          (List.filter AliasEntity.primary _) as [|? ?].
  destruct (revisionsService_getLatestRevision db id) as [[latestRevision|]|e] eqn:Hlatest.
  2,3: by destruct (NoteEntity.aliases note) as [|? ?],
            (List.filter AliasEntity.primary _) as [|? ?].
  assert (Hdto : NoteMetadataDto.createTime dto = Revision.createdAt firstRevision ∧
                 NoteMetadataDto.updateTime dto = Revision.createdAt latestRevision ∧
                 NoteMetadataDto.editedBy dto = userName <$> authors ∧
                 NoteMetadataDto.aliases dto = AliasEntity.name <$> NoteEntity.aliases note ∧
                 NoteMetadataDto.primaryAlias dto =
                   AliasEntity.name <$>
                     head (List.filter AliasEntity.primary (NoteEntity.aliases note))).
  { destruct Hcases as [Hnil|(first & rest & Hf & Hne)].
    - rewrite Hnil in Hret |- *. cbn [completion List.filter] in Hret.
      injection Hret as <-. repeat split; reflexivity.
    - rewrite Hf in Hret |- *.
      destruct (NoteEntity.aliases note) as [|a l]; [done|].
      cbn [completion] in Hret. injection Hret as <-. repeat split; reflexivity. }
  destruct Hdto as (Hc & Hu' & He & Ha & Hp).
  split; [|split; [|split; [|split; [exact Ha|split; [exact Hp|]]]]].
  - destruct Hcases as [Hnil|(first & rest & Hf & Hne)].
    + rewrite Hnil. reflexivity.
    + rewrite Hf. by destruct (NoteEntity.aliases note).
  - destruct Hcases as [Hnil|(first & rest & Hf & Hne)].
    + rewrite Hnil. reflexivity.
    + rewrite Hf. by destruct (NoteEntity.aliases note).
  - exists firstRevision, latestRevision, authors. repeat split; assumption.
  - rewrite Hp. destruct Hcases as [Hnil|(first & rest & Hf & Hne)].
    + rewrite Hnil. split; reflexivity.
    + rewrite Hf. split; [discriminate|done].
Qed.

Lemma toNoteMetadataDto_returned_witness :
  let r := {| Revision.content := "text"; Revision.patch := "text";
              Revision.edits := None; Revision.createdAt := 5 |} in
  let db := sampleWithRevision (Some r) in
  ∃ dto,
    completion (toNoteMetadataDto db sampleMappers sampleNote (attachAll [])) = Returned dto ∧
    NoteMetadataDto.primaryAlias dto = Some "first" ∧
    calls (toNoteMetadataDto db sampleMappers sampleNote (attachAll [])) =
      [RevisionsGetLatestRevision "id1"; RevisionsGetFirstRevision "id1";
       UserRepositoryAuthorsOfNote "id1"; RevisionsGetLatestRevision "id1"].
Proof.
  intros r db. eexists. split; [reflexivity|].
  pose proof (toNoteMetadataDto_returned db sampleMappers sampleNote (attachAll []) _
                eq_refl) as (_ & Hcalls & _ & _ & Hp & _).
  split; [exact Hp|exact Hcalls].
Defined.

(** X25. [addAlias] on a note without aliases leaves a note without metadata.
    When [Alias.create] with the name alone makes an alias that is not
    primary, the note that [addAlias] hands to [save] for a note that had no
    alias has one alias and no primary one, so [toNoteMetadataDto] never
    returns for it: it throws what [calculateUpdateUser] throws, or else a
    [TypeError]. *)
Theorem addAlias_first_alias_has_no_metadata {U G} svc db (to : Mappers U G)
    note alias st saved st' :
  NoteEntity.aliases note = [] →
  AliasEntity.primary (Alias_create db alias None) = false →
  NoteRepositorySave saved ∈ calls (addAlias svc db note alias st) →
  NoteEntity.aliases saved = [Alias_create db alias None] ∧
  (∀ dto, completion (toNoteMetadataDto db to saved st') ≠ Returned dto) ∧
  (∀ u, completion (calculateUpdateUser db saved st') = Returned u →
        completion (toNoteMetadataDto db to saved st') = Threw TypeError).
Proof.
  intros Hnil Hprimary Hin.
  assert (Hsaved : NoteEntity.aliases saved = [Alias_create db alias None]).
  { destruct (addAlias_cases svc db note alias st)
      as [[_ H]|[(_ & _ & H)|(_ & _ & H)]]; rewrite H in Hin; cbn [calls] in Hin.
    - apply list_elem_of_singleton in Hin. discriminate.
    - repeat (apply elem_of_cons in Hin as [?|Hin]; [discriminate|]).
      by apply elem_of_nil in Hin.
    - apply elem_of_cons in Hin as [?|Hin]; [discriminate|].
      apply list_elem_of_singleton in Hin. injection Hin as ->.
      cbn. rewrite Hnil. reflexivity. }
  assert (Hthrows : ∀ u, completion (calculateUpdateUser db saved st') = Returned u →
                         completion (toNoteMetadataDto db to saved st') = Threw TypeError).
  { intros u Hu.
    rewrite (toNoteMetadataDto_steps db to saved st' u Hu), Hsaved.
    cbn [List.filter]. rewrite Hprimary. reflexivity. }
  split; [exact Hsaved|]. split; [|exact Hthrows].
  intros dto Hdto.
  destruct (completion (calculateUpdateUser db saved st')) as [u|e] eqn:Hu.
  - rewrite (Hthrows u eq_refl) in Hdto. discriminate.
  - rewrite (toNoteMetadataDto_threw_early db to saved st' e Hu) in Hdto.
    discriminate.
Qed.

Lemma addAlias_first_alias_witness :
  let note := NoteEntity.set_aliases sampleNote [] in
  let saved := NoteEntity.set_aliases sampleNote
                 [Alias_create samplePersistence "third" None] in
  NoteEntity.aliases saved = [Alias_create samplePersistence "third" None] ∧
  (∀ dto, completion (toNoteMetadataDto samplePersistence sampleMappers saved
                        (attachAll [])) ≠ Returned dto) ∧
  (∀ u, completion (calculateUpdateUser samplePersistence saved (attachAll []))
          = Returned u →
        completion (toNoteMetadataDto samplePersistence sampleMappers saved
                      (attachAll [])) = Threw TypeError).
Proof.
  intros note saved.
  apply (addAlias_first_alias_has_no_metadata sampleServices samplePersistence
           sampleMappers note "third" (attachAll []) saved (attachAll [])).
  - reflexivity.
  - reflexivity.
  - apply list_elem_of_further, list_elem_of_here.
Defined.

(** ** [getNoteContent] and [toNoteDto] *)

(** Without a latest revision [toNoteMetadataDto] does not return. *)
Lemma toNoteMetadataDto_needs_latest {U G} db (to : Mappers U G) note st dto :
  revisionsService_getLatestRevision db (Note.id (NoteEntity.row note))
    = Returned None →
  completion (toNoteMetadataDto db to note st) ≠ Returned dto.
Proof.
  intros Hnone Hdto.
  destruct (completion (calculateUpdateUser db note st)) as [u|e] eqn:Hu.
  - rewrite (toNoteMetadataDto_steps db to note st u Hu) in Hdto.
    cbv zeta in Hdto. rewrite Hnone in Hdto. revert Hdto.
    repeat match goal with
           | |- context [match ?x with _ => _ end] => destruct x
           end; discriminate.
  - rewrite (toNoteMetadataDto_threw_early db to note st e Hu) in Hdto.
    discriminate.
Qed.

(** X26. A note without a latest revision has no DTO: when
    [RevisionsService.getLatestRevision] gives [undefined], [toNoteDto] throws
    a [TypeError] on reading the content, after that one call and without
    starting on the metadata; and [toNoteMetadataDto] on its own does not
    return either. *)
Theorem toNoteDto_without_revision {U G} db (to : Mappers U G) note st :
  revisionsService_getLatestRevision db (Note.id (NoteEntity.row note))
    = Returned None →
  toNoteDto db to note st =
    {| completion := Threw TypeError; gateway := st;
       calls := [RevisionsGetLatestRevision (Note.id (NoteEntity.row note))] |} ∧
  ∀ dto, completion (toNoteMetadataDto db to note st) ≠ Returned dto.
Proof.
  intros Hnone. split.
  - unfold toNoteDto, getNoteContent. svc_steps. rewrite Hnone. reflexivity.
  - intros dto. by apply toNoteMetadataDto_needs_latest.
Qed.

Lemma toNoteDto_without_revision_witness :
  toNoteDto samplePersistence sampleMappers sampleNote (attachAll []) =
    {| completion := Threw TypeError; gateway := attachAll [];
       calls := [RevisionsGetLatestRevision (Note.id (NoteEntity.row sampleNote))] |} ∧
  ∀ dto, completion (toNoteMetadataDto samplePersistence sampleMappers sampleNote
                       (attachAll [])) ≠ Returned dto.
Proof.
  exact (toNoteDto_without_revision samplePersistence sampleMappers sampleNote
           (attachAll []) eq_refl).
Defined.

(** The reply of [toNoteMetadataDto] when it returns. *)
Lemma toNoteMetadataDto_returned_reply {U G} db (to : Mappers U G) note st dto :
  completion (toNoteMetadataDto db to note st) = Returned dto →
  let id := Note.id (NoteEntity.row note) in
  toNoteMetadataDto db to note st =
    {| completion := Returned dto; gateway := st;
       calls := [RevisionsGetLatestRevision id; RevisionsGetFirstRevision id;
                 UserRepositoryAuthorsOfNote id; RevisionsGetLatestRevision id] |}.
Proof.
  intros Hdto id. subst id. revert Hdto.
  destruct (completion (calculateUpdateUser db note st)) as [u|e] eqn:Hu.
  2: { rewrite (toNoteMetadataDto_threw_early db to note st e Hu). discriminate. }
  rewrite (toNoteMetadataDto_steps db to note st u Hu). cbv zeta.
  repeat match goal with
         | |- context [match ?x with _ => _ end] => destruct x
         end; cbn [completion]; try discriminate; intros [= <-]; reflexivity.
Qed.

(** X27. When [toNoteDto] returns, its content is the content of the latest
    revision, its metadata is what [toNoteMetadataDto] returns for the note,
    [editedByAtPosition] is empty, and the latest revision has been asked for
    three times: once for the content and twice for the metadata. *)
Theorem toNoteDto_returned {U G} db (to : Mappers U G) note st dto :
  completion (toNoteDto db to note st) = Returned dto →
  let id := Note.id (NoteEntity.row note) in
  (∃ latestRevision,
     revisionsService_getLatestRevision db id = Returned (Some latestRevision) ∧
     NoteDto.content dto = Revision.content latestRevision) ∧
  completion (toNoteMetadataDto db to note st) = Returned (NoteDto.metadata dto) ∧
  NoteDto.editedByAtPosition dto = [] ∧
  gateway (toNoteDto db to note st) = st ∧
  calls (toNoteDto db to note st) =
    [RevisionsGetLatestRevision id; RevisionsGetLatestRevision id;
     RevisionsGetFirstRevision id; UserRepositoryAuthorsOfNote id;
     RevisionsGetLatestRevision id].
Proof.
  intros Hret id. subst id. revert Hret.
  unfold toNoteDto, getNoteContent. svc_steps.
  destruct (revisionsService_getLatestRevision db _) as [[latestRevision|]|e] eqn:Hlatest;
    svc_steps; try discriminate.
  destruct (completion (toNoteMetadataDto db to note st)) as [metadata|e] eqn:Hm;
    [|discriminate].
  rewrite (toNoteMetadataDto_returned_reply db to note st metadata Hm).
  cbn [completion gateway calls app]. intros [= <-].
  split; [by eexists|]. repeat split; reflexivity.
Qed.

Lemma toNoteDto_returned_witness :
  let r := {| Revision.content := "text"; Revision.patch := "text";
              Revision.edits := None; Revision.createdAt := 5 |} in
  let db := sampleWithRevision (Some r) in
  ∃ dto,
    completion (toNoteDto db sampleMappers sampleNote (attachAll [])) = Returned dto ∧
    NoteDto.content dto = "text" ∧
    NoteDto.editedByAtPosition dto = [].
Proof.
  intros r db. eexists. split; [reflexivity|].
  pose proof (toNoteDto_returned db sampleMappers sampleNote (attachAll []) _
                eq_refl) as ((latest & Hlatest & Hcontent) & _ & Hnil & _).
  split; [|exact Hnil].
  rewrite Hcontent. injection Hlatest as <-. reflexivity.
Defined.

(** ** [updateNote] and [updateNotePermissions] *)

(** X28. [updateNote] makes one call, a save of the note with one more
    revision after those it had, whose content and patch are both the new
    content, and without any user or group permission, whatever
    permissions the note had: the permissions DTO of the saved note names the
    same owner and shares the note with nobody.  Aliases and the row are
    kept, and what [save] gives is the completion. *)
Theorem updateNote_adds_revision_and_drops_permissions {U G} db
    (to : Mappers U G) note noteContent st :
  ∃ saved,
    updateNote db note noteContent st =
      {| completion := noteRepository_save db saved; gateway := st;
         calls := [NoteRepositorySave saved] |} ∧
    NoteEntity.revisions saved =
      (NoteEntity.revisions note ++ [Revision_create db noteContent noteContent])%list ∧
    NotePermissionsDto.sharedToUsers (toNotePermissionsDto to saved) = [] ∧
    NotePermissionsDto.sharedToGroups (toNotePermissionsDto to saved) = [] ∧
    NotePermissionsDto.owner (toNotePermissionsDto to saved) =
      NotePermissionsDto.owner (toNotePermissionsDto to note) ∧
    NoteEntity.aliases saved = NoteEntity.aliases note ∧
    NoteEntity.row saved = NoteEntity.row note.
Proof.
  eexists. split; [reflexivity|]. repeat split; reflexivity.
Qed.

Lemma set_userPermissions_app_nil note :
  NoteEntity.set_userPermissions note (NoteEntity.userPermissions note ++ []) = note.
Proof. destruct note. unfold NoteEntity.set_userPermissions. cbn. by rewrite app_nil_r. Qed.

Lemma set_groupPermissions_app_nil note :
  NoteEntity.set_groupPermissions note (NoteEntity.groupPermissions note ++ []) = note.
Proof. destruct note. unfold NoteEntity.set_groupPermissions. cbn. by rewrite app_nil_r. Qed.

(** The first loop either finds every user and pushes one permission each, or
    stops at the first lookup that rejects. *)
Lemma createUserPermissions_spec svc db l note st :
  (∃ users,
     Forall2 (λ dto u, users_getUserByUsername svc
                         (NoteUserPermissionUpdateDto.username dto) = Fulfilled u)
             l users ∧
     createUserPermissions svc db l note st =
       {| completion :=
            Returned (NoteEntity.set_userPermissions note
                        (NoteEntity.userPermissions note ++
                         zip_with (λ dto u, NoteUserPermission_create db u
                                      (NoteUserPermissionUpdateDto.canEdit dto))
                                  l users));
          gateway := st;
          calls := userLookups l |}) ∨
  (∃ before failing after e,
     l = (before ++ failing :: after)%list ∧
     users_getUserByUsername svc (NoteUserPermissionUpdateDto.username failing)
       = Rejected e ∧
     createUserPermissions svc db l note st =
       {| completion := Threw (ThrownError e);
          gateway := st;
          calls := userLookups (before ++ [failing]) |}).
Proof.
  revert note. induction l as [|dto l IH]; intros note.
  - left. exists []. split; [constructor|].
    cbn [createUserPermissions zip_with]. rewrite set_userPermissions_app_nil.
    reflexivity.
  - cbn [createUserPermissions].
    cbv beta iota zeta delta [mbind Svc_bind fromRun userService_getUserByUsername
                              Run_bind emit await].
    cbn [outcome final trace completion gateway calls app fmap list_fmap].
    destruct (users_getUserByUsername svc (NoteUserPermissionUpdateDto.username dto))
      as [user|e] eqn:Hdto.
    + destruct (IH (NoteEntity.set_userPermissions note
                      (NoteEntity.userPermissions note ++
                       [NoteUserPermission_create db user
                          (NoteUserPermissionUpdateDto.canEdit dto)])))
        as [(users & Hall & ->)|(before & failing & after & e & -> & Hfail & ->)].
      * left. exists (user :: users). split; [by constructor|].
        cbn [completion gateway calls zip_with]. f_equal.
        f_equal. destruct note. unfold NoteEntity.set_userPermissions. cbn.
        by rewrite <- app_assoc.
      * right. exists (dto :: before), failing, after, e.
        split; [reflexivity|]. split; [exact Hfail|]. reflexivity.
    + right. exists [], dto, l, e. split; [reflexivity|]. split; [exact Hdto|].
      reflexivity.
Qed.

(** The second loop, likewise. *)
Lemma createGroupPermissions_spec db l note st :
  (∃ groups,
     Forall2 (λ dto g, groupsService_getGroupByName db
                         (NoteGroupPermissionUpdateDto.groupname dto) = Returned g)
             l groups ∧
     createGroupPermissions db l note st =
       {| completion :=
            Returned (NoteEntity.set_groupPermissions note
                        (NoteEntity.groupPermissions note ++
                         zip_with (λ dto g, NoteGroupPermission_create db g
                                      (NoteGroupPermissionUpdateDto.canEdit dto))
                                  l groups));
          gateway := st;
          calls := groupLookups l |}) ∨
  (∃ before failing after e,
     l = (before ++ failing :: after)%list ∧
     groupsService_getGroupByName db (NoteGroupPermissionUpdateDto.groupname failing)
       = Threw e ∧
     createGroupPermissions db l note st =
       {| completion := Threw e;
          gateway := st;
          calls := groupLookups (before ++ [failing]) |}).
Proof.
  revert note. induction l as [|dto l IH]; intros note.
  - left. exists []. split; [constructor|].
    cbn [createGroupPermissions zip_with]. rewrite set_groupPermissions_app_nil.
    reflexivity.
  - cbn [createGroupPermissions].
    cbv beta iota zeta delta [mbind Svc_bind svc_call].
    cbn [completion gateway calls app fmap list_fmap].
    destruct (groupsService_getGroupByName db (NoteGroupPermissionUpdateDto.groupname dto))
      as [group|e] eqn:Hdto.
    + destruct (IH (NoteEntity.set_groupPermissions note
                      (NoteEntity.groupPermissions note ++
                       [NoteGroupPermission_create db group
                          (NoteGroupPermissionUpdateDto.canEdit dto)])))
        as [(groups & Hall & ->)|(before & failing & after & e & -> & Hfail & ->)].
      * left. exists (group :: groups). split; [by constructor|].
        cbn [completion gateway calls zip_with]. f_equal.
        f_equal. destruct note. unfold NoteEntity.set_groupPermissions. cbn.
        by rewrite <- app_assoc.
      * right. exists (dto :: before), failing, after, e.
        split; [reflexivity|]. split; [exact Hfail|]. reflexivity.
    + right. exists [], dto, l, e. split; [reflexivity|]. split; [exact Hdto|].
      reflexivity.
Qed.

(** X29. A request that names a user or a group twice is refused before
    anything else happens: when the duplicate check holds of the user names
    or of the group names, [updateNotePermissions] logs one debug line and
    throws [PermissionsUpdateInconsistentError]; no user or group is looked
    up and nothing is saved. *)
Theorem updateNotePermissions_duplicates_refused checkArrayForDuplicates svc db
    note newPermissions st :
  checkArrayForDuplicates
    (NoteUserPermissionUpdateDto.username
       <$> NotePermissionsUpdateDto.sharedToUsers newPermissions)
  || checkArrayForDuplicates
       (NoteGroupPermissionUpdateDto.groupname
          <$> NotePermissionsUpdateDto.sharedToGroups newPermissions) = true →
  updateNotePermissions checkArrayForDuplicates svc db note newPermissions st =
    {| completion := Threw (PermissionsUpdateInconsistentError inconsistentMessage);
       gateway := st;
       calls := [ Traced (EvLog LogDebug "NotesService" (Some "updateNotePermissions")
                            inconsistentMessage) ] |}.
Proof.
  intros Hdup. unfold updateNotePermissions. cbv zeta. rewrite Hdup. reflexivity.
Qed.

Lemma updateNotePermissions_duplicates_witness :
  let twice :=
    {| NotePermissionsUpdateDto.sharedToUsers :=
         [ {| NoteUserPermissionUpdateDto.username := "ann";
              NoteUserPermissionUpdateDto.canEdit := true |};
           {| NoteUserPermissionUpdateDto.username := "ann";
              NoteUserPermissionUpdateDto.canEdit := false |} ];
       NotePermissionsUpdateDto.sharedToGroups := [] |} in
  updateNotePermissions sampleCheckArrayForDuplicates sampleServices
      samplePersistence sampleNote twice (attachAll []) =
    {| completion := Threw (PermissionsUpdateInconsistentError inconsistentMessage);
       gateway := attachAll [];
       calls := [ Traced (EvLog LogDebug "NotesService" (Some "updateNotePermissions")
                            inconsistentMessage) ] |}.
Proof.
  intros twice.
  apply (updateNotePermissions_duplicates_refused sampleCheckArrayForDuplicates
           sampleServices samplePersistence sampleNote twice (attachAll [])).
  vm_compute. reflexivity.
Defined.

(** X30. [updateNotePermissions] saves only what was asked, and only when all
    of it was found.  If it hands a note to [save], then the duplicate check
    failed for the user names and for the group names, every requested user
    and then every requested group was looked up, in the order of the
    request, and found; the saved note has exactly one permission for each
    request entry, in that order, made from the user or group found and the
    requested [canEdit], and none of the permissions it had before; its
    aliases, revisions and owner are untouched; the save is the last call
    and what it gives is the completion. *)
Theorem updateNotePermissions_saves_what_was_asked checkArrayForDuplicates svc db
    note newPermissions st saved :
  NoteRepositorySave saved ∈
    calls (updateNotePermissions checkArrayForDuplicates svc db note newPermissions st) →
  let sharedToUsers := NotePermissionsUpdateDto.sharedToUsers newPermissions in
  let sharedToGroups := NotePermissionsUpdateDto.sharedToGroups newPermissions in
  checkArrayForDuplicates (NoteUserPermissionUpdateDto.username <$> sharedToUsers)
    = false ∧
  checkArrayForDuplicates (NoteGroupPermissionUpdateDto.groupname <$> sharedToGroups)
    = false ∧
  ∃ users groups,
    Forall2 (λ dto u, users_getUserByUsername svc
                        (NoteUserPermissionUpdateDto.username dto) = Fulfilled u)
            sharedToUsers users ∧
    Forall2 (λ dto g, groupsService_getGroupByName db
                        (NoteGroupPermissionUpdateDto.groupname dto) = Returned g)
            sharedToGroups groups ∧
    NoteEntity.userPermissions saved =
      zip_with (λ dto u, NoteUserPermission_create db u
                           (NoteUserPermissionUpdateDto.canEdit dto))
               sharedToUsers users ∧
    NoteEntity.groupPermissions saved =
      zip_with (λ dto g, NoteGroupPermission_create db g
                           (NoteGroupPermissionUpdateDto.canEdit dto))
               sharedToGroups groups ∧
    NoteEntity.aliases saved = NoteEntity.aliases note ∧
    NoteEntity.revisions saved = NoteEntity.revisions note ∧
    NoteEntity.owner saved = NoteEntity.owner note ∧
    calls (updateNotePermissions checkArrayForDuplicates svc db note newPermissions st) =
      (userLookups sharedToUsers ++ groupLookups sharedToGroups
         ++ [NoteRepositorySave saved])%list ∧
    completion (updateNotePermissions checkArrayForDuplicates svc db note
                  newPermissions st) = noteRepository_save db saved.
Proof.
  intros Hin sharedToUsers sharedToGroups. revert Hin.
  unfold updateNotePermissions. cbv zeta. fold sharedToUsers sharedToGroups.
  destruct (checkArrayForDuplicates (_ <$> sharedToUsers)) eqn:Hu.
  { cbn [orb]. intros Hin. exfalso. revert Hin. svc_steps.
    intros Hin. apply list_elem_of_singleton in Hin. discriminate. }
  destruct (checkArrayForDuplicates (_ <$> sharedToGroups)) eqn:Hg.
  { cbn [orb]. intros Hin. exfalso. revert Hin. svc_steps.
    intros Hin. apply list_elem_of_singleton in Hin. discriminate. }
  cbn [orb]. cbv beta iota zeta delta [mbind Svc_bind].
  assert (Hno_user : ∀ l, NoteRepositorySave saved ∉ userLookups l).
  { intros l Hin. apply list_elem_of_fmap in Hin as (? & [=] & _). }
  assert (Hno_group : ∀ l, NoteRepositorySave saved ∉ groupLookups l).
  { intros l Hin. apply list_elem_of_fmap in Hin as (? & [=] & _). }
  destruct (createUserPermissions_spec svc db sharedToUsers
              (NoteEntity.set_groupPermissions
                 (NoteEntity.set_userPermissions note []) []) st)
    as [(users & Husers & ->)|(before & failing & after & e & _ & _ & ->)].
  2: { cbn [completion gateway calls]. intros Hin. by apply Hno_user in Hin. }
  cbn [completion gateway calls].
  match goal with
  | |- context [createGroupPermissions db sharedToGroups ?n st] =>
      destruct (createGroupPermissions_spec db sharedToGroups n st)
        as [(groups & Hgroups & ->)|(before & failing & after & e & _ & _ & ->)]
  end.
  2: { cbn [completion gateway calls]. intros Hin.
       apply elem_of_app in Hin as [Hin|Hin];
         [by apply Hno_user in Hin|by apply Hno_group in Hin]. }
  cbn [completion gateway calls]. unfold save_note, svc_call.
  cbn [completion gateway calls]. intros Hin.
  apply elem_of_app in Hin as [Hin|Hin]; [by apply Hno_user in Hin|].
  apply elem_of_app in Hin as [Hin|Hin]; [by apply Hno_group in Hin|].
  apply list_elem_of_singleton in Hin. injection Hin as ->.
  split; [reflexivity|]. split; [reflexivity|].
  exists users, groups. repeat split; try assumption; reflexivity.
Qed.

Lemma updateNotePermissions_saves_witness :
  ∃ saved,
    NoteRepositorySave saved ∈
      calls (updateNotePermissions sampleCheckArrayForDuplicates sampleServices
               samplePersistence sampleNote samplePermissionsUpdate (attachAll [])) ∧
    NoteEntity.userPermissions saved =
      [ {| permittedUser := {| userName := "hardcoded" |}; userCanEdit := true |} ] ∧
    NoteEntity.groupPermissions saved =
      [ {| permittedGroup := {| groupName := "everyone" |}; groupCanEdit := false |} ].
Proof.
  eexists. split.
  - vm_compute. apply list_elem_of_further, list_elem_of_further, list_elem_of_here.
  - match goal with
    | |- NoteEntity.userPermissions ?saved = _ ∧ _ =>
        destruct (updateNotePermissions_saves_what_was_asked
                    sampleCheckArrayForDuplicates sampleServices samplePersistence
                    sampleNote samplePermissionsUpdate (attachAll []) saved)
          as (_ & _ & users & groups & Husers & Hgroups & Hup & Hgp & _)
    end.
    + vm_compute. apply list_elem_of_further, list_elem_of_further, list_elem_of_here.
    + split; reflexivity.
Defined.
